(** * Supplier Management System: audit capture and backup replication

    A shallow embedding of [app.py]: the two SQLite databases
    ([supplier_mgmt.db] and [supplier_backup.db]), the two audit triggers of
    [SCHEMA_SQL], the two replication routines, [seed_demo] and the Flask
    routes that write to the databases, followed by the properties of the
    replication engine.

    Conventions.
    - A table is the list of its rows in rowid order, which is the order in
      which a [SELECT] without [ORDER BY] scans it.
    - SQLite integers are 64-bit signed; rowids are modelled as [Z] with the
      upper bound [max_rowid] written out where SQLite checks it.
    - [REAL] values are IEEE-754 binary64, modelled with [spec_float]; a
      [REAL] column gives a stored [-0.0] back as [+0.0] ([store_real]).
    - [datetime('now')] reads the wall clock; the readings are inputs of the
      model ([timestamp], seconds since the epoch).
    - A connection works on a private copy of its database: what it has
      executed becomes durable at [commit()], and is discarded when the
      function is left through an exception or the process stops. *)

From Stdlib Require Import ZArith List String Bool Lia Permutation Sorted.
From Stdlib Require Import Floats.SpecFloat.
Import ListNotations.
Open Scope string_scope.
Open Scope list_scope.
Open Scope Z_scope.

(* ================================================================= *)
(** ** SQL values, errors *)

Definition timestamp := Z.
Definition real := spec_float.

(** [sqlite3.IntegrityError] (a constraint failed) and
    [sqlite3.OperationalError] (storage layer: disk full, database locked,
    [SQLITE_FULL] on rowid exhaustion). *)
Inductive sql_error := IntegrityError | OperationalError.

Inductive result (A : Type) :=
| Ok (a : A)
| Err (e : sql_error).
Arguments Ok {A} a.
Arguments Err {A} e.

Definition bind {A B : Type} (c : result A) (k : A -> result B) : result B :=
  match c with
  | Ok a => k a
  | Err e => Err e
  end.

Notation "x <- c ;; k" := (bind c (fun x => k))
  (at level 61, c at next level, right associativity).
Notation "c ;;; k" := (bind c (fun _ => k))
  (at level 61, right associativity).

(** A Python [float] handed to SQLite: NaN is bound as NULL. *)
Definition bind_real (x : real) : option real :=
  match x with
  | S754_nan => None
  | _ => Some x
  end.

(** [CHECK(unit_price >= 0)] and [CHECK(quantity > 0)]. *)
Definition real_ge0 (x : real) : bool := SFleb (S754_zero false) x.
Definition real_gt0 (x : real) : bool := SFltb (S754_zero false) x.

(** What a [REAL] column holds after a float was stored in it.  SQLite
    writes a float that has no fractional part as an integer and turns it
    back into a float when the column is read: the value is the same, but
    for [-0.0], which comes back as [+0.0]. *)
Definition store_real (x : real) : real :=
  match x with
  | S754_zero true => S754_zero false
  | _ => x
  end.

(** The binary64 value of a positive integer below 2^53 (the literals of
    [seed_demo]): mantissa normalised to 53 bits. *)
Definition real_of_pos (p : positive) : real :=
  let l := Z.log2 (Z.pos p) in
  S754_finite false (Z.to_pos (Z.shiftl (Z.pos p) (52 - l))) (l - 52).

(* ================================================================= *)
(** ** Rowids *)

Definition max_rowid : Z := 9223372036854775807.

Definition largest (ids : list Z) : Z := fold_right Z.max 0 ids.

(** [INTEGER PRIMARY KEY] without AUTOINCREMENT and no explicit value: one
    more than the largest rowid in the table.  At [max_rowid] SQLite tries
    random unused rowids and gives up with [SQLITE_FULL]; the model takes
    the failure. *)
Definition next_rowid (ids : list Z) : result Z :=
  if largest ids <? max_rowid then Ok (largest ids + 1) else Err OperationalError.

(** A table declared [INTEGER PRIMARY KEY AUTOINCREMENT] together with its
    row of [sqlite_sequence].  [DELETE] leaves [seq] alone, so rowids are
    never reused. *)
Record autoinc (R : Type) := mkAutoinc { rows : list R; seq : Z }.
Arguments mkAutoinc {R} rows seq.
Arguments rows {R} a.
Arguments seq {R} a.

Definition empty_autoinc {R : Type} : autoinc R := mkAutoinc [] 0.

(** AUTOINCREMENT: one more than the largest rowid the table has ever held;
    [SQLITE_FULL] when that is [max_rowid]. *)
Definition autoincrement_rowid {R : Type} (rowid : R -> Z) (t : autoinc R) : result Z :=
  let m := Z.max (seq t) (largest (map rowid (rows t))) in
  if m <? max_rowid then Ok (m + 1) else Err OperationalError.

Definition autoinc_insert {R : Type} (rowid : R -> Z) (mk : Z -> R) (t : autoinc R)
  : result (autoinc R) :=
  id <- autoincrement_rowid rowid t ;;
  Ok (mkAutoinc (rows t ++ [mk id]) id).

(** [DELETE FROM t;] on an AUTOINCREMENT table. *)
Definition autoinc_delete_all {R : Type} (t : autoinc R) : autoinc R :=
  mkAutoinc [] (seq t).

(* ================================================================= *)
(** ** Rows of [SCHEMA_SQL] and [BACKUP_SCHEMA] *)

Record supplier := mkSupplier {
  s_supplier_id : Z;
  s_name : string;
  s_contact_name : option string;
  s_phone : option string;
  s_email : option string;
  s_address : option string;
  s_city : option string;
  s_state : option string;
  s_country : option string;
  s_is_active : Z;
  s_created_at : timestamp
}.

Record product := mkProduct {
  p_product_id : Z;
  p_name : string;
  p_sku : option string;
  p_unit_price : real;
  p_is_active : Z;
  p_created_at : timestamp
}.

Record purchase_order := mkOrder {
  po_order_id : Z;
  po_supplier_id : Z;
  po_order_date : timestamp;
  po_status : string;
  po_notes : option string
}.

Record order_item := mkItem {
  oi_item_id : Z;
  oi_order_id : Z;
  oi_product_id : option Z;
  oi_description : string;
  oi_quantity : real;
  oi_unit_price : real
}.

Record product_audit := mkProductAudit {
  pa_audit_id : Z;
  pa_product_id : Z;
  pa_name : string;
  pa_sku : option string;
  pa_unit_price : real;
  pa_audit_time : timestamp
}.

Record order_item_audit := mkItemAudit {
  oia_audit_id : Z;
  oia_item_id : Z;
  oia_order_id : Z;
  oia_product_id : option Z;
  oia_description : string;
  oia_quantity : real;
  oia_unit_price : real;
  oia_audit_time : timestamp
}.

Record product_backup := mkProductBackup {
  pb_backup_id : Z;
  pb_product_id : Z;
  pb_name : string;
  pb_sku : option string;
  pb_unit_price : real;
  pb_backed_up_at : timestamp
}.

Record order_item_backup := mkItemBackup {
  oib_backup_id : Z;
  oib_item_id : Z;
  oib_order_id : Z;
  oib_product_id : option Z;
  oib_description : string;
  oib_quantity : real;
  oib_unit_price : real;
  oib_backed_up_at : timestamp
}.

(** The snapshot fields of an audit row and of a backup row. *)
Definition product_fields : Type := Z * string * option string * real.
Definition item_fields : Type := Z * Z * option Z * string * real * real.

Definition pa_fields (r : product_audit) : product_fields :=
  (pa_product_id r, pa_name r, pa_sku r, pa_unit_price r).
Definition pb_fields (b : product_backup) : product_fields :=
  (pb_product_id b, pb_name b, pb_sku b, pb_unit_price b).
Definition oia_fields (r : order_item_audit) : item_fields :=
  (oia_item_id r, oia_order_id r, oia_product_id r, oia_description r,
   oia_quantity r, oia_unit_price r).
Definition oib_fields (b : order_item_backup) : item_fields :=
  (oib_item_id b, oib_order_id b, oib_product_id b, oib_description b,
   oib_quantity b, oib_unit_price b).

(* ================================================================= *)
(** ** The two databases *)

Record main_db := mkMain {
  suppliers : list supplier;
  products : list product;
  purchase_orders : list purchase_order;
  purchase_order_items : list order_item;
  products_audit : autoinc product_audit;
  order_items_audit : autoinc order_item_audit;
  products_backup_ids : list Z;
  order_items_backup_ids : list Z
}.

Record backup_db := mkBackup {
  products_backup : autoinc product_backup;
  order_items_backup : autoinc order_item_backup
}.

(** The durable state: what is on disk in the two database files. *)
Record system := mkSystem { main : main_db; backup : backup_db }.

(** After [startup()] has run both schema scripts on fresh files. *)
Definition empty_main : main_db :=
  mkMain [] [] [] [] empty_autoinc empty_autoinc [] [].
Definition empty_backup : backup_db := mkBackup empty_autoinc empty_autoinc.
Definition initial : system := mkSystem empty_main empty_backup.

Definition set_products_backup_ids (l : list Z) (m : main_db) : main_db :=
  mkMain (suppliers m) (products m) (purchase_orders m) (purchase_order_items m)
         (products_audit m) (order_items_audit m) l (order_items_backup_ids m).
Definition set_order_items_backup_ids (l : list Z) (m : main_db) : main_db :=
  mkMain (suppliers m) (products m) (purchase_orders m) (purchase_order_items m)
         (products_audit m) (order_items_audit m) (products_backup_ids m) l.
Definition set_products_backup (t : autoinc product_backup) (b : backup_db) : backup_db :=
  mkBackup t (order_items_backup b).
Definition set_order_items_backup (t : autoinc order_item_backup) (b : backup_db) : backup_db :=
  mkBackup (products_backup b) t.
Definition set_suppliers (l : list supplier) (m : main_db) : main_db :=
  mkMain l (products m) (purchase_orders m) (purchase_order_items m)
         (products_audit m) (order_items_audit m)
         (products_backup_ids m) (order_items_backup_ids m).
Definition set_products (l : list product) (m : main_db) : main_db :=
  mkMain (suppliers m) l (purchase_orders m) (purchase_order_items m)
         (products_audit m) (order_items_audit m)
         (products_backup_ids m) (order_items_backup_ids m).
Definition set_purchase_orders (l : list purchase_order) (m : main_db) : main_db :=
  mkMain (suppliers m) (products m) l (purchase_order_items m)
         (products_audit m) (order_items_audit m)
         (products_backup_ids m) (order_items_backup_ids m).
Definition set_purchase_order_items (l : list order_item) (m : main_db) : main_db :=
  mkMain (suppliers m) (products m) (purchase_orders m) l
         (products_audit m) (order_items_audit m)
         (products_backup_ids m) (order_items_backup_ids m).
Definition set_products_audit (t : autoinc product_audit) (m : main_db) : main_db :=
  mkMain (suppliers m) (products m) (purchase_orders m) (purchase_order_items m)
         t (order_items_audit m)
         (products_backup_ids m) (order_items_backup_ids m).
Definition set_order_items_audit (t : autoinc order_item_audit) (m : main_db) : main_db :=
  mkMain (suppliers m) (products m) (purchase_orders m) (purchase_order_items m)
         (products_audit m) t
         (products_backup_ids m) (order_items_backup_ids m).

(* ================================================================= *)
(** ** Faults and outcomes

    What the environment can do to one call of a replication routine:
    an [execute] can raise, and the process can stop.  Nothing in [app.py]
    catches an exception, so the first one ends the routine before any
    [commit()]. *)

Inductive halt_point :=
| BeforeCommits   (* stopped in the loop or before [conn.commit()] *)
| BetweenCommits. (* stopped after [conn.commit()], before [bconn.commit()];
                     also: [bconn.commit()] itself raised *)

Record faults := mkFaults {
  read_fails : bool;                 (* the SELECT of the pending set raises *)
  backup_write_fails : nat -> bool;  (* the backup INSERT of the i-th row raises *)
  ledger_write_fails : nat -> bool;  (* the ledger INSERT of the i-th row raises *)
  halt : option halt_point
}.

Definition no_faults : faults :=
  mkFaults false (fun _ => false) (fun _ => false) None.

(** How a call ended: it returned, an [execute] raised, or it was cut short
    at a [halt_point]. *)
Inductive outcome :=
| Returned
| Raised (e : sql_error)
| Halted.

(* ================================================================= *)
(** ** The replication pass

    [replicate_product_to_backup] and [replicate_order_item_to_backup] are
    the same code over different tables; the common body is written once,
    over the audit rows [A] and the backup rows [B] of a kind. *)

Section Pass.
Context {A B : Type}.
Variable audit_id : A -> Z.
Variable backup_id : B -> Z.
(** The row built by [INSERT INTO .._backup(..) VALUES (?,..)] from the
    audit row, the clock reading of [DEFAULT (datetime('now'))] and the
    fresh [backup_id]. *)
Variable copy : A -> timestamp -> Z -> B.

(** [WHERE audit_id NOT IN (SELECT audit_id FROM .._backup_ids)] *)
Definition not_backed_up (ledger : list Z) (r : A) : bool :=
  negb (existsb (Z.eqb (audit_id r)) ledger).

Definition select_pending (audit : list A) (ledger : list Z) : list A :=
  filter (not_backed_up ledger) audit.

Definition insert_backup (now : timestamp) (r : A) (t : autoinc B)
  : result (autoinc B) :=
  autoinc_insert backup_id (copy r now) t.

(** [INSERT INTO .._backup_ids(audit_id) VALUES (?)]: [audit_id] is the
    primary key. *)
Definition insert_backup_id (id : Z) (ledger : list Z) : result (list Z) :=
  if existsb (Z.eqb id) ledger then Err IntegrityError
  else Ok (ledger ++ [id]).

(** [for r in rows: ...], [i] being the index of the head of [rs]. *)
Fixpoint replicate_rows (f : faults) (clk : nat -> timestamp) (i : nat)
         (rs : list A) (ledger : list Z) (t : autoinc B)
  : result (list Z * autoinc B) :=
  match rs with
  | [] => Ok (ledger, t)
  | r :: rest =>
      if backup_write_fails f i then Err OperationalError else
      t' <- insert_backup (clk i) r t ;;
      if ledger_write_fails f i then Err OperationalError else
      ledger' <- insert_backup_id (audit_id r) ledger ;;
      replicate_rows f clk (S i) rest ledger' t'
  end.

(** The whole routine on the tables it touches: the durable ledger and
    backup table it leaves, and how it ended. *)
Definition pass (f : faults) (clk : nat -> timestamp)
           (audit : list A) (ledger : list Z) (t : autoinc B)
  : list Z * autoinc B * outcome :=
  if read_fails f then (ledger, t, Raised OperationalError) else
  match replicate_rows f clk 0 (select_pending audit ledger) ledger t with
  | Err e => (ledger, t, Raised e)
  | Ok (ledger', t') =>
      match halt f with
      | Some BeforeCommits => (ledger, t, Halted)
      | Some BetweenCommits => (ledger', t, Halted)   (* conn.commit() *)
      | None => (ledger', t', Returned)               (* bconn.commit() *)
      end
  end.
End Pass.

Definition copy_product (r : product_audit) (now : timestamp) (id : Z) : product_backup :=
  mkProductBackup id (pa_product_id r) (pa_name r) (pa_sku r) (pa_unit_price r) now.

Definition copy_order_item (r : order_item_audit) (now : timestamp) (id : Z)
  : order_item_backup :=
  mkItemBackup id (oia_item_id r) (oia_order_id r) (oia_product_id r)
               (oia_description r) (oia_quantity r) (oia_unit_price r) now.

(** The rows [replicate_product_to_backup] selects. *)
Definition pending_products (s : system) : list product_audit :=
  select_pending pa_audit_id (rows (products_audit (main s)))
                 (products_backup_ids (main s)).

Definition pending_order_items (s : system) : list order_item_audit :=
  select_pending oia_audit_id (rows (order_items_audit (main s)))
                 (order_items_backup_ids (main s)).

Definition replicate_product_to_backup (f : faults) (clk : nat -> timestamp)
           (s : system) : system * outcome :=
  let '(ledger, t, o) :=
    pass pa_audit_id pb_backup_id copy_product f clk
         (rows (products_audit (main s))) (products_backup_ids (main s))
         (products_backup (backup s)) in
  (mkSystem (set_products_backup_ids ledger (main s))
            (set_products_backup t (backup s)), o).

Definition replicate_order_item_to_backup (f : faults) (clk : nat -> timestamp)
           (s : system) : system * outcome :=
  let '(ledger, t, o) :=
    pass oia_audit_id oib_backup_id copy_order_item f clk
         (rows (order_items_audit (main s))) (order_items_backup_ids (main s))
         (order_items_backup (backup s)) in
  (mkSystem (set_order_items_backup_ids ledger (main s))
            (set_order_items_backup t (backup s)), o).

(** Sequencing of two calls in one request: the second runs only when the
    first returned. *)
Definition and_then (r : system * outcome) (k : system -> system * outcome)
  : system * outcome :=
  match r with
  | (s, Returned) => k s
  | _ => r
  end.

(* ================================================================= *)
(** ** Entity inserts and the capture triggers *)

(** [date('now')]: the day of the clock reading. *)
Definition date (now : timestamp) : timestamp := now / 86400.

Definition opt_eqb (a b : option string) : bool :=
  match a, b with
  | Some x, Some y => String.eqb x y
  | _, _ => false   (* NULL is distinct from everything in a UNIQUE column *)
  end.

(** [INSERT INTO suppliers(name, contact_name, phone, email, address, city,
    state, country) VALUES (?,?,?,?,?,?,?,?)] *)
Definition insert_suppliers (now : timestamp) (name : string)
           (contact phone email address city state country : option string)
           (m : main_db) : result main_db :=
  if existsb (fun s => opt_eqb (s_email s) email) (suppliers m)
  then Err IntegrityError else
  id <- next_rowid (map s_supplier_id (suppliers m)) ;;
  Ok (set_suppliers
        (suppliers m ++
           [mkSupplier id name contact phone email address city state country
                       1 (date now)]) m).

(** The row part of [INSERT INTO products(name, sku, unit_price)
    VALUES (?,?,?)]: [unit_price REAL NOT NULL CHECK(unit_price >= 0)]. *)
Definition insert_products (now : timestamp) (name : string) (sku : option string)
           (price : real) (m : main_db) : result (product * main_db) :=
  match bind_real price with
  | None => Err IntegrityError
  | Some v =>
      let up := store_real v in
      if real_ge0 up then
        id <- next_rowid (map p_product_id (products m)) ;;
        let p := mkProduct id name sku up 1 (date now) in
        Ok (p, set_products (products m ++ [p]) m)
      else Err IntegrityError
  end.

(** [trg_products_audit], [AFTER INSERT ON products]: runs inside the
    inserting statement, on the row [NEW].  [fault] is a storage failure of
    the audit insert. *)
Definition trg_products_audit (fault : bool) (now : timestamp) (new : product)
           (m : main_db) : result main_db :=
  if fault then Err OperationalError else
  t <- autoinc_insert pa_audit_id
         (fun id => mkProductAudit id (p_product_id new) (p_name new) (p_sku new)
                                   (p_unit_price new) now)
         (products_audit m) ;;
  Ok (set_products_audit t m).

(** The statement as SQLite runs it: the row insert, then the trigger; a
    failure of either undoes the statement. *)
Definition exec_insert_products (fault : bool) (now : timestamp) (name : string)
           (sku : option string) (price : real) (m : main_db) : result main_db :=
  pm <- insert_products now name sku price m ;;
  trg_products_audit fault now (fst pm) (snd pm).

Definition status_ok (st : string) : bool :=
  existsb (String.eqb st) ["DRAFT"; "PLACED"; "RECEIVED"; "CANCELLED"].

(** [INSERT INTO purchase_orders(supplier_id, status, notes)]; returns
    [last_insert_rowid()]. *)
Definition insert_purchase_orders (now : timestamp) (supplier_id : Z)
           (st : string) (notes : option string) (m : main_db)
  : result (Z * main_db) :=
  if negb (existsb (fun s => s_supplier_id s =? supplier_id) (suppliers m))
  then Err IntegrityError else
  if negb (status_ok st) then Err IntegrityError else
  id <- next_rowid (map po_order_id (purchase_orders m)) ;;
  Ok (id, set_purchase_orders
            (purchase_orders m ++ [mkOrder id supplier_id (date now) st notes]) m).

(** The row part of [INSERT INTO purchase_order_items(order_id, description,
    quantity, unit_price) VALUES (?,?,?,?)]; [product_id] is left NULL. *)
Definition insert_purchase_order_items (order_id : Z) (desc : string)
           (qty price : real) (m : main_db) : result (order_item * main_db) :=
  if negb (existsb (fun o => po_order_id o =? order_id) (purchase_orders m))
  then Err IntegrityError else
  match bind_real qty, bind_real price with
  | Some vq, Some v =>
      let q := store_real vq in
      let up := store_real v in
      if real_gt0 q && real_ge0 up then
        id <- next_rowid (map oi_item_id (purchase_order_items m)) ;;
        let it := mkItem id order_id None desc q up in
        Ok (it, set_purchase_order_items (purchase_order_items m ++ [it]) m)
      else Err IntegrityError
  | _, _ => Err IntegrityError
  end.

(** [trg_order_items_audit], [AFTER INSERT ON purchase_order_items]. *)
Definition trg_order_items_audit (fault : bool) (now : timestamp) (new : order_item)
           (m : main_db) : result main_db :=
  if fault then Err OperationalError else
  t <- autoinc_insert oia_audit_id
         (fun id => mkItemAudit id (oi_item_id new) (oi_order_id new)
                                (oi_product_id new) (oi_description new)
                                (oi_quantity new) (oi_unit_price new) now)
         (order_items_audit m) ;;
  Ok (set_order_items_audit t m).

Definition exec_insert_purchase_order_items (fault : bool) (now : timestamp)
           (order_id : Z) (desc : string) (qty price : real) (m : main_db)
  : result main_db :=
  im <- insert_purchase_order_items order_id desc qty price m ;;
  trg_order_items_audit fault now (fst im) (snd im).

(** [conn.executemany(sql, params)]: one execution per parameter tuple,
    [i] numbering the statements of the request. *)
Fixpoint executemany {P : Type} (stmt : nat -> P -> main_db -> result main_db)
         (i : nat) (params : list P) (m : main_db) : result main_db :=
  match params with
  | [] => Ok m
  | p :: ps => m' <- stmt i p m ;; executemany stmt (S i) ps m'
  end.

(* ================================================================= *)
(** ** Requests *)

(** The environment of one request: clock readings and storage failures of
    its entity statements (numbered from 0), and of each replication pass
    it runs. *)
Record env := mkEnv {
  clock : nat -> timestamp;
  audit_fails : nat -> bool;
  product_faults : faults;
  product_clock : nat -> timestamp;
  item_faults : faults;
  item_clock : nat -> timestamp
}.

(** [dashboard], as far as it writes. *)
Definition dashboard (e : env) (s : system) : system * outcome :=
  and_then (replicate_product_to_backup (product_faults e) (product_clock e) s)
           (replicate_order_item_to_backup (item_faults e) (item_clock e)).

Definition add_supplier (e : env) (name : string)
           (contact phone email address city state : option string)
           (country : string) (s : system) : system * outcome :=
  match insert_suppliers (clock e 0) name contact phone email address city state
                         (Some country) (main s) with
  | Err err => (s, Raised err)
  | Ok m => (mkSystem m (backup s), Returned)
  end.

(** [UPDATE suppliers SET is_active = 0 WHERE supplier_id=?] *)
Definition supplier_deactivate (supplier_id : Z) (s : system) : system * outcome :=
  let upd r :=
    if s_supplier_id r =? supplier_id
    then mkSupplier (s_supplier_id r) (s_name r) (s_contact_name r) (s_phone r)
                    (s_email r) (s_address r) (s_city r) (s_state r)
                    (s_country r) 0 (s_created_at r)
    else r in
  (mkSystem (set_suppliers (map upd (suppliers (main s))) (main s)) (backup s),
   Returned).

Definition add_product (e : env) (name sku : string) (price : real) (s : system)
  : system * outcome :=
  match exec_insert_products (audit_fails e 0) (clock e 0) name (Some sku) price
                             (main s) with
  | Err err => (s, Raised err)
  | Ok m =>   (* conn.commit() *)
      replicate_product_to_backup (product_faults e) (product_clock e)
                                  (mkSystem m (backup s))
  end.

Definition add_order (e : env) (supplier_id : Z) (notes : option string)
           (s : system) : system * outcome :=
  match insert_purchase_orders (clock e 0) supplier_id "DRAFT" notes (main s) with
  | Err err => (s, Raised err)
  | Ok (_, m) => (mkSystem m (backup s), Returned)
  end.

Definition add_item (e : env) (oid : Z) (desc : string) (qty price : real)
           (s : system) : system * outcome :=
  match exec_insert_purchase_order_items (audit_fails e 0) (clock e 0) oid desc
                                         qty price (main s) with
  | Err err => (s, Raised err)
  | Ok m =>   (* conn.commit() *)
      replicate_order_item_to_backup (item_faults e) (item_clock e)
                                     (mkSystem m (backup s))
  end.

(* ================================================================= *)
(** ** [seed_demo] *)

(** [DELETE FROM purchase_order_items;] *)
Definition delete_purchase_order_items (m : main_db) : main_db :=
  set_purchase_order_items [] m.

(** [DELETE FROM purchase_orders;] with [ON DELETE CASCADE] on the items. *)
Definition delete_purchase_orders (m : main_db) : main_db :=
  set_purchase_orders []
    (set_purchase_order_items
       (filter (fun i => negb (existsb (fun o => po_order_id o =? oi_order_id i)
                                       (purchase_orders m)))
               (purchase_order_items m)) m).

(** [DELETE FROM products;]: refused while an item references a product. *)
Definition delete_products (m : main_db) : result main_db :=
  if existsb (fun i => match oi_product_id i with
                       | Some pid => existsb (fun p => p_product_id p =? pid) (products m)
                       | None => false
                       end) (purchase_order_items m)
  then Err IntegrityError else Ok (set_products [] m).

(** [DELETE FROM suppliers;]: [ON DELETE RESTRICT] from the orders. *)
Definition delete_suppliers (m : main_db) : result main_db :=
  if existsb (fun o => existsb (fun s => s_supplier_id s =? po_supplier_id o)
                               (suppliers m)) (purchase_orders m)
  then Err IntegrityError else Ok (set_suppliers [] m).

(** The eight [DELETE] statements at the head of [seed_demo]. *)
Definition wipe (m : main_db) : result main_db :=
  m1 <- delete_products (delete_purchase_orders (delete_purchase_order_items m)) ;;
  m2 <- delete_suppliers m1 ;;
  Ok (set_order_items_backup_ids []
        (set_products_backup_ids []
           (set_order_items_audit (autoinc_delete_all (order_items_audit m2))
              (set_products_audit (autoinc_delete_all (products_audit m2)) m2)))).

Definition suppliers_demo
  : list (string * string * string * string * string * string * string * string) :=
  [ ("Alpha Tech Suppliers", "Kiran Kumar", "9876543210",
     "alpha.tech.suppliers@gmail.com",
     "23 Electronics Street, Industrial Layout", "Bengaluru", "KA", "India");
    ("Southern Electronics", "Priya R", "9753186420",
     "contact@southern-electro.in",
     "48 Anna Salai, Opp Metro Pillar 12", "Chennai", "TN", "India");
    ("Kerala Industrial Co.", "Anand Pillai", "8899001122",
     "info@kico.co.in",
     "12/88 MG Road, Marine Drive", "Kochi", "KL", "India") ].

Definition products_demo : list (string * string * real) :=
  [ ("3-Pin Power Cable", "PC-3PIN-IND", real_of_pos 160);
    ("Industrial Soldering Iron 40W", "SLD-IRON-40W", real_of_pos 680);
    ("Raspberry Pi 4B (4GB RAM)", "RPI4-4GB", real_of_pos 5200);
    ("12V SMPS Adapter", "SMPS-12V-2A", real_of_pos 450);
    ("CCTV Camera 2MP HD", "CCTV-2MP-HD", real_of_pos 1790) ].

Definition order_items_demo (order_id : Z) : list (Z * string * real * real) :=
  [ (order_id, "Raspberry Pi 4B (4GB RAM)", real_of_pos 3, real_of_pos 5200);
    (order_id, "CCTV Camera 2MP HD", real_of_pos 5, real_of_pos 1790);
    (order_id, "3-Pin Power Cable", real_of_pos 10, real_of_pos 160) ].

(** The inserts of [seed_demo] between its two [conn.commit()]: statements
    0-2 the suppliers, 3-7 the products, 8 the order, 9-11 its items. *)
Definition seed_inserts (e : env) (m : main_db) : result main_db :=
  m1 <- executemany
          (fun i '(name, contact, phone, email, address, city, state, country) m =>
             insert_suppliers (clock e i) name (Some contact) (Some phone)
                              (Some email) (Some address) (Some city)
                              (Some state) (Some country) m)
          0 suppliers_demo m ;;
  m2 <- executemany
          (fun i '(name, sku, price) m =>
             exec_insert_products (audit_fails e i) (clock e i) name (Some sku)
                                  price m)
          3 products_demo m1 ;;
  om <- insert_purchase_orders (clock e 8) 1 "PLACED"
                               (Some "Urgent requirement for IoT Lab.") m2 ;;
  executemany
    (fun i '(order_id, desc, qty, price) m =>
       exec_insert_purchase_order_items (audit_fails e i) (clock e i) order_id
                                        desc qty price m)
    9 (order_items_demo (fst om)) (snd om).

Definition seed_demo (e : env) (s : system) : system * outcome :=
  match wipe (main s) with
  | Err err => (s, Raised err)
  | Ok m0 =>   (* conn.commit() *)
      match seed_inserts e m0 with
      | Err err => (mkSystem m0 (backup s), Raised err)
      | Ok m1 =>   (* conn.commit() *)
          and_then
            (replicate_product_to_backup (product_faults e) (product_clock e)
                                         (mkSystem m1 (backup s)))
            (replicate_order_item_to_backup (item_faults e) (item_clock e))
      end
  end.

(* ================================================================= *)
(** ** [backup_viewer] *)

Fixpoint insert_desc {R : Type} (key : R -> Z) (x : R) (l : list R) : list R :=
  match l with
  | [] => [x]
  | y :: l' => if key y <=? key x then x :: l else y :: insert_desc key x l'
  end.

(** [ORDER BY key DESC] *)
Definition order_by_desc {R : Type} (key : R -> Z) (l : list R) : list R :=
  fold_right (insert_desc key) [] l.

(** The two listings handed to [backup.html]. *)
Definition backup_viewer (b : backup_db)
  : list product_backup * list order_item_backup :=
  (order_by_desc pb_backup_id (rows (products_backup b)),
   order_by_desc oib_backup_id (rows (order_items_backup b))).

(* ================================================================= *)
(** ** The application as a transition system *)

Inductive request :=
| Dashboard
| AddSupplier (name : string)
              (contact phone email address city state : option string)
              (country : string)
| SupplierDeactivate (supplier_id : Z)
| AddProduct (name sku : string) (price : real)
| AddOrder (supplier_id : Z) (notes : option string)
| AddItem (oid : Z) (desc : string) (qty price : real)
| SeedDemo.

Definition handle (e : env) (r : request) (s : system) : system * outcome :=
  match r with
  | Dashboard => dashboard e s
  | AddSupplier name contact phone email address city state country =>
      add_supplier e name contact phone email address city state country s
  | SupplierDeactivate id => supplier_deactivate id s
  | AddProduct name sku price => add_product e name sku price s
  | AddOrder supplier_id notes => add_order e supplier_id notes s
  | AddItem oid desc qty price => add_item e oid desc qty price s
  | SeedDemo => seed_demo e s
  end.

(** The durable state after a sequence of requests.  A request that raised
    or was stopped leaves what it had committed; the next one starts from
    there. *)
Fixpoint run (tr : list (env * request)) (s : system) : system :=
  match tr with
  | [] => s
  | (e, r) :: tr' => run tr' (fst (handle e r s))
  end.

(** An environment without failures, every clock reading [now]. *)
Definition quiet (now : timestamp) : env :=
  mkEnv (fun _ => now) (fun _ => false) no_faults (fun _ => now)
        no_faults (fun _ => now).

(* ================================================================= *)
(** ** Properties of states and requests *)

(** The ledger and the backup table of a kind correspond: entry by entry,
    the i-th ledgered [audit_id] is the id of an audit row whose snapshot
    the i-th backup row holds. *)
Definition ledger_matches {A B F : Type} (audit_id : A -> Z)
           (afields : A -> F) (bfields : B -> F)
           (audit : list A) (ledger : list Z) (bk : list B) : Prop :=
  Forall2 (fun id b => exists a, In a audit /\ audit_id a = id /\ afields a = bfields b)
          ledger bk.






Definition product_snapshot (p : product) : product_fields :=
  (p_product_id p, p_name p, p_sku p, p_unit_price p).
Definition item_snapshot (i : order_item) : item_fields :=
  (oi_item_id i, oi_order_id i, oi_product_id i, oi_description i,
   oi_quantity i, oi_unit_price i).

(** A request that inserts no row into a tracked table. *)
Definition inserts_no_entity (r : request) : bool :=
  match r with
  | AddProduct _ _ _ | AddItem _ _ _ _ | SeedDemo => false
  | _ => true
  end.

(** A request that calls no replication routine. *)
Definition runs_no_replication (r : request) : bool :=
  match r with
  | AddSupplier _ _ _ _ _ _ _ _ | SupplierDeactivate _ | AddOrder _ _ => true
  | _ => false
  end.

(** The tables of the primary store a replication routine has no business
    with. *)
Definition entities_unchanged (m m' : main_db) : Prop :=
  suppliers m' = suppliers m /\
  products m' = products m /\
  purchase_orders m' = purchase_orders m /\
  purchase_order_items m' = purchase_order_items m /\
  products_audit m' = products_audit m /\
  order_items_audit m' = order_items_audit m.

(** Sample executions. *)
Definition cable : request :=
  AddProduct "3-Pin Power Cable" "PC-3PIN-IND" (real_of_pos 160).

(** 9.99 as a binary64. *)
Definition widget_price : real := S754_finite false 5623870034678907 (-49).

Definition widget : request := AddProduct "Widget" "W-1" widget_price.


Definition seed_then_cable : list (env * request) :=
  [(quiet 100, SeedDemo); (quiet 150, cable)].

(** The process stops in [replicate_product_to_backup] between
    [conn.commit()] and [bconn.commit()]. *)
Definition stopped_between_commits (now : timestamp) : env :=
  mkEnv (fun _ => now) (fun _ => false)
        (mkFaults false (fun _ => false) (fun _ => false) (Some BetweenCommits))
        (fun _ => now) no_faults (fun _ => now).


(** The backup store refuses the first write of the product pass. *)
Definition backup_down (now : timestamp) : env :=
  mkEnv (fun _ => now) (fun _ => false)
        (mkFaults false (fun i => Nat.eqb i 0) (fun _ => false) None)
        (fun _ => now) no_faults (fun _ => now).

(** The audit insert of the trigger fails. *)
Definition audit_down (now : timestamp) : env :=
  mkEnv (fun _ => now) (fun _ => true) no_faults (fun _ => now)
        no_faults (fun _ => now).

(** The backup store refuses the first write of the order-item pass. *)
Definition item_backup_down (now : timestamp) : env :=
  mkEnv (fun _ => now) (fun _ => false) no_faults (fun _ => now)
        (mkFaults false (fun i => Nat.eqb i 0) (fun _ => false) None)
        (fun _ => now).

(** One product captured and not replicated: [add_product] whose pass was
    refused by the backup store. *)
Definition product_pending : system := run [(backup_down 100, widget)] initial.

Definition bolt_order : list (env * request) :=
  [(quiet 100, AddSupplier "Acme" None None None None None None "India");
   (quiet 100, AddOrder 1 None)].

(** One order item captured and not replicated. *)
Definition item_pending : system :=
  run (bolt_order ++
       [(item_backup_down 100, AddItem 1 "Bolt" (real_of_pos 2) (real_of_pos 5))])
      initial.


(** [l'] is [l] with rows added at the end: nothing deleted, nothing
    updated. *)
Definition grows {X : Type} (l l' : list X) : Prop := exists more, l' = l ++ more.

(** Neither ledger table is touched. *)
Definition ledgers_unchanged (m m' : main_db) : Prop :=
  products_backup_ids m' = products_backup_ids m /\
  order_items_backup_ids m' = order_items_backup_ids m.

(** Nothing but [suppliers] and [purchase_orders] differs. *)
Definition tracked_unchanged (m m' : main_db) : Prop :=
  products m' = products m /\
  purchase_order_items m' = purchase_order_items m /\
  products_audit m' = products_audit m /\
  order_items_audit m' = order_items_audit m /\
  ledgers_unchanged m m'.

(** [m'] is [m] after one captured insert into [products]: the row [p] and
    its audit row [a], and nothing else. *)
Definition product_captured (now : timestamp) (p : product) (a : product_audit)
           (m m' : main_db) : Prop :=
  products m' = products m ++ [p] /\
  rows (products_audit m') = rows (products_audit m) ++ [a] /\
  pa_fields a = product_snapshot p /\
  pa_audit_time a = now /\
  suppliers m' = suppliers m /\
  purchase_orders m' = purchase_orders m /\
  purchase_order_items m' = purchase_order_items m /\
  order_items_audit m' = order_items_audit m /\
  ledgers_unchanged m m'.

Definition order_item_captured (now : timestamp) (i : order_item)
           (a : order_item_audit) (m m' : main_db) : Prop :=
  purchase_order_items m' = purchase_order_items m ++ [i] /\
  rows (order_items_audit m') = rows (order_items_audit m) ++ [a] /\
  oia_fields a = item_snapshot i /\
  oia_audit_time a = now /\
  suppliers m' = suppliers m /\
  products m' = products m /\
  purchase_orders m' = purchase_orders m /\
  products_audit m' = products_audit m /\
  ledgers_unchanged m m'.

(** The audit tables mirror the tracked tables: row by row, one audit row
    per row of [products] (of [purchase_order_items]), with its snapshot. *)
Definition audit_mirrors (m : main_db) : Prop :=
  map pa_fields (rows (products_audit m)) = map product_snapshot (products m) /\
  map oia_fields (rows (order_items_audit m)) =
  map item_snapshot (purchase_order_items m).

(** What the eight [DELETE] statements of [seed_demo] leave. *)
Definition wiped (m : main_db) : main_db :=
  mkMain [] [] [] []
         (autoinc_delete_all (products_audit m))
         (autoinc_delete_all (order_items_audit m)) [] [].

(** The wall clock stepped back between two requests. *)
Definition clock_stepped_back : list (env * request) :=
  [(quiet 100, cable); (quiet 50, widget)].

(** [l] is in descending order of [key]. *)
Definition descending {R : Type} (key : R -> Z) (l : list R) : Prop :=
  StronglySorted (fun x y => key y <= key x) l.

(** [l] is in strictly ascending order of [key]. *)
Definition ascending {R : Type} (key : R -> Z) (l : list R) : Prop :=
  StronglySorted (fun x y => key x < key y) l.

(** The rows of [l] carry times that never decrease along [l] and are at
    most [c]. *)
Definition not_after {R : Type} (time : R -> Z) (c : Z) (l : list R) : Prop :=
  StronglySorted (fun x y => time x <= time y) l /\ Forall (fun x => time x <= c) l.

(** The readings of a clock during a request: between [lo] and [hi], never
    decreasing. *)
Definition steady (lo hi : timestamp) (clk : nat -> timestamp) : Prop :=
  (forall j k, (j <= k)%nat -> clk j <= clk k) /\ forall j, lo <= clk j <= hi.

(** Over a sequence of requests the wall clock never steps back. *)
Fixpoint clock_never_steps_back (lo : timestamp) (tr : list (env * request)) : Prop :=
  match tr with
  | [] => True
  | (e, _) :: tr' =>
      exists hi, steady lo hi (product_clock e) /\ steady lo hi (item_clock e) /\
                 clock_never_steps_back hi tr'
  end.

Definition backup_ids_ascending (b : backup_db) : Prop :=
  ascending pb_backup_id (rows (products_backup b)) /\
  ascending oib_backup_id (rows (order_items_backup b)).

Definition backup_not_after (c : timestamp) (b : backup_db) : Prop :=
  not_after pb_backed_up_at c (rows (products_backup b)) /\
  not_after oib_backed_up_at c (rows (order_items_backup b)).

(** Two products, the clock moving on. *)
Definition clock_steady : list (env * request) :=
  [(quiet 100, cable); (quiet 200, widget)].

(* ================================================================= *)
(** ** The pages that read *)

(** [suppliers]: [SELECT * FROM suppliers ORDER BY supplier_id DESC]. *)
Definition suppliers_page (m : main_db) : list supplier :=
  order_by_desc s_supplier_id (suppliers m).

(** [products]: [SELECT * FROM products ORDER BY product_id DESC]. *)
Definition products_page (m : main_db) : list product :=
  order_by_desc p_product_id (products m).


(** The three counts of [dashboard]. *)
Definition dashboard_counts (m : main_db) : nat * nat * nat :=
  (List.length (suppliers m), List.length (products m),
   List.length (purchase_orders m)).

(** The value of a numeric SQL expression. *)
Inductive number :=
| NInt (z : Z)
| NReal (x : real).

(** [IFNULL(x, 0)] *)
Definition ifnull0 (x : option real) : number :=
  match x with
  | Some v => NReal v
  | None => NInt 0
  end.

Definition items_of (oid : Z) (m : main_db) : list order_item :=
  filter (fun i => oi_order_id i =? oid) (purchase_order_items m).

Record order_row := mkOrderRow {
  or_order_id : Z;
  or_order_date : timestamp;
  or_status : string;
  or_supplier : string;
  or_total : number
}.

Record item_line := mkItemLine {
  il_description : string;
  il_quantity : real;
  il_unit_price : real;
  il_total : option real
}.

Section Totals.
(** The binary64 arithmetic of SQLite is taken as given:
    [sum_line_totals] is [SUM(poi.quantity * poi.unit_price)] over the items
    of one order (there is at least one), [line_total] is
    [quantity * unit_price] of one row; both can be NULL. *)
Variable sum_line_totals : list order_item -> option real.
Variable line_total : real -> real -> option real.

(** The view [v_order_totals]: one row per order ([order_id] is the primary
    key of the grouped table); an order without items is joined to one
    all-NULL row, whose sum is NULL. *)
Definition v_order_totals (m : main_db) : list (Z * option real) :=
  map (fun po =>
         (po_order_id po,
          match items_of (po_order_id po) m with
          | [] => None
          | its => sum_line_totals its
          end))
      (purchase_orders m).

(** [FROM purchase_orders po JOIN suppliers s ON s.supplier_id =
    po.supplier_id LEFT JOIN v_order_totals v ON v.order_id = po.order_id],
    each joined row handed to [row]. *)
Definition orders_joined {T : Type}
           (row : purchase_order -> supplier -> number -> T) (m : main_db) : list T :=
  flat_map
    (fun po =>
       flat_map
         (fun s =>
            if s_supplier_id s =? po_supplier_id po then
              match filter (fun v => fst v =? po_order_id po) (v_order_totals m) with
              | [] => [row po s (ifnull0 None)]
              | vs => map (fun v => row po s (ifnull0 (snd v))) vs
              end
            else [])
         (suppliers m))
    (purchase_orders m).

(** [orders]: the joined rows, [ORDER BY po.order_id DESC]. *)
Definition orders (m : main_db) : list order_row :=
  order_by_desc or_order_id
    (orders_joined
       (fun po s total =>
          mkOrderRow (po_order_id po) (po_order_date po) (po_status po) (s_name s)
                     total) m).

(** [order_detail]: the head row ([fetchone()] of the join restricted to
    [po.order_id = ?]) and the lines of the order. *)
Definition order_detail (oid : Z) (m : main_db)
  : option (purchase_order * string * number) * list item_line :=
  (hd_error
     (filter (fun r => po_order_id (fst (fst r)) =? oid)
             (orders_joined (fun po s total => (po, s_name s, total)) m)),
   map (fun i => mkItemLine (oi_description i) (oi_quantity i) (oi_unit_price i)
                            (line_total (oi_quantity i) (oi_unit_price i)))
       (items_of oid m)).
End Totals.

(* ================================================================= *)
(** ** Constraints of the schema, as properties of a state *)

(** Rowids in ascending table order, all positive. *)
Definition positive_keys {R : Type} (key : R -> Z) (l : list R) : Prop :=
  ascending key l /\ Forall (fun x => 0 < key x) l.

(** [PRIMARY KEY] of the four business tables. *)
Definition primary_keys (m : main_db) : Prop :=
  positive_keys s_supplier_id (suppliers m) /\
  positive_keys p_product_id (products m) /\
  positive_keys po_order_id (purchase_orders m) /\
  positive_keys oi_item_id (purchase_order_items m).

(** An AUTOINCREMENT table: ids ascending, positive, and none above the
    counter of [sqlite_sequence]. *)
Definition autoinc_keys {R : Type} (rowid : R -> Z) (t : autoinc R) : Prop :=
  ascending rowid (rows t) /\ Forall (fun x => 0 < rowid x <= seq t) (rows t) /\
  0 <= seq t.

Definition audit_keys (m : main_db) : Prop :=
  autoinc_keys pa_audit_id (products_audit m) /\
  autoinc_keys oia_audit_id (order_items_audit m).

(** [REFERENCES]: every order has its supplier, every item its order; no
    item names a product. *)
Definition foreign_keys (m : main_db) : Prop :=
  (forall o, In o (purchase_orders m) ->
             exists s, In s (suppliers m) /\ s_supplier_id s = po_supplier_id o) /\
  (forall i, In i (purchase_order_items m) ->
             (exists o, In o (purchase_orders m) /\ po_order_id o = oi_order_id i) /\
             oi_product_id i = None).

(** [CHECK] and [NOT NULL] of the four business tables. *)
Definition check_constraints (m : main_db) : Prop :=
  Forall (fun s => s_is_active s = 0 \/ s_is_active s = 1) (suppliers m) /\
  Forall (fun p => real_ge0 (p_unit_price p) = true /\ p_is_active p = 1)
         (products m) /\
  Forall (fun o => status_ok (po_status o) = true) (purchase_orders m) /\
  Forall (fun i => real_gt0 (oi_quantity i) = true /\
                   real_ge0 (oi_unit_price i) = true)
         (purchase_order_items m).

(** The non-NULL emails of a supplier table. *)
Definition emails (l : list supplier) : list string :=
  flat_map (fun s => match s_email s with Some e => [e] | None => [] end) l.

(** [email TEXT UNIQUE] *)
Definition unique_emails (m : main_db) : Prop := NoDup (emails (suppliers m)).

(** A ledger: no id twice, every id that of a row of the audit table. *)
Definition ledger_of {A : Type} (audit_id : A -> Z) (audit : list A)
           (ledger : list Z) : Prop :=
  NoDup ledger /\
  forall id, In id ledger -> exists a, In a audit /\ audit_id a = id.

Definition ledgers_of_audit (m : main_db) : Prop :=
  ledger_of pa_audit_id (rows (products_audit m)) (products_backup_ids m) /\
  ledger_of oia_audit_id (rows (order_items_audit m)) (order_items_backup_ids m).

(** There is room for [n] more rows in an AUTOINCREMENT table. *)
Definition room {R : Type} (rowid : R -> Z) (t : autoinc R) (n : nat) : Prop :=
  Z.max (seq t) (largest (map rowid (rows t))) + Z.of_nat n <= max_rowid.

(** An environment without failures, whatever the clocks read. *)
Definition fault_free (e : env) : Prop :=
  (forall i, audit_fails e i = false) /\
  product_faults e = no_faults /\ item_faults e = no_faults.


(** The state with the supplier table replaced. *)
Definition with_suppliers (l : list supplier) (s : system) : system :=
  mkSystem (set_suppliers l (main s)) (backup s).

(** A request that neither reads nor writes the supplier table beyond its
    ids: the replication of [dashboard] and the three inserts other than
    [add_supplier]. *)
Definition ignores_is_active (r : request) : bool :=
  match r with
  | Dashboard | AddProduct _ _ _ | AddOrder _ _ | AddItem _ _ _ _ => true
  | _ => false
  end.

(** The row [supplier_deactivate] writes in place of [r]. *)
Definition deactivate_row (id : Z) (r : supplier) : supplier :=
  if s_supplier_id r =? id
  then mkSupplier (s_supplier_id r) (s_name r) (s_contact_name r) (s_phone r)
                  (s_email r) (s_address r) (s_city r) (s_state r)
                  (s_country r) 0 (s_created_at r)
  else r.

(** Keys of the four AUTOINCREMENT tables and the two ledgers. *)
Definition replication_keys (s : system) : Prop :=
  audit_keys (main s) /\ ledgers_of_audit (main s) /\
  autoinc_keys pb_backup_id (products_backup (backup s)) /\
  autoinc_keys oib_backup_id (order_items_backup (backup s)).

(** Nothing was taken from the tables of [m] to get those of [m']: rows of
    [products], [purchase_orders], [purchase_order_items] and of the audit
    tables are in place unchanged, suppliers are in place with their ids. *)
Definition nothing_deleted (m m' : main_db) : Prop :=
  grows (map s_supplier_id (suppliers m)) (map s_supplier_id (suppliers m')) /\
  grows (products m) (products m') /\
  grows (purchase_orders m) (purchase_orders m') /\
  grows (purchase_order_items m) (purchase_order_items m') /\
  grows (rows (products_audit m)) (rows (products_audit m')) /\
  grows (rows (order_items_audit m)) (rows (order_items_audit m')).

(** The total the orders pages show for order [oid], given the sum of line
    totals: the integer 0 for an order without items (or a NULL sum). *)
Definition order_total_of (sum : list order_item -> option real) (m : main_db)
           (oid : Z) : number :=
  match items_of oid m with
  | [] => NInt 0
  | its => ifnull0 (sum its)
  end.

(** [r] is the row of the orders page for [po]. *)
Definition order_row_of (sum : list order_item -> option real) (m : main_db)
           (r : order_row) (po : purchase_order) : Prop :=
  or_order_id r = po_order_id po /\
  or_order_date r = po_order_date po /\
  or_status r = po_status po /\
  or_total r = order_total_of sum m (po_order_id po) /\
  exists s, In s (suppliers m) /\ s_supplier_id s = po_supplier_id po /\
            or_supplier r = s_name s.

(** The elements of [l] with their positions, from 0. *)
Definition enumerate {X : Type} (l : list X) : list (nat * X) :=
  combine (List.seq 0 (List.length l)) l.

(** The snapshot fields of the products and of the order items of
    [seed_demo], with the ids they get in emptied tables. *)
Definition demo_product_fields : list product_fields :=
  map (fun '(i, (name, sku, price)) => (Z.of_nat i + 1, name, Some sku, price))
      (enumerate products_demo).

Definition demo_item_fields : list item_fields :=
  map (fun '(i, (order_id, desc, qty, price)) =>
         (Z.of_nat i + 1, order_id, None, desc, qty, price))
      (enumerate (order_items_demo 1)).

(** The ids an AUTOINCREMENT table whose counter is at [c] hands out to the
    next [n] rows. *)
Definition next_ids (c : Z) (n : nat) : list Z :=
  map (fun i => c + Z.of_nat i + 1) (List.seq 0 n).

(** The main database as the inserts of [seed_demo] leave it, before
    replication, when the audit counters stood at [cp] and [ci]. *)
Definition seeded (e : env) (cp ci : Z) : main_db :=
  mkMain
    (map (fun '(i, (name, contact, phone, email, address, city, state, country)) =>
            mkSupplier (Z.of_nat i + 1) name (Some contact) (Some phone) (Some email)
                       (Some address) (Some city) (Some state) (Some country)
                       1 (date (clock e i)))
         (enumerate suppliers_demo))
    (map (fun '(i, (name, sku, price)) =>
            mkProduct (Z.of_nat i + 1) name (Some sku) price 1
                      (date (clock e (3 + i))))
         (enumerate products_demo))
    [mkOrder 1 1 (date (clock e 8)) "PLACED"
             (Some "Urgent requirement for IoT Lab.")]
    (map (fun '(i, (order_id, desc, qty, price)) =>
            mkItem (Z.of_nat i + 1) order_id None desc qty price)
         (enumerate (order_items_demo 1)))
    (mkAutoinc
       (map (fun '(i, (name, sku, price)) =>
               mkProductAudit (cp + Z.of_nat i + 1) (Z.of_nat i + 1) name (Some sku)
                              price (clock e (3 + i)))
            (enumerate products_demo))
       (cp + 5))
    (mkAutoinc
       (map (fun '(i, (order_id, desc, qty, price)) =>
               mkItemAudit (ci + Z.of_nat i + 1) (Z.of_nat i + 1) order_id None
                           desc qty price (clock e (9 + i)))
            (enumerate (order_items_demo 1)))
       (ci + 3))
    [] [].







(* ================================================================= *)
(** ** Lists *)

Example real_of_pos_160 :
  real_of_pos 160 = S754_finite false 5629499534213120 (-45).
Proof. reflexivity. Qed.

Lemma bind_real_some x y : bind_real x = Some y -> y = x.
Proof. destruct x; simpl; congruence. Qed.

Lemma bind_real_none x : bind_real x = None -> real_ge0 x = false /\ real_gt0 x = false.
Proof. destruct x; simpl; try discriminate. now split. Qed.

(** The sign of a zero decides no [CHECK]. *)
Lemma real_ge0_store x : real_ge0 (store_real x) = real_ge0 x.
Proof. now destruct x as [[|]| | |]. Qed.

Lemma real_gt0_store x : real_gt0 (store_real x) = real_gt0 x.
Proof. now destruct x as [[|]| | |]. Qed.

Lemma real_gt0_stored x : real_gt0 x = true -> store_real x = x.
Proof. now destruct x as [[|]| | |]. Qed.

Lemma store_real_twice x : store_real (store_real x) = store_real x.
Proof. now destruct x as [[|]| | |]. Qed.

Lemma filter_none {X : Type} (p : X -> bool) (l : list X) :
  (forall x, In x l -> p x = false) -> filter p l = [].
Proof.
  induction l as [|x l IH]; intros H; simpl; [reflexivity|].
  rewrite (H x (or_introl eq_refl)). apply IH. intros y Hy. apply H. now right.
Qed.

Lemma existsb_eqb_In (id : Z) (l : list Z) :
  existsb (Z.eqb id) l = true <-> In id l.
Proof.
  rewrite existsb_exists. split.
  - intros (x & Hx & E). apply Z.eqb_eq in E. now subst.
  - intros H. exists id. split; [assumption|apply Z.eqb_refl].
Qed.

Lemma map_eq_In {X Y F : Type} (f : X -> F) (g : Y -> F) (xs : list X) (ys : list Y) :
  map g ys = map f xs -> forall x, In x xs -> exists y, In y ys /\ g y = f x.
Proof.
  intros E x Hx. apply (in_map f) in Hx. rewrite <- E in Hx.
  apply in_map_iff in Hx. destruct Hx as (y & Hy & Hin). now exists y.
Qed.

Lemma NoDup_map_eq {X : Type} (f : X -> Z) (l : list X) :
  NoDup (map f l) -> forall x y, In x l -> In y l -> f x = f y -> x = y.
Proof.
  induction l as [|z l IH]; simpl; intros ND x y Hx Hy E; [contradiction|].
  inversion ND as [|? ? Hnin ND']; subst.
  destruct Hx as [<-|Hx], Hy as [<-|Hy]; auto.
  - exfalso. apply Hnin. rewrite E. now apply in_map.
  - exfalso. apply Hnin. rewrite <- E. now apply in_map.
Qed.

(* ================================================================= *)
(** ** The pass, for either kind *)

Section PassFacts.
Context {A B F : Type}.
Variable audit_id : A -> Z.
Variable backup_id : B -> Z.
Variable copy : A -> timestamp -> Z -> B.
Variable afields : A -> F.
Variable bfields : B -> F.
Hypothesis copy_fields : forall r now id, bfields (copy r now id) = afields r.
Hypothesis copy_id : forall r now id, backup_id (copy r now id) = id.

Local Abbreviation loop := (replicate_rows audit_id backup_id copy).
Local Abbreviation pending := (select_pending audit_id).
Local Abbreviation run_pass := (pass audit_id backup_id copy).

(** What a loop that ran to its end has done. *)
Lemma replicate_rows_ok f clk rs : forall i ledger t ledger' t',
  loop f clk i rs ledger t = Ok (ledger', t') ->
  ledger' = ledger ++ map audit_id rs /\
  exists new, rows t' = rows t ++ new /\ map bfields new = map afields rs.
Proof.
  induction rs as [|r rs IH]; simpl; intros i ledger t ledger' t' H.
  - inversion H; subst. rewrite !app_nil_r. split; [reflexivity|].
    exists []. now rewrite app_nil_r.
  - destruct (backup_write_fails f i); [discriminate|].
    unfold insert_backup, autoinc_insert in H.
    destruct (autoincrement_rowid backup_id t) as [id|e]; simpl in H; [|discriminate].
    destruct (ledger_write_fails f i); [discriminate|].
    unfold insert_backup_id in H.
    destruct (existsb (Z.eqb (audit_id r)) ledger); simpl in H; [discriminate|].
    apply IH in H. destruct H as (-> & new & Hr & Hm). simpl in Hr.
    split; [now rewrite <- app_assoc|].
    exists (copy r (clk i) id :: new). split.
    + now rewrite Hr, <- app_assoc.
    + simpl. now rewrite copy_fields, Hm.
Qed.

(** Once the ids of the pending rows are in the ledger, nothing is
    pending. *)
Lemma select_pending_done audit ledger :
  pending audit (ledger ++ map audit_id (pending audit ledger)) = [].
Proof.
  apply filter_none. intros r Hr. unfold not_backed_up.
  apply negb_false_iff, existsb_eqb_In, in_or_app.
  destruct (existsb (Z.eqb (audit_id r)) ledger) eqn:E.
  - left. now apply existsb_eqb_In.
  - right. apply in_map. apply filter_In. split; [assumption|].
    unfold not_backed_up. now rewrite E.
Qed.

(** A pass leaves old rows in place and adds at the end, however it
    ends. *)
Lemma pass_grows f clk audit ledger t :
  let '(ledger', t', _) := run_pass f clk audit ledger t in
  (exists ids, ledger' = ledger ++ ids) /\
  (exists new, rows t' = rows t ++ new).
Proof.
  unfold pass.
  assert (Hsame : (exists ids : list Z, ledger = ledger ++ ids) /\
                  (exists new : list B, rows t = rows t ++ new)).
  { split; exists []; now rewrite app_nil_r. }
  destruct (read_fails f); [exact Hsame|].
  destruct (loop f clk 0 (pending audit ledger) ledger t)
    as [[ledger' t']|e] eqn:E; [|exact Hsame].
  apply replicate_rows_ok in E. destruct E as (-> & new & Hr & _).
  destruct (halt f) as [[|]|].
  - exact Hsame.
  - split; [eauto|]. exists []. now rewrite app_nil_r.
  - split; eauto.
Qed.

(** With nothing pending a pass writes nothing. *)
Lemma pass_nothing_pending f clk audit ledger t :
  pending audit ledger = [] ->
  fst (run_pass f clk audit ledger t) = (ledger, t).
Proof.
  intros E. unfold pass. rewrite E. simpl.
  destruct (read_fails f); [reflexivity|]. now destruct (halt f) as [[|]|].
Qed.

(** A pass that raised has committed nothing. *)
Lemma pass_raised f clk audit ledger t ledger' t' e :
  run_pass f clk audit ledger t = (ledger', t', Raised e) ->
  ledger' = ledger /\ t' = t.
Proof.
  unfold pass. destruct (read_fails f); [now inversion 1|].
  destruct (loop f clk 0 (pending audit ledger) ledger t)
    as [[l1 t1]|e1]; [|now inversion 1].
  destruct (halt f) as [[|]|]; discriminate.
Qed.

(** A pass that returned, without faults or with: every pending row got
    its backup row and its ledger entry, and nothing is pending. *)
Lemma pass_returned f clk audit ledger t ledger' t' :
  run_pass f clk audit ledger t = (ledger', t', Returned) ->
  ledger' = ledger ++ map audit_id (pending audit ledger) /\
  (exists new, rows t' = rows t ++ new /\
               map bfields new = map afields (pending audit ledger)) /\
  pending audit ledger' = [].
Proof.
  unfold pass. destruct (read_fails f); [discriminate|].
  destruct (loop f clk 0 (pending audit ledger) ledger t)
    as [[l1 t1]|e1] eqn:E; [|discriminate].
  destruct (halt f) as [[|]|]; try discriminate.
  intros H; inversion H; subst.
  apply replicate_rows_ok in E. destruct E as (-> & new & Hr & Hm).
  repeat split; eauto. apply select_pending_done.
Qed.
(** The clock readings of a loop decide the [backed_up_at] it writes and
    nothing else: not the ledger, not the backup ids, not whether and how
    it fails. *)
Lemma replicate_rows_clock f clk1 clk2 rs : forall i ledger t1 t2,
  seq t1 = seq t2 ->
  map backup_id (rows t1) = map backup_id (rows t2) ->
  match loop f clk1 i rs ledger t1, loop f clk2 i rs ledger t2 with
  | Ok (l1, t1'), Ok (l2, t2') =>
      l1 = l2 /\ seq t1' = seq t2' /\
      map backup_id (rows t1') = map backup_id (rows t2')
  | Err e1, Err e2 => e1 = e2
  | _, _ => False
  end.
Proof.
  induction rs as [|r rs IH]; simpl; intros i ledger t1 t2 Hs Hr; [auto|].
  destruct (backup_write_fails f i); [reflexivity|].
  unfold insert_backup, autoinc_insert, autoincrement_rowid.
  rewrite Hs, Hr.
  destruct (Z.max (seq t2) (largest (map backup_id (rows t2))) <? max_rowid);
    simpl; [|reflexivity].
  destruct (ledger_write_fails f i); [reflexivity|].
  unfold insert_backup_id.
  destruct (existsb (Z.eqb (audit_id r)) ledger); simpl; [reflexivity|].
  apply IH; simpl; [reflexivity|].
  now rewrite !map_app, Hr; simpl; rewrite !copy_id.
Qed.

Lemma pass_raised_clock f clk1 clk2 audit ledger t e :
  snd (run_pass f clk1 audit ledger t) = Raised e ->
  run_pass f clk2 audit ledger t = (ledger, t, Raised e).
Proof.
  unfold pass. destruct (read_fails f); [now inversion 1|].
  pose proof (replicate_rows_clock f clk1 clk2 (pending audit ledger) 0 ledger
                                   t t eq_refl eq_refl) as H.
  destruct (loop f clk1 0 (pending audit ledger) ledger t) as [[l1 t1]|e1],
           (loop f clk2 0 (pending audit ledger) ledger t) as [[l2 t2]|e2];
    try contradiction.
  - destruct (halt f) as [[|]|]; discriminate.
  - subst. now inversion 1.
Qed.

(** Without faults a pass either returns or raises. *)
Lemma pass_no_faults_not_halted clk audit ledger t :
  snd (run_pass no_faults clk audit ledger t) <> Halted.
Proof.
  unfold pass; simpl.
  destruct (loop no_faults clk 0 (pending audit ledger) ledger t) as [[l1 t1]|e1];
    discriminate.
Qed.

(** A second pass right after a first one does what the first did and
    nothing more. *)
Lemma pass_twice clk1 clk2 audit ledger t :
  let '(ledger1, t1, o1) := run_pass no_faults clk1 audit ledger t in
  run_pass no_faults clk2 audit ledger1 t1 = (ledger1, t1, o1).
Proof.
  destruct (run_pass no_faults clk1 audit ledger t) as [[l1 t1] o1] eqn:E.
  destruct o1 as [|e|].
  - apply pass_returned in E. destruct E as (_ & _ & Hp).
    unfold pass; simpl. now rewrite Hp.
  - pose proof (pass_raised _ _ _ _ _ _ _ _ E) as [-> ->].
    apply pass_raised_clock with (clk1 := clk1). now rewrite E.
  - exfalso. apply (pass_no_faults_not_halted clk1 audit ledger t). now rewrite E.
Qed.





(** Under the correspondence, with audit ids unique, a returned pass
    leaves every audit row with a backup row holding its snapshot. *)
Lemma pass_covers f clk audit ledger t ledger' t' :
  NoDup (map audit_id audit) ->
  ledger_matches audit_id afields bfields audit ledger (rows t) ->
  run_pass f clk audit ledger t = (ledger', t', Returned) ->
  forall a, In a audit -> exists b, In b (rows t') /\ bfields b = afields a.
Proof.
  intros ND Hm E a Ha. apply pass_returned in E.
  destruct E as (_ & (new & -> & Hf) & _).
  destruct (not_backed_up audit_id ledger a) eqn:Hp.
  - destruct (map_eq_In afields bfields (pending audit ledger) new Hf a) as (b & Hb & Hbf).
    { apply filter_In. now split. }
    exists b. split; [apply in_or_app; now right|assumption].
  - unfold not_backed_up in Hp. apply negb_false_iff, existsb_eqb_In in Hp.
    assert (Hold : exists b, In b (rows t) /\ bfields b = afields a).
    { clear Hf. unfold ledger_matches in Hm. revert Hp.
      induction Hm as [|id b l k (a' & Ha' & Hid & Hfa) _ IH]; simpl; [contradiction|].
      intros [Hd|Hin].
      - exists b. split; [now left|].
        rewrite <- Hfa. f_equal. apply (NoDup_map_eq audit_id audit ND); congruence.
      - destruct (IH Hin) as (b' & Hb' & Hbf). exists b'. split; [now right|assumption]. }
    destruct Hold as (b & Hb & Hbf). exists b. split; [apply in_or_app; now left|assumption].
Qed.
End PassFacts.

(* ================================================================= *)
(** ** The two routines *)

Lemma copy_product_fields r now id : pb_fields (copy_product r now id) = pa_fields r.
Proof. reflexivity. Qed.

Lemma copy_product_id r now id : pb_backup_id (copy_product r now id) = id.
Proof. reflexivity. Qed.

Lemma copy_order_item_fields r now id :
  oib_fields (copy_order_item r now id) = oia_fields r.
Proof. reflexivity. Qed.

Lemma copy_order_item_id r now id : oib_backup_id (copy_order_item r now id) = id.
Proof. reflexivity. Qed.

Lemma replicate_product_unchanged s :
  mkSystem (set_products_backup_ids (products_backup_ids (main s)) (main s))
           (set_products_backup (products_backup (backup s)) (backup s)) = s.
Proof. now destruct s as [[] []]. Qed.

Lemma replicate_order_item_unchanged s :
  mkSystem (set_order_items_backup_ids (order_items_backup_ids (main s)) (main s))
           (set_order_items_backup (order_items_backup (backup s)) (backup s)) = s.
Proof. now destruct s as [[] []]. Qed.

Ltac open_pass :=
  unfold replicate_product_to_backup, replicate_order_item_to_backup,
         pending_products, pending_order_items in *.

Lemma grows_refl {X : Type} (l : list X) : grows l l.
Proof. exists []. now rewrite app_nil_r. Qed.

Lemma grows_trans {X : Type} (l1 l2 l3 : list X) :
  grows l1 l2 -> grows l2 l3 -> grows l1 l3.
Proof. intros [a ->] [b ->]. exists (a ++ b). now rewrite app_assoc. Qed.

Lemma replicate_product_effect f clk s :
  let s' := fst (replicate_product_to_backup f clk s) in
  entities_unchanged (main s) (main s') /\
  order_items_backup_ids (main s') = order_items_backup_ids (main s) /\
  order_items_backup (backup s') = order_items_backup (backup s) /\
  grows (products_backup_ids (main s)) (products_backup_ids (main s')) /\
  grows (rows (products_backup (backup s))) (rows (products_backup (backup s'))) /\
  (pending_products s = [] -> s' = s).
Proof.
  open_pass.
  pose proof (pass_grows pa_audit_id pb_backup_id copy_product pa_fields pb_fields
                copy_product_fields f clk (rows (products_audit (main s)))
                (products_backup_ids (main s)) (products_backup (backup s))) as G.
  pose proof (pass_nothing_pending pa_audit_id pb_backup_id copy_product
                f clk (rows (products_audit (main s)))
                (products_backup_ids (main s)) (products_backup (backup s))) as N.
  destruct (pass pa_audit_id pb_backup_id copy_product f clk _ _ _) as [[l t] o].
  destruct G as [Gl Gt]. simpl in *.
  repeat split; auto.
  intros E. specialize (N E). inversion N; subst.
  apply replicate_product_unchanged.
Qed.

Lemma replicate_order_item_effect f clk s :
  let s' := fst (replicate_order_item_to_backup f clk s) in
  entities_unchanged (main s) (main s') /\
  products_backup_ids (main s') = products_backup_ids (main s) /\
  products_backup (backup s') = products_backup (backup s) /\
  grows (order_items_backup_ids (main s)) (order_items_backup_ids (main s')) /\
  grows (rows (order_items_backup (backup s))) (rows (order_items_backup (backup s'))) /\
  (pending_order_items s = [] -> s' = s).
Proof.
  open_pass.
  pose proof (pass_grows oia_audit_id oib_backup_id copy_order_item oia_fields
                oib_fields copy_order_item_fields f clk
                (rows (order_items_audit (main s)))
                (order_items_backup_ids (main s)) (order_items_backup (backup s))) as G.
  pose proof (pass_nothing_pending oia_audit_id oib_backup_id copy_order_item
                f clk (rows (order_items_audit (main s)))
                (order_items_backup_ids (main s)) (order_items_backup (backup s))) as N.
  destruct (pass oia_audit_id oib_backup_id copy_order_item f clk _ _ _) as [[l t] o].
  destruct G as [Gl Gt]. simpl in *.
  repeat split; auto.
  intros E. specialize (N E). inversion N; subst.
  apply replicate_order_item_unchanged.
Qed.

(** C10.  Frame of a replication pass.  However it ends (returned, raised or
    stopped), [replicate_product_to_backup] leaves the business tables,
    both audit tables and the order-item ledger and backup table as they
    were; in the product ledger and the product backup table (with its
    AUTOINCREMENT counter) the old rows stay in place and new ones come
    after them; with nothing pending the whole state is unchanged.
    Symmetrically for [replicate_order_item_to_backup]. *)
Theorem replication_frame (f : faults) (clk : nat -> timestamp) (s : system) :
  (let s' := fst (replicate_product_to_backup f clk s) in
   entities_unchanged (main s) (main s') /\
   order_items_backup_ids (main s') = order_items_backup_ids (main s) /\
   order_items_backup (backup s') = order_items_backup (backup s) /\
   grows (products_backup_ids (main s)) (products_backup_ids (main s')) /\
   grows (rows (products_backup (backup s))) (rows (products_backup (backup s'))) /\
   (pending_products s = [] -> s' = s)) /\
  (let s' := fst (replicate_order_item_to_backup f clk s) in
   entities_unchanged (main s) (main s') /\
   products_backup_ids (main s') = products_backup_ids (main s) /\
   products_backup (backup s') = products_backup (backup s) /\
   grows (order_items_backup_ids (main s)) (order_items_backup_ids (main s')) /\
   grows (rows (order_items_backup (backup s)))
         (rows (order_items_backup (backup s'))) /\
   (pending_order_items s = [] -> s' = s)).
Proof.
  split; [apply replicate_product_effect|apply replicate_order_item_effect].
Qed.

Lemma replication_frame_witness :
  fst (replicate_product_to_backup no_faults (fun _ => 0) initial) = initial /\
  fst (replicate_order_item_to_backup no_faults (fun _ => 0) product_pending)
  = product_pending.
Proof.
  split.
  - apply (replication_frame no_faults (fun _ => 0) initial). reflexivity.
  - apply (replication_frame no_faults (fun _ => 0) product_pending). reflexivity.
Defined.

(** C2.  Idempotence.  From every state, a second call of a replication
    routine right after a first one ends as the first did and leaves the
    state the first left: it adds no backup row (and no ledger entry),
    whatever the clock reads. *)
Theorem replication_idempotent (clk1 clk2 : nat -> timestamp) (s : system) :
  replicate_product_to_backup no_faults clk2
    (fst (replicate_product_to_backup no_faults clk1 s))
  = replicate_product_to_backup no_faults clk1 s /\
  replicate_order_item_to_backup no_faults clk2
    (fst (replicate_order_item_to_backup no_faults clk1 s))
  = replicate_order_item_to_backup no_faults clk1 s.
Proof.
  split; open_pass.
  - pose proof (pass_twice pa_audit_id pb_backup_id copy_product pa_fields pb_fields
                  copy_product_fields copy_product_id clk1 clk2 (rows (products_audit (main s)))
                  (products_backup_ids (main s)) (products_backup (backup s))) as T.
    destruct (pass pa_audit_id pb_backup_id copy_product no_faults clk1 _ _ _)
      as [[l1 t1] o1].
    destruct s as [[] []]; simpl in *. now rewrite T.
  - pose proof (pass_twice oia_audit_id oib_backup_id copy_order_item oia_fields
                  oib_fields copy_order_item_fields copy_order_item_id clk1 clk2 (rows (order_items_audit (main s)))
                  (order_items_backup_ids (main s))
                  (order_items_backup (backup s))) as T.
    destruct (pass oia_audit_id oib_backup_id copy_order_item no_faults clk1 _ _ _)
      as [[l1 t1] o1].
    destruct s as [[] []]; simpl in *. now rewrite T.
Qed.

(* ================================================================= *)
(** ** Entity statements *)

Lemma insert_suppliers_effect now name c ph em ad ci st co m m' :
  insert_suppliers now name c ph em ad ci st co m = Ok m' ->
  tracked_unchanged m m' /\ purchase_orders m' = purchase_orders m.
Proof.
  unfold insert_suppliers.
  destruct (existsb _ (suppliers m)); [discriminate|].
  destruct (next_rowid _) as [id|]; simpl; [|discriminate].
  intros H; inversion H; subst. now repeat split.
Qed.

Lemma insert_purchase_orders_effect now sid st notes m id m' :
  insert_purchase_orders now sid st notes m = Ok (id, m') ->
  tracked_unchanged m m' /\ suppliers m' = suppliers m.
Proof.
  unfold insert_purchase_orders.
  destruct (negb (existsb _ (suppliers m))); [discriminate|].
  destruct (negb (status_ok st)); [discriminate|].
  destruct (next_rowid _) as [k|]; simpl; [|discriminate].
  intros H; inversion H; subst. now repeat split.
Qed.

(** A statement on [products] that succeeded has inserted one row and,
    through the trigger, one audit row with its snapshot. *)
Lemma exec_insert_products_effect fault now name sku price m m' :
  exec_insert_products fault now name sku price m = Ok m' ->
  exists p a, product_captured now p a m m' /\
              p_name p = name /\ p_sku p = sku /\
              bind_real price <> None /\ p_unit_price p = store_real price.
Proof.
  unfold exec_insert_products, insert_products.
  destruct (bind_real price) as [v|] eqn:Bv; [|discriminate].
  apply bind_real_some in Bv. subst v. cbv zeta.
  destruct (real_ge0 (store_real price)); [|discriminate].
  destruct (next_rowid _) as [id|]; simpl; [|discriminate].
  unfold trg_products_audit. destruct fault; [discriminate|].
  unfold autoinc_insert.
  destruct (autoincrement_rowid _ _) as [k|]; simpl; [|discriminate].
  intros H; inversion H; subst. do 2 eexists. now repeat split.
Qed.

Lemma exec_insert_purchase_order_items_effect fault now oid desc qty price m m' :
  exec_insert_purchase_order_items fault now oid desc qty price m = Ok m' ->
  exists i a, order_item_captured now i a m m' /\
              oi_order_id i = oid /\ oi_description i = desc /\
              bind_real qty <> None /\ oi_quantity i = store_real qty /\
              bind_real price <> None /\ oi_unit_price i = store_real price.
Proof.
  unfold exec_insert_purchase_order_items, insert_purchase_order_items.
  destruct (negb (existsb _ (purchase_orders m))); [discriminate|].
  destruct (bind_real qty) as [vq|] eqn:Bq; [|discriminate].
  apply bind_real_some in Bq. subst vq.
  destruct (bind_real price) as [v|] eqn:Bv; [|discriminate].
  apply bind_real_some in Bv. subst v. cbv zeta.
  destruct (real_gt0 (store_real qty) && real_ge0 (store_real price)); [|discriminate].
  destruct (next_rowid _) as [id|]; simpl; [|discriminate].
  unfold trg_order_items_audit. destruct fault; [discriminate|].
  unfold autoinc_insert.
  destruct (autoincrement_rowid _ _) as [k|]; simpl; [|discriminate].
  intros H; inversion H; subst. do 2 eexists. now repeat split.
Qed.

(** When the trigger fails, the statement fails: the inserted row is not
    kept. *)
Lemma trigger_failure_aborts_products fault now name sku price m p m1 e :
  insert_products now name sku price m = Ok (p, m1) ->
  trg_products_audit fault now p m1 = Err e ->
  exec_insert_products fault now name sku price m = Err e.
Proof. unfold exec_insert_products. intros -> H. exact H. Qed.

Lemma trigger_failure_aborts_order_items fault now oid desc qty price m i m1 e :
  insert_purchase_order_items oid desc qty price m = Ok (i, m1) ->
  trg_order_items_audit fault now i m1 = Err e ->
  exec_insert_purchase_order_items fault now oid desc qty price m = Err e.
Proof. unfold exec_insert_purchase_order_items. intros -> H. exact H. Qed.

(** [executemany] carries a reflexive, transitive relation that each
    execution establishes. *)
Lemma executemany_rel {P : Type} (R : main_db -> main_db -> Prop)
      (stmt : nat -> P -> main_db -> result main_db) :
  (forall m, R m m) ->
  (forall m1 m2 m3, R m1 m2 -> R m2 m3 -> R m1 m3) ->
  (forall i p m m', stmt i p m = Ok m' -> R m m') ->
  forall params i m m', executemany stmt i params m = Ok m' -> R m m'.
Proof.
  intros Hrefl Htrans Hstep. induction params as [|p ps IH]; simpl; intros i m m' H.
  - inversion H; subst. apply Hrefl.
  - destruct (stmt i p m) as [m1|] eqn:E; simpl in H; [|discriminate].
    eapply Htrans; [eapply Hstep; eassumption|eapply IH; eassumption].
Qed.

Lemma wipe_ok m : wipe m = Ok (wiped m).
Proof. now destruct m. Qed.

(* ================================================================= *)
(** ** Requests, relationally

    A relation between the state before and after, once shown for the
    steps a request is made of, holds for the request. *)

Section Requests.
Variable R : system -> system -> Prop.
Variable e : env.
Hypothesis R_refl : forall s, R s s.
Hypothesis R_trans : forall s1 s2 s3, R s1 s2 -> R s2 s3 -> R s1 s3.
Hypothesis R_tracked :
  forall s m', tracked_unchanged (main s) m' -> R s (mkSystem m' (backup s)).
Hypothesis R_product :
  forall s now p a m',
    product_captured now p a (main s) m' -> R s (mkSystem m' (backup s)).
Hypothesis R_item :
  forall s now i a m',
    order_item_captured now i a (main s) m' -> R s (mkSystem m' (backup s)).
Hypothesis R_replicate_product :
  forall s, R s (fst (replicate_product_to_backup (product_faults e) (product_clock e) s)).
Hypothesis R_replicate_order_item :
  forall s, R s (fst (replicate_order_item_to_backup (item_faults e) (item_clock e) s)).

Lemma and_then_rel r k s :
  R s (fst r) -> (forall s1, R s1 (fst (k s1))) -> R s (fst (and_then r k)).
Proof.
  destruct r as [s1 [|err|]]; simpl; intros H1 H2; auto.
  eapply R_trans; [exact H1|apply H2].
Qed.

Lemma both_passes_rel s :
  R s (fst (and_then
              (replicate_product_to_backup (product_faults e) (product_clock e) s)
              (replicate_order_item_to_backup (item_faults e) (item_clock e)))).
Proof. apply and_then_rel; auto. Qed.

Lemma handle_rel r s : r <> SeedDemo -> R s (fst (handle e r s)).
Proof.
  destruct r; simpl; intros NS; try congruence.
  - apply both_passes_rel.
  - unfold add_supplier.
    destruct (insert_suppliers _ _ _ _ _ _ _ _ _ _) as [m'|err] eqn:E; simpl; auto.
    apply R_tracked. now apply insert_suppliers_effect in E.
  - unfold supplier_deactivate; simpl. apply R_tracked. now repeat split.
  - unfold add_product.
    destruct (exec_insert_products _ _ _ _ _ _) as [m'|err] eqn:E; simpl; auto.
    apply exec_insert_products_effect in E. destruct E as (p & a & C & _).
    eapply R_trans; [eapply R_product; exact C|apply R_replicate_product].
  - unfold add_order.
    destruct (insert_purchase_orders _ _ _ _ _) as [[id m']|err] eqn:E; simpl; auto.
    apply R_tracked. now apply insert_purchase_orders_effect in E.
  - unfold add_item.
    destruct (exec_insert_purchase_order_items _ _ _ _ _ _ _) as [m'|err] eqn:E;
      simpl; auto.
    apply exec_insert_purchase_order_items_effect in E. destruct E as (i & a & C & _).
    eapply R_trans; [eapply R_item; exact C|apply R_replicate_order_item].
Qed.

Lemma seed_inserts_rel m m' b :
  seed_inserts e m = Ok m' -> R (mkSystem m b) (mkSystem m' b).
Proof.
  pose (Rm := fun m1 m2 : main_db => R (mkSystem m1 b) (mkSystem m2 b)).
  assert (Rm_refl : forall m1, Rm m1 m1) by (intro; apply R_refl).
  assert (Rm_trans : forall m1 m2 m3, Rm m1 m2 -> Rm m2 m3 -> Rm m1 m3)
    by (unfold Rm; intros; eapply R_trans; eassumption).
  unfold seed_inserts.
  destruct (executemany _ 0%nat suppliers_demo m) as [m1|] eqn:E1; cbn [bind]; [|discriminate].
  destruct (executemany _ 3%nat products_demo m1) as [m2|] eqn:E2; cbn [bind]; [|discriminate].
  destruct (insert_purchase_orders _ _ _ _ m2) as [[oid m3]|] eqn:E3; cbn [bind fst snd];
    [|discriminate].
  intros E4. change (Rm m m').
  apply Rm_trans with m1.
  { revert E1. apply executemany_rel; auto.
    intros i [[[[[[[n c] ph] em] ad] ci] st] co] ma mb H.
    apply insert_suppliers_effect in H. apply (R_tracked (mkSystem ma b)), H. }
  apply Rm_trans with m2.
  { revert E2. apply executemany_rel; auto.
    intros i [[n sku] pr] ma mb H.
    apply exec_insert_products_effect in H. destruct H as (p & a & C & _).
    exact (R_product (mkSystem ma b) _ _ _ _ C). }
  apply Rm_trans with m3.
  { apply insert_purchase_orders_effect in E3. apply (R_tracked (mkSystem m2 b)), E3. }
  revert E4. apply executemany_rel; auto.
  intros i [[[o d] q] pr] ma mb H.
  apply exec_insert_purchase_order_items_effect in H. destruct H as (it & a & C & _).
  exact (R_item (mkSystem ma b) _ _ _ _ C).
Qed.

(** [seed_demo] from its first [conn.commit()] on. *)
Lemma seed_after_wipe_rel s :
  R (mkSystem (wiped (main s)) (backup s)) (fst (seed_demo e s)).
Proof.
  unfold seed_demo. rewrite wipe_ok.
  destruct (seed_inserts e (wiped (main s))) as [m1|err] eqn:E; simpl; [|apply R_refl].
  eapply R_trans; [eapply seed_inserts_rel; exact E|apply both_passes_rel].
Qed.

Hypothesis R_wipe : forall s, R s (mkSystem (wiped (main s)) (backup s)).

Lemma request_rel r s : R s (fst (handle e r s)).
Proof.
  destruct (r) eqn:Er; try (rewrite <- Er; apply handle_rel; congruence).
  simpl. eapply R_trans; [apply R_wipe|apply seed_after_wipe_rel].
Qed.
End Requests.

(* ================================================================= *)
(** ** Ledger and backup store across requests *)





Section PassSuffix.
Context {A B F : Type}.
Variable audit_id : A -> Z.
Variable backup_id : B -> Z.
Variable copy : A -> timestamp -> Z -> B.
Variable afields : A -> F.
Variable bfields : B -> F.
Hypothesis copy_fields : forall r now id, bfields (copy r now id) = afields r.





End PassSuffix.













(** C5 as claimed fails.  After [seed_then_cable] the product ledger holds
    audit id 6, the cable's; a second [seed_demo] deletes it with every other
    ledger row, and the ledger it leaves holds only the ids of the rows it
    seeded. *)
Lemma ledger_monotone_counterexample :
  ~ (forall tr e r id,
        In id (products_backup_ids (main (run tr initial))) ->
        In id (products_backup_ids (main (fst (handle e r (run tr initial)))))).
Proof.
  intros H.
  specialize (H seed_then_cable (quiet 200) SeedDemo 6).
  vm_compute in H.
  assert (F : 1 = 6 \/ 2 = 6 \/ 3 = 6 \/ 4 = 6 \/ 5 = 6 \/ 6 = 6 \/ False)
    by (do 5 right; left; reflexivity).
  apply H in F. repeat (destruct F as [F|F]; [discriminate F|]). exact F.
Qed.

(** C5, amended.  Under every request the backup tables only grow.  Under
    every request but [seed_demo] the ledger tables only grow; [seed_demo]
    starts by deleting every row of both.  The requests that call no
    replication routine leave ledger and backup store untouched, and so do
    the entity statements with their triggers: ledger rows are inserted, and
    the backup store is written, by the replication routines only. *)
Theorem ledger_and_backup_writers (e : env) (r : request) (s : system) :
  let s' := fst (handle e r s) in
  (grows (rows (products_backup (backup s))) (rows (products_backup (backup s'))) /\
   grows (rows (order_items_backup (backup s)))
         (rows (order_items_backup (backup s')))) /\
  (r <> SeedDemo ->
   grows (products_backup_ids (main s)) (products_backup_ids (main s')) /\
   grows (order_items_backup_ids (main s)) (order_items_backup_ids (main s'))) /\
  (runs_no_replication r = true ->
   ledgers_unchanged (main s) (main s') /\ backup s' = backup s) /\
  (forall m m0, wipe m = Ok m0 ->
                products_backup_ids m0 = [] /\ order_items_backup_ids m0 = []) /\
  (forall fault now name sku price m m',
      exec_insert_products fault now name sku price m = Ok m' ->
      ledgers_unchanged m m') /\
  (forall fault now oid desc qty price m m',
      exec_insert_purchase_order_items fault now oid desc qty price m = Ok m' ->
      ledgers_unchanged m m').
Proof.
  simpl. split; [|split; [|split; [|split; [|split]]]].
  - apply (request_rel
             (fun s s' =>
                grows (rows (products_backup (backup s)))
                      (rows (products_backup (backup s'))) /\
                grows (rows (order_items_backup (backup s)))
                      (rows (order_items_backup (backup s')))) e);
      try (intros; simpl; split; apply grows_refl).
    + intros s1 s2 s3 [A B] [C D]. split; eapply grows_trans; eauto.
    + intros s0. destruct (replicate_product_effect (product_faults e) (product_clock e) s0)
        as (_ & _ & Eb & _ & G & _).
      split; [exact G|]. rewrite Eb. apply grows_refl.
    + intros s0.
      destruct (replicate_order_item_effect (item_faults e) (item_clock e) s0)
        as (_ & _ & Eb & _ & G & _).
      split; [|exact G]. rewrite Eb. apply grows_refl.
  - intros NS.
    apply (handle_rel
             (fun s s' =>
                grows (products_backup_ids (main s)) (products_backup_ids (main s')) /\
                grows (order_items_backup_ids (main s))
                      (order_items_backup_ids (main s'))) e); auto.
    + intros; split; apply grows_refl.
    + intros s1 s2 s3 [A B] [C D]. split; eapply grows_trans; eauto.
    + intros s0 m' (_ & _ & _ & _ & Lp & Li). simpl. rewrite Lp, Li.
      split; apply grows_refl.
    + intros s0 now p a m' (_ & _ & _ & _ & _ & _ & _ & _ & Lp & Li). simpl.
      rewrite Lp, Li. split; apply grows_refl.
    + intros s0 now i a m' (_ & _ & _ & _ & _ & _ & _ & _ & Lp & Li). simpl.
      rewrite Lp, Li. split; apply grows_refl.
    + intros s0. destruct (replicate_product_effect (product_faults e) (product_clock e) s0)
        as (_ & El & _ & G & _).
      split; [exact G|]. rewrite El. apply grows_refl.
    + intros s0.
      destruct (replicate_order_item_effect (item_faults e) (item_clock e) s0)
        as (_ & El & _ & G & _).
      split; [|exact G]. rewrite El. apply grows_refl.
  - destruct r; simpl; try discriminate; intros _.
    + unfold add_supplier.
      destruct (insert_suppliers _ _ _ _ _ _ _ _ _ _) as [m'|err] eqn:E; simpl.
      * apply insert_suppliers_effect in E.
        destruct E as ((_ & _ & _ & _ & L) & _). now split.
      * now repeat split.
    + now repeat split.
    + unfold add_order.
      destruct (insert_purchase_orders _ _ _ _ _) as [[id m']|err] eqn:E; simpl.
      * apply insert_purchase_orders_effect in E.
        destruct E as ((_ & _ & _ & _ & L) & _). now split.
      * now repeat split.
  - intros m m0 E. rewrite wipe_ok in E. inversion E; subst. now split.
  - intros fault now name sku price m m' E.
    apply exec_insert_products_effect in E.
    now destruct E as (p & a & (_ & _ & _ & _ & _ & _ & _ & _ & L) & _).
  - intros fault now oid desc qty price m m' E.
    apply exec_insert_purchase_order_items_effect in E.
    now destruct E as (i & a & (_ & _ & _ & _ & _ & _ & _ & _ & L) & _).
Qed.

Lemma ledger_and_backup_writers_witness :
  (grows (products_backup_ids (main initial))
         (products_backup_ids (main (fst (handle (quiet 100) widget initial)))) /\
   grows (order_items_backup_ids (main initial))
         (order_items_backup_ids (main (fst (handle (quiet 100) widget initial))))) /\
  (ledgers_unchanged (main product_pending)
                     (main (fst (handle (quiet 100) (AddOrder 1 None) product_pending))) /\
   backup (fst (handle (quiet 100) (AddOrder 1 None) product_pending)) =
   backup product_pending) /\
  (products_backup_ids (wiped (main product_pending)) = [] /\
   order_items_backup_ids (wiped (main product_pending)) = []) /\
  ledgers_unchanged empty_main (main product_pending) /\
  ledgers_unchanged (main (run bolt_order initial)) (main item_pending).
Proof.
  destruct (ledger_and_backup_writers (quiet 100) widget initial)
    as (_ & Hl & _ & Hw & Hp & Hi).
  destruct (ledger_and_backup_writers (quiet 100) (AddOrder 1 None) product_pending)
    as (_ & _ & Hn & _).
  split; [apply Hl; discriminate|].
  split; [apply Hn; reflexivity|].
  split; [apply (Hw (main product_pending)); apply wipe_ok|].
  split.
  - apply (Hp false 100 "Widget" (Some "W-1") widget_price). reflexivity.
  - apply (Hi false 100 1 "Bolt" (real_of_pos 2) (real_of_pos 5)). reflexivity.
Defined.

(** C7, the code at the failing execution.  [add_product] inserts the
    widget (audit row 1) and the process stops in
    [replicate_product_to_backup] after [conn.commit()] and before
    [bconn.commit()]: the ledger holds audit id 1, the backup store nothing.
    Every later pass finds nothing pending and returns without writing:
    the row is never replicated. *)
Theorem stop_between_commits_loses_row :
  let s1 := fst (add_product (stopped_between_commits 100) "Widget" "W-1"
                             widget_price initial) in
  rows (products_audit (main s1)) =
    [mkProductAudit 1 1 "Widget" (Some "W-1") widget_price 100] /\
  products_backup_ids (main s1) = [1] /\
  rows (products_backup (backup s1)) = [] /\
  pending_products s1 = [] /\
  forall clk, replicate_product_to_backup no_faults clk s1 = (s1, Returned).
Proof. repeat split. Qed.

(* ================================================================= *)
(** ** Capture *)

Lemma mirrors_tracked m m' :
  tracked_unchanged m m' -> audit_mirrors m -> audit_mirrors m'.
Proof.
  intros (Hp & Hi & Hpa & Hia & _) [Mp Mi]. unfold audit_mirrors.
  now rewrite Hp, Hi, Hpa, Hia.
Qed.

Lemma mirrors_product now p a m m' :
  product_captured now p a m m' -> audit_mirrors m -> audit_mirrors m'.
Proof.
  intros (Hp & Ha & Hf & _ & _ & _ & Hi & Hia & _) [Mp Mi]. unfold audit_mirrors.
  rewrite Hp, Ha, Hi, Hia, !map_app, Mp. simpl. now rewrite Hf.
Qed.

Lemma mirrors_item now i a m m' :
  order_item_captured now i a m m' -> audit_mirrors m -> audit_mirrors m'.
Proof.
  intros (Hi & Ha & Hf & _ & _ & Hp & _ & Hpa & _) [Mp Mi]. unfold audit_mirrors.
  rewrite Hp, Ha, Hi, Hpa, !map_app, Mi. simpl. now rewrite Hf.
Qed.

Lemma mirrors_entities m m' :
  entities_unchanged m m' -> audit_mirrors m -> audit_mirrors m'.
Proof.
  intros (_ & Hp & _ & Hi & Hpa & Hia) [Mp Mi]. unfold audit_mirrors.
  now rewrite Hp, Hi, Hpa, Hia.
Qed.

(** C4.  Capture atomicity.  A statement that inserts into [products] (into
    [purchase_order_items]) and succeeds has added exactly one row to the
    audit table, in the same statement and so under the same commit,
    holding the snapshot of the inserted row.  The inserted row holds the
    values given, a price or quantity as its [REAL] column holds it
    ([-0.0] as [+0.0]), and so does the audit row.  When the audit insert
    of the trigger fails the statement fails, and [add_product]
    ([add_item]) raises with the durable state as it was: no entity row
    without its audit row.
    Requests that insert into no tracked table leave both audit tables as
    they are, and under every request the audit tables keep mirroring the
    tracked tables row by row: audit rows come from captured inserts
    only. *)
Theorem capture_atomic :
  (forall fault now name sku price m m',
      exec_insert_products fault now name sku price m = Ok m' ->
      exists p a, product_captured now p a m m' /\
                  p_name p = name /\ p_sku p = sku /\
                  bind_real price <> None /\ p_unit_price p = store_real price) /\
  (forall fault now oid desc qty price m m',
      exec_insert_purchase_order_items fault now oid desc qty price m = Ok m' ->
      exists i a, order_item_captured now i a m m' /\
                  oi_order_id i = oid /\ oi_description i = desc /\
                  bind_real qty <> None /\ oi_quantity i = store_real qty /\
                  bind_real price <> None /\ oi_unit_price i = store_real price) /\
  (forall e name sku price s p m1 err,
      insert_products (clock e 0) name (Some sku) price (main s) = Ok (p, m1) ->
      trg_products_audit (audit_fails e 0) (clock e 0) p m1 = Err err ->
      add_product e name sku price s = (s, Raised err)) /\
  (forall e oid desc qty price s i m1 err,
      insert_purchase_order_items oid desc qty price (main s) = Ok (i, m1) ->
      trg_order_items_audit (audit_fails e 0) (clock e 0) i m1 = Err err ->
      add_item e oid desc qty price s = (s, Raised err)) /\
  (forall e r s,
      inserts_no_entity r = true ->
      products_audit (main (fst (handle e r s))) = products_audit (main s) /\
      order_items_audit (main (fst (handle e r s))) = order_items_audit (main s)) /\
  (forall e r s,
      audit_mirrors (main s) -> audit_mirrors (main (fst (handle e r s)))).
Proof.
  split; [exact exec_insert_products_effect|].
  split; [exact exec_insert_purchase_order_items_effect|].
  split; [|split; [|split]].
  - intros e name sku price s p m1 err Hi Ht. unfold add_product.
    now rewrite (trigger_failure_aborts_products _ _ _ _ _ _ _ _ _ Hi Ht).
  - intros e oid desc qty price s i m1 err Hi Ht. unfold add_item.
    now rewrite (trigger_failure_aborts_order_items _ _ _ _ _ _ _ _ _ _ Hi Ht).
  - intros e r s Hr.
    set (Q := fun s s' : system =>
                products_audit (main s') = products_audit (main s) /\
                order_items_audit (main s') = order_items_audit (main s)).
    assert (Qt : forall s1 s2 s3, Q s1 s2 -> Q s2 s3 -> Q s1 s3).
    { intros s1 s2 s3 [A B] [C D]. split; congruence. }
    change (Q s (fst (handle e r s))).
    destruct r; simpl in *; try discriminate.
    + apply (and_then_rel Q Qt).
      * now destruct (replicate_product_effect (product_faults e) (product_clock e) s)
          as ((_ & _ & _ & _ & A & B) & _).
      * intros s1.
        now destruct (replicate_order_item_effect (item_faults e) (item_clock e) s1)
          as ((_ & _ & _ & _ & A & B) & _).
    + unfold add_supplier.
      destruct (insert_suppliers _ _ _ _ _ _ _ _ _ _) as [m'|err] eqn:E; simpl;
        [|now split].
      apply insert_suppliers_effect in E. now destruct E as ((_ & _ & A & B & _) & _).
    + now split.
    + unfold add_order.
      destruct (insert_purchase_orders _ _ _ _ _) as [[id m']|err] eqn:E; simpl;
        [|now split].
      apply insert_purchase_orders_effect in E.
      now destruct E as ((_ & _ & A & B & _) & _).
  - intros e r s.
    apply (request_rel
             (fun s s' => audit_mirrors (main s) -> audit_mirrors (main s')) e); auto.
    + intros s0 m'. apply mirrors_tracked.
    + intros s0 now p a m'. apply mirrors_product.
    + intros s0 now i a m'. apply mirrors_item.
    + intros s0. apply mirrors_entities.
      apply (replicate_product_effect (product_faults e) (product_clock e) s0).
    + intros s0. apply mirrors_entities.
      apply (replicate_order_item_effect (item_faults e) (item_clock e) s0).
    + intros s0 _. now split.
Qed.

Lemma capture_atomic_witness :
  (exists p a, product_captured 100 p a empty_main (main product_pending)) /\
  (exists p a,
      product_captured 100 p a empty_main
        (main (run [(backup_down 100, AddProduct "Sample" "S-0" (S754_zero true))]
                   initial)) /\
      p_unit_price p = S754_zero false /\ pa_unit_price a = S754_zero false) /\
  (exists i a, order_item_captured 100 i a (main (run bolt_order initial))
                                   (main item_pending)) /\
  add_product (audit_down 100) "Widget" "W-1" widget_price initial
  = (initial, Raised OperationalError) /\
  add_item (audit_down 100) 1 "Bolt" (real_of_pos 2) (real_of_pos 5)
           (run bolt_order initial)
  = (run bolt_order initial, Raised OperationalError) /\
  products_audit (main (fst (handle (quiet 200) Dashboard product_pending)))
  = products_audit (main product_pending) /\
  audit_mirrors (main (fst (handle (quiet 100) widget initial))).
Proof.
  destruct capture_atomic as (Hp & Hi & Hap & Hai & Hn & Hm).
  split.
  { destruct (Hp false 100 "Widget" (Some "W-1") widget_price empty_main
                 (main product_pending) eq_refl) as (p & a & C & _).
    now exists p, a. }
  split.
  { destruct (Hp false 100 "Sample" (Some "S-0") (S754_zero true) empty_main
                 (main (run [(backup_down 100,
                              AddProduct "Sample" "S-0" (S754_zero true))]
                            initial)) eq_refl) as (p & a & C & _ & _ & _ & E).
    exists p, a. split; [exact C|]. split; [exact E|].
    destruct C as (_ & _ & F & _).
    apply (f_equal snd) in F. cbn [snd pa_fields product_snapshot] in F.
    now rewrite F. }
  split.
  { destruct (Hi false 100 1 "Bolt" (real_of_pos 2) (real_of_pos 5)
                 (main (run bolt_order initial)) (main item_pending) eq_refl)
      as (i & a & C & _).
    now exists i, a. }
  split; [eapply Hap; reflexivity|].
  split; [eapply Hai; reflexivity|].
  split; [apply Hn; reflexivity|].
  apply Hm. split; reflexivity.
Defined.

(* ================================================================= *)
(** ** Order of the backup tables *)

Lemma largest_ge (ids : list Z) x : In x ids -> x <= largest ids.
Proof.
  induction ids as [|y ids IH]; simpl; [contradiction|].
  intros [->|H]; [lia|]. specialize (IH H). lia.
Qed.

Lemma sorted_snoc {X : Type} (rel : X -> X -> Prop) (l : list X) (x : X) :
  StronglySorted rel l -> Forall (fun y => rel y x) l -> StronglySorted rel (l ++ [x]).
Proof.
  induction 1 as [|y l Hs IH Hy]; simpl; intros Hx.
  - repeat constructor.
  - inversion Hx; subst. constructor; [now apply IH|].
    apply Forall_app. split; [exact Hy|now constructor].
Qed.

Lemma sorted_rev {X : Type} (rel : X -> X -> Prop) (l : list X) :
  StronglySorted rel l -> StronglySorted (fun x y => rel y x) (rev l).
Proof.
  induction 1 as [|y l Hs IH Hy]; simpl; [constructor|].
  apply sorted_snoc; [exact IH|]. now apply Forall_rev.
Qed.

Section PassOrder.
Context {A B : Type}.
Variable audit_id : A -> Z.
Variable backup_id : B -> Z.
Variable btime : B -> timestamp.
Variable copy : A -> timestamp -> Z -> B.
Hypothesis copy_id : forall r now id, backup_id (copy r now id) = id.
Hypothesis copy_time : forall r now id, btime (copy r now id) = now.

Local Abbreviation loop := (replicate_rows audit_id backup_id copy).
Local Abbreviation run_pass := (pass audit_id backup_id copy).

(** AUTOINCREMENT hands out an id above every id in the table. *)
Lemma insert_backup_ascending now r t t' :
  insert_backup backup_id copy now r t = Ok t' ->
  ascending backup_id (rows t) -> ascending backup_id (rows t').
Proof.
  unfold insert_backup, autoinc_insert, autoincrement_rowid.
  destruct (_ <? max_rowid); simpl; [|discriminate].
  intros H; inversion H; subst; clear H. simpl. intros Hs.
  apply sorted_snoc; [exact Hs|].
  apply Forall_forall. intros y Hy. rewrite copy_id.
  pose proof (largest_ge (map backup_id (rows t)) (backup_id y) (in_map _ _ _ Hy)).
  lia.
Qed.

Lemma insert_backup_not_after now r t t' c :
  insert_backup backup_id copy now r t = Ok t' ->
  c <= now -> not_after btime c (rows t) -> not_after btime now (rows t').
Proof.
  unfold insert_backup, autoinc_insert.
  destruct (autoincrement_rowid backup_id t) as [id|]; simpl; [|discriminate].
  intros H; inversion H; subst; clear H. simpl. intros Hc [Hs Hb]. split.
  - apply sorted_snoc; [exact Hs|].
    eapply Forall_impl; [|exact Hb]. simpl. intros y Hy. rewrite copy_time. lia.
  - apply Forall_app. split.
    + eapply Forall_impl; [|exact Hb]. simpl. intros y Hy. lia.
    + constructor; [rewrite copy_time; lia|constructor].
Qed.

Lemma replicate_rows_ascending f clk rs : forall i ledger t ledger' t',
  loop f clk i rs ledger t = Ok (ledger', t') ->
  ascending backup_id (rows t) -> ascending backup_id (rows t').
Proof.
  induction rs as [|r rs IH]; simpl; intros i ledger t ledger' t' H Hs.
  - now inversion H; subst.
  - destruct (backup_write_fails f i); [discriminate|].
    destruct (insert_backup backup_id copy (clk i) r t) as [t1|] eqn:E; simpl in H;
      [|discriminate].
    destruct (ledger_write_fails f i); [discriminate|].
    destruct (insert_backup_id (audit_id r) ledger) as [l1|]; simpl in H;
      [|discriminate].
    eapply IH; [exact H|]. eapply insert_backup_ascending; eassumption.
Qed.

Lemma replicate_rows_not_after f clk hi rs : forall i c ledger t ledger' t',
  (forall j k, (j <= k)%nat -> clk j <= clk k) ->
  (forall j, clk j <= hi) ->
  loop f clk i rs ledger t = Ok (ledger', t') ->
  c <= hi -> (forall j, (i <= j)%nat -> c <= clk j) ->
  not_after btime c (rows t) -> not_after btime hi (rows t').
Proof.
  induction rs as [|r rs IH]; simpl; intros i c ledger t ledger' t' Hm Hh H Hc Hlo Hn.
  - inversion H; subst. destruct Hn as [Hs Hb]. split; [exact Hs|].
    eapply Forall_impl; [|exact Hb]. simpl. intros y Hy. lia.
  - destruct (backup_write_fails f i); [discriminate|].
    destruct (insert_backup backup_id copy (clk i) r t) as [t1|] eqn:E; simpl in H;
      [|discriminate].
    destruct (ledger_write_fails f i); [discriminate|].
    destruct (insert_backup_id (audit_id r) ledger) as [l1|]; simpl in H;
      [|discriminate].
    apply (IH (S i) (clk i) _ _ _ _ Hm Hh H (Hh i)).
    + intros j Hj. apply Hm. lia.
    + eapply insert_backup_not_after; [exact E|apply Hlo; lia|exact Hn].
Qed.

Lemma pass_ascending f clk audit ledger t :
  ascending backup_id (rows t) ->
  ascending backup_id (rows (snd (fst (run_pass f clk audit ledger t)))).
Proof.
  intros Hs. unfold pass. destruct (read_fails f); [exact Hs|].
  destruct (loop f clk 0 _ ledger t) as [[l1 t1]|] eqn:E; [|exact Hs].
  destruct (halt f) as [[|]|]; simpl; try exact Hs.
  eapply replicate_rows_ascending; eassumption.
Qed.

Lemma pass_not_after f clk lo hi audit ledger t :
  steady lo hi clk ->
  not_after btime lo (rows t) ->
  not_after btime hi (rows (snd (fst (run_pass f clk audit ledger t)))).
Proof.
  intros [Hm Hb] Hn.
  assert (Hw : not_after btime hi (rows t)).
  { destruct Hn as [Hs Hf]. split; [exact Hs|].
    eapply Forall_impl; [|exact Hf]. simpl. intros y Hy. specialize (Hb 0%nat). lia. }
  unfold pass. destruct (read_fails f); [exact Hw|].
  destruct (loop f clk 0 _ ledger t) as [[l1 t1]|] eqn:E; [|exact Hw].
  destruct (halt f) as [[|]|]; simpl; try exact Hw.
  apply (replicate_rows_not_after f clk hi _ 0%nat lo _ _ _ _ Hm (fun j => proj2 (Hb j)) E).
  - specialize (Hb 0%nat). lia.
  - intros j _. apply Hb.
  - exact Hn.
Qed.
End PassOrder.

Section OrderBy.
Context {R : Type}.
Variable key : R -> Z.

Lemma insert_desc_perm x l : Permutation (insert_desc key x l) (x :: l).
Proof.
  induction l as [|y l IH]; simpl; [reflexivity|].
  destruct (key y <=? key x); [reflexivity|].
  rewrite IH. apply perm_swap.
Qed.

Lemma order_by_desc_perm l : Permutation (order_by_desc key l) l.
Proof.
  induction l as [|x l IH]; simpl; [reflexivity|].
  rewrite insert_desc_perm. now constructor.
Qed.

Lemma insert_desc_descending x l :
  descending key l -> descending key (insert_desc key x l).
Proof.
  unfold descending. induction 1 as [|y l Hs IH Hy]; simpl.
  - repeat constructor.
  - destruct (key y <=? key x) eqn:E.
    + apply Z.leb_le in E. constructor; [now constructor|].
      constructor; [exact E|].
      eapply Forall_impl; [|exact Hy]. simpl. intros z Hz. lia.
    + apply Z.leb_gt in E. constructor; [exact IH|].
      apply (Permutation_Forall (Permutation_sym (insert_desc_perm x l))).
      constructor; [lia|exact Hy].
Qed.

Lemma order_by_desc_descending l : descending key (order_by_desc key l).
Proof.
  induction l as [|x l IH]; simpl; [constructor|].
  now apply insert_desc_descending.
Qed.

(** A row below all others goes last. *)
Lemma insert_desc_last x l :
  Forall (fun y => key x < key y) l -> insert_desc key x l = l ++ [x].
Proof.
  induction 1 as [|y l Hy _ IH]; simpl; [reflexivity|].
  destruct (key y <=? key x) eqn:E; [apply Z.leb_le in E; lia|]. now rewrite IH.
Qed.

(** On a table in ascending order of [key], [ORDER BY key DESC] is the
    table read backwards. *)
Lemma order_by_desc_rev l : ascending key l -> order_by_desc key l = rev l.
Proof.
  unfold ascending. induction 1 as [|x l Hs IH Hx]; simpl; [reflexivity|].
  rewrite IH. apply insert_desc_last. now apply Forall_rev.
Qed.
End OrderBy.

(* ================================================================= *)
(** ** The backup listing *)

Lemma copy_product_time r now id : pb_backed_up_at (copy_product r now id) = now.
Proof. reflexivity. Qed.

Lemma copy_order_item_time r now id :
  oib_backed_up_at (copy_order_item r now id) = now.
Proof. reflexivity. Qed.

Lemma replicate_product_backup f clk s :
  backup (fst (replicate_product_to_backup f clk s)) =
  mkBackup (snd (fst (pass pa_audit_id pb_backup_id copy_product f clk
                           (rows (products_audit (main s)))
                           (products_backup_ids (main s))
                           (products_backup (backup s)))))
           (order_items_backup (backup s)).
Proof.
  open_pass.
  now destruct (pass pa_audit_id pb_backup_id copy_product f clk _ _ _) as [[l t] o].
Qed.

Lemma replicate_order_item_backup f clk s :
  backup (fst (replicate_order_item_to_backup f clk s)) =
  mkBackup (products_backup (backup s))
           (snd (fst (pass oia_audit_id oib_backup_id copy_order_item f clk
                           (rows (order_items_audit (main s)))
                           (order_items_backup_ids (main s))
                           (order_items_backup (backup s))))).
Proof.
  open_pass.
  now destruct (pass oia_audit_id oib_backup_id copy_order_item f clk _ _ _)
    as [[l t] o].
Qed.

Lemma replicate_product_ascending f clk s :
  backup_ids_ascending (backup s) ->
  backup_ids_ascending (backup (fst (replicate_product_to_backup f clk s))).
Proof.
  intros [Hp Hi]. rewrite replicate_product_backup. split; simpl; [|exact Hi].
  now apply pass_ascending.
Qed.

Lemma replicate_order_item_ascending f clk s :
  backup_ids_ascending (backup s) ->
  backup_ids_ascending (backup (fst (replicate_order_item_to_backup f clk s))).
Proof.
  intros [Hp Hi]. rewrite replicate_order_item_backup. split; simpl; [exact Hp|].
  now apply pass_ascending.
Qed.

(** In every reachable state both backup tables are in ascending order of
    [backup_id]: rows lie in the order in which they were replicated. *)
Lemma run_ascending tr : forall s,
  backup_ids_ascending (backup s) -> backup_ids_ascending (backup (run tr s)).
Proof.
  induction tr as [|[e r] tr IH]; simpl; intros s H; [exact H|].
  apply IH. revert H.
  apply (request_rel
           (fun s s' => backup_ids_ascending (backup s) ->
                        backup_ids_ascending (backup s')) e); auto.
  - intros s0. apply replicate_product_ascending.
  - intros s0. apply replicate_order_item_ascending.
Qed.

Lemma not_after_weaken {X : Type} (time : X -> Z) c c' l :
  c <= c' -> not_after time c l -> not_after time c' l.
Proof.
  intros Hc [Hs Hb]. split; [exact Hs|].
  eapply Forall_impl; [|exact Hb]. simpl. intros y Hy. lia.
Qed.

Lemma steady_le lo hi clk : steady lo hi clk -> lo <= hi.
Proof. intros [_ H]. specialize (H 0%nat). lia. Qed.

Lemma backup_not_after_weaken c c' b :
  c <= c' -> backup_not_after c b -> backup_not_after c' b.
Proof. intros Hc [Hp Hi]. split; eapply not_after_weaken; eauto. Qed.

Section RequestClock.
Variables (e : env) (lo hi : timestamp).
Hypothesis product_steady : steady lo hi (product_clock e).
Hypothesis item_steady : steady lo hi (item_clock e).

Lemma replicate_product_not_after s :
  backup_not_after lo (backup s) ->
  backup_not_after hi
    (backup (fst (replicate_product_to_backup (product_faults e) (product_clock e) s))).
Proof.
  intros [Hp Hi]. rewrite replicate_product_backup. split; simpl.
  - apply (pass_not_after pa_audit_id pb_backup_id pb_backed_up_at copy_product
                          copy_product_time _ _ lo hi); assumption.
  - eapply not_after_weaken; [apply (steady_le _ _ _ product_steady)|exact Hi].
Qed.

Lemma replicate_order_item_not_after s :
  backup_not_after lo (backup s) ->
  backup_not_after hi
    (backup (fst (replicate_order_item_to_backup (item_faults e) (item_clock e) s))).
Proof.
  intros [Hp Hi]. rewrite replicate_order_item_backup. split; simpl.
  - eapply not_after_weaken; [apply (steady_le _ _ _ item_steady)|exact Hp].
  - apply (pass_not_after oia_audit_id oib_backup_id oib_backed_up_at copy_order_item
                          copy_order_item_time _ _ lo hi); assumption.
Qed.

(** The two passes of [dashboard] and [seed_demo]: each writes its own
    table. *)
Lemma both_passes_not_after s :
  backup_not_after lo (backup s) ->
  backup_not_after hi
    (backup (fst (and_then
                    (replicate_product_to_backup (product_faults e) (product_clock e) s)
                    (replicate_order_item_to_backup (item_faults e) (item_clock e))))).
Proof.
  intros H. pose proof (replicate_product_not_after s H) as [Hp _].
  pose proof (replicate_product_backup (product_faults e) (product_clock e) s) as Eb.
  destruct (replicate_product_to_backup (product_faults e) (product_clock e) s)
    as [s1 o]. simpl in *.
  assert (Hi1 : not_after oib_backed_up_at lo (rows (order_items_backup (backup s1)))).
  { rewrite Eb. simpl. apply H. }
  assert (Hw : backup_not_after hi (backup s1)).
  { split; [exact Hp|].
    eapply not_after_weaken; [apply (steady_le _ _ _ item_steady)|exact Hi1]. }
  destruct o; simpl; try exact Hw.
  rewrite replicate_order_item_backup. split; simpl; [exact Hp|].
  apply (pass_not_after oia_audit_id oib_backup_id oib_backed_up_at copy_order_item
                        copy_order_item_time _ _ lo hi); assumption.
Qed.

Lemma handle_not_after r s :
  backup_not_after lo (backup s) ->
  backup_not_after hi (backup (fst (handle e r s))).
Proof.
  intros H.
  assert (Hw : backup_not_after hi (backup s)).
  { eapply backup_not_after_weaken; [apply (steady_le _ _ _ item_steady)|exact H]. }
  destruct r; simpl.
  - now apply both_passes_not_after.
  - unfold add_supplier. now destruct (insert_suppliers _ _ _ _ _ _ _ _ _ _).
  - exact Hw.
  - unfold add_product. destruct (exec_insert_products _ _ _ _ _ _); [|exact Hw].
    now apply replicate_product_not_after.
  - unfold add_order. now destruct (insert_purchase_orders _ _ _ _ _) as [[]|].
  - unfold add_item.
    destruct (exec_insert_purchase_order_items _ _ _ _ _ _ _); [|exact Hw].
    now apply replicate_order_item_not_after.
  - unfold seed_demo. rewrite wipe_ok.
    destruct (seed_inserts e (wiped (main s))); [|exact Hw].
    now apply both_passes_not_after.
Qed.
End RequestClock.

Lemma run_not_after tr : forall lo s,
  clock_never_steps_back lo tr ->
  backup_not_after lo (backup s) ->
  exists hi, backup_not_after hi (backup (run tr s)).
Proof.
  induction tr as [|[e r] tr IH]; simpl; intros lo s Hc H; [eauto|].
  destruct Hc as (hi & Hp & Hi & Hc).
  apply (IH hi); [exact Hc|]. now apply (handle_not_after e lo hi).
Qed.

Lemma not_after_rev_descending {X : Type} (time : X -> Z) c l :
  not_after time c l -> descending time (rev l).
Proof. intros [Hs _]. now apply sorted_rev in Hs. Qed.

(** C9 as claimed fails.  The listing is ordered by [backup_id], not by
    the time of replication: after [clock_stepped_back], where the wall
    clock read 100 for the first request and 50 for the second, the listing
    is backup row 2 (written at 50), then backup row 1 (written at 100). *)
Lemma backup_viewer_counterexample :
  ~ (forall b, descending pb_backed_up_at (fst (backup_viewer b))) /\
  map pb_backed_up_at (fst (backup_viewer (backup (run clock_stepped_back initial))))
  = [50; 100].
Proof.
  split; [|reflexivity].
  intros H. specialize (H (backup (run clock_stepped_back initial))).
  assert (E : fst (backup_viewer (backup (run clock_stepped_back initial)))
              = [mkProductBackup 2 2 "Widget" (Some "W-1") widget_price 50;
                 mkProductBackup 1 1 "3-Pin Power Cable" (Some "PC-3PIN-IND")
                                 (real_of_pos 160) 100]) by reflexivity.
  rewrite E in H. inversion H as [|x l _ Hx]; subst.
  inversion Hx as [|y l' Hy _]; subst. cbn [pb_backed_up_at] in Hy. lia.
Qed.

(** C9, amended.  In every state the application can reach,
    each listing of [backup_viewer] is its backup table read backwards: the
    record replicated last comes first.  As long as the wall clock never
    stepped back while the records were written, that is descending order of
    the recorded replication time [backed_up_at].  For every state of the
    backup store whatever, a listing holds exactly the rows of its table,
    in descending order of [backup_id]. *)
Theorem backup_viewer_order :
  (forall tr,
      let b := backup (run tr initial) in
      fst (backup_viewer b) = rev (rows (products_backup b)) /\
      snd (backup_viewer b) = rev (rows (order_items_backup b))) /\
  (forall tr lo,
      clock_never_steps_back lo tr ->
      let b := backup (run tr initial) in
      descending pb_backed_up_at (fst (backup_viewer b)) /\
      descending oib_backed_up_at (snd (backup_viewer b))) /\
  (forall b,
      Permutation (fst (backup_viewer b)) (rows (products_backup b)) /\
      descending pb_backup_id (fst (backup_viewer b)) /\
      Permutation (snd (backup_viewer b)) (rows (order_items_backup b)) /\
      descending oib_backup_id (snd (backup_viewer b))).
Proof.
  assert (Hrev : forall tr,
             let b := backup (run tr initial) in
             fst (backup_viewer b) = rev (rows (products_backup b)) /\
             snd (backup_viewer b) = rev (rows (order_items_backup b))).
  { intros tr. destruct (run_ascending tr initial) as [Hp Hi]; [split; constructor|].
    unfold backup_viewer; simpl. split; now apply order_by_desc_rev. }
  split; [exact Hrev|]. split.
  - intros tr lo Hc. pose proof (Hrev tr) as Hv. cbv zeta in *.
    destruct Hv as [-> ->].
    destruct (run_not_after tr lo initial Hc) as (hi & Hp & Hi).
    { split; split; constructor. }
    split; eapply not_after_rev_descending; eassumption.
  - intros b. unfold backup_viewer; simpl.
    repeat split; auto using order_by_desc_perm, order_by_desc_descending.
Qed.

Lemma backup_viewer_order_witness :
  descending pb_backed_up_at
             (fst (backup_viewer (backup (run clock_steady initial)))) /\
  descending oib_backed_up_at
             (snd (backup_viewer (backup (run clock_steady initial)))).
Proof.
  apply (proj1 (proj2 backup_viewer_order) clock_steady 100).
  exists 100. split; [|split].
  - split; intros; simpl; lia.
  - split; intros; simpl; lia.
  - exists 200. split; [|split]; [| |exact I]; split; intros; simpl; lia.
Defined.

(* ================================================================= *)
(** ** Statements, inverted *)

Lemma next_rowid_ok ids id :
  next_rowid ids = Ok id -> id = largest ids + 1 /\ largest ids < max_rowid.
Proof.
  unfold next_rowid. destruct (largest ids <? max_rowid) eqn:E; [|discriminate].
  apply Z.ltb_lt in E. intros H; inversion H. now split.
Qed.

Lemma autoinc_insert_ok {R : Type} (rowid : R -> Z) (mk : Z -> R) t t' :
  autoinc_insert rowid mk t = Ok t' ->
  let id := Z.max (seq t) (largest (map rowid (rows t))) + 1 in
  t' = mkAutoinc (rows t ++ [mk id]) id /\ id <= max_rowid.
Proof.
  unfold autoinc_insert, autoincrement_rowid.
  destruct (_ <? max_rowid) eqn:E; simpl; [|discriminate].
  apply Z.ltb_lt in E. intros H; inversion H. split; [reflexivity|lia].
Qed.

Lemma insert_suppliers_ok now name c ph em ad ci st co m m' :
  insert_suppliers now name c ph em ad ci st co m = Ok m' ->
  let id := largest (map s_supplier_id (suppliers m)) + 1 in
  existsb (fun s => opt_eqb (s_email s) em) (suppliers m) = false /\
  m' = set_suppliers
         (suppliers m ++ [mkSupplier id name c ph em ad ci st co 1 (date now)]) m.
Proof.
  unfold insert_suppliers.
  destruct (existsb _ (suppliers m)); [discriminate|].
  destruct (next_rowid _) as [id|] eqn:E; simpl; [|discriminate].
  apply next_rowid_ok in E. destruct E as [-> _].
  intros H; inversion H. now split.
Qed.

Lemma exec_insert_products_ok fault now name sku price m m' :
  exec_insert_products fault now name sku price m = Ok m' ->
  let up := store_real price in
  let p := mkProduct (largest (map p_product_id (products m)) + 1) name sku up 1
                     (date now) in
  let id := Z.max (seq (products_audit m))
                  (largest (map pa_audit_id (rows (products_audit m)))) + 1 in
  fault = false /\ real_ge0 up = true /\ id <= max_rowid /\
  m' = set_products_audit
         (mkAutoinc (rows (products_audit m) ++
                       [mkProductAudit id (p_product_id p) name sku up now]) id)
         (set_products (products m ++ [p]) m).
Proof.
  unfold exec_insert_products, insert_products.
  destruct (bind_real price) as [v|] eqn:B; [|discriminate].
  apply bind_real_some in B. subst v. cbv zeta.
  destruct (real_ge0 (store_real price)); [|discriminate].
  destruct (next_rowid _) as [id|] eqn:E; simpl; [|discriminate].
  apply next_rowid_ok in E. destruct E as [-> _].
  unfold trg_products_audit. destruct fault; [discriminate|].
  destruct (autoinc_insert _ _ _) as [t|] eqn:A; simpl; [|discriminate].
  apply autoinc_insert_ok in A. simpl in A. destruct A as [-> Hid].
  intros H; inversion H. now repeat split.
Qed.

Lemma insert_purchase_orders_ok now sid st notes m id m' :
  insert_purchase_orders now sid st notes m = Ok (id, m') ->
  existsb (fun s => s_supplier_id s =? sid) (suppliers m) = true /\
  status_ok st = true /\
  id = largest (map po_order_id (purchase_orders m)) + 1 /\
  m' = set_purchase_orders
         (purchase_orders m ++ [mkOrder id sid (date now) st notes]) m.
Proof.
  unfold insert_purchase_orders.
  destruct (existsb _ (suppliers m)); simpl; [|discriminate].
  destruct (status_ok st); simpl; [|discriminate].
  destruct (next_rowid _) as [k|] eqn:E; simpl; [|discriminate].
  apply next_rowid_ok in E. destruct E as [-> _].
  intros H; inversion H. now repeat split.
Qed.

Lemma exec_insert_purchase_order_items_ok fault now oid desc qty price m m' :
  exec_insert_purchase_order_items fault now oid desc qty price m = Ok m' ->
  let q := store_real qty in
  let up := store_real price in
  let i := mkItem (largest (map oi_item_id (purchase_order_items m)) + 1) oid None
                  desc q up in
  let id := Z.max (seq (order_items_audit m))
                  (largest (map oia_audit_id (rows (order_items_audit m)))) + 1 in
  fault = false /\
  existsb (fun o => po_order_id o =? oid) (purchase_orders m) = true /\
  real_gt0 q = true /\ real_ge0 up = true /\ id <= max_rowid /\
  m' = set_order_items_audit
         (mkAutoinc (rows (order_items_audit m) ++
                       [mkItemAudit id (oi_item_id i) oid None desc q up now]) id)
         (set_purchase_order_items (purchase_order_items m ++ [i]) m).
Proof.
  unfold exec_insert_purchase_order_items, insert_purchase_order_items.
  destruct (existsb _ (purchase_orders m)); simpl; [|discriminate].
  destruct (bind_real qty) as [vq|] eqn:Bq; [|discriminate].
  apply bind_real_some in Bq. subst vq.
  destruct (bind_real price) as [v|] eqn:Bp; [|discriminate].
  apply bind_real_some in Bp. subst v. cbv zeta.
  destruct (real_gt0 (store_real qty)); simpl; [|discriminate].
  destruct (real_ge0 (store_real price)); simpl; [|discriminate].
  destruct (next_rowid _) as [id|] eqn:E; simpl; [|discriminate].
  apply next_rowid_ok in E. destruct E as [-> _].
  unfold trg_order_items_audit. destruct fault; [discriminate|].
  destruct (autoinc_insert _ _ _) as [t|] eqn:A; simpl; [|discriminate].
  apply autoinc_insert_ok in A. simpl in A. destruct A as [-> Hid].
  intros H; inversion H. now repeat split.
Qed.

(* ================================================================= *)
(** ** Invariants of the primary store

    A property of the primary store that each statement of the application
    keeps holds in every state the application reaches. *)

Section MainInvariant.
Variable Inv : main_db -> Prop.
Hypothesis Inv_supplier :
  forall now name c ph em ad ci st co m m',
    insert_suppliers now name c ph em ad ci st co m = Ok m' -> Inv m -> Inv m'.
Hypothesis Inv_deactivate :
  forall id s, Inv (main s) -> Inv (main (fst (supplier_deactivate id s))).
Hypothesis Inv_product :
  forall fault now name sku price m m',
    exec_insert_products fault now name sku price m = Ok m' -> Inv m -> Inv m'.
Hypothesis Inv_order :
  forall now sid st notes m id m',
    insert_purchase_orders now sid st notes m = Ok (id, m') -> Inv m -> Inv m'.
Hypothesis Inv_item :
  forall fault now oid desc qty price m m',
    exec_insert_purchase_order_items fault now oid desc qty price m = Ok m' ->
    Inv m -> Inv m'.
Hypothesis Inv_product_ledger :
  forall l m, Inv m -> Inv (set_products_backup_ids l m).
Hypothesis Inv_item_ledger :
  forall l m, Inv m -> Inv (set_order_items_backup_ids l m).

Lemma replicate_product_main_invariant f clk s :
  Inv (main s) -> Inv (main (fst (replicate_product_to_backup f clk s))).
Proof.
  intros H. open_pass.
  destruct (pass pa_audit_id pb_backup_id copy_product f clk _ _ _) as [[l t] o].
  simpl. now apply Inv_product_ledger.
Qed.

Lemma replicate_order_item_main_invariant f clk s :
  Inv (main s) -> Inv (main (fst (replicate_order_item_to_backup f clk s))).
Proof.
  intros H. open_pass.
  destruct (pass oia_audit_id oib_backup_id copy_order_item f clk _ _ _) as [[l t] o].
  simpl. now apply Inv_item_ledger.
Qed.

Lemma both_passes_main_invariant fp cp fi ci s :
  Inv (main s) ->
  Inv (main (fst (and_then (replicate_product_to_backup fp cp s)
                           (replicate_order_item_to_backup fi ci)))).
Proof.
  intros H. pose proof (replicate_product_main_invariant fp cp s H) as H1.
  destruct (replicate_product_to_backup fp cp s) as [s1 [|err|]]; simpl in *; auto.
  now apply replicate_order_item_main_invariant.
Qed.

Lemma request_main_invariant e r s :
  r <> SeedDemo -> Inv (main s) -> Inv (main (fst (handle e r s))).
Proof.
  destruct r; simpl; intros NS H; try congruence.
  - now apply both_passes_main_invariant.
  - unfold add_supplier.
    destruct (insert_suppliers _ _ _ _ _ _ _ _ _ _) as [m'|err] eqn:E; simpl; eauto.
  - now apply Inv_deactivate.
  - unfold add_product.
    destruct (exec_insert_products _ _ _ _ _ _) as [m'|err] eqn:E; simpl; auto.
    apply (replicate_product_main_invariant _ _ (mkSystem m' (backup s))). eauto.
  - unfold add_order.
    destruct (insert_purchase_orders _ _ _ _ _) as [[id m']|err] eqn:E; simpl; eauto.
  - unfold add_item.
    destruct (exec_insert_purchase_order_items _ _ _ _ _ _ _) as [m'|err] eqn:E;
      simpl; auto.
    apply (replicate_order_item_main_invariant _ _ (mkSystem m' (backup s))). eauto.
Qed.

Lemma seed_inserts_main_invariant e m m' :
  seed_inserts e m = Ok m' -> Inv m -> Inv m'.
Proof.
  unfold seed_inserts.
  destruct (executemany _ 0%nat suppliers_demo m) as [m1|] eqn:E1; cbn [bind];
    [|discriminate].
  destruct (executemany _ 3%nat products_demo m1) as [m2|] eqn:E2; cbn [bind];
    [|discriminate].
  destruct (insert_purchase_orders _ _ _ _ m2) as [[oid m3]|] eqn:E3;
    cbn [bind fst snd]; [|discriminate].
  intros E4 H.
  assert (H1 : Inv m1).
  { revert E1 H. apply (executemany_rel (fun a b => Inv a -> Inv b)); auto.
    intros i [[[[[[[n c] ph] em] ad] ci] st] co] ma mb. apply Inv_supplier. }
  assert (H2 : Inv m2).
  { revert E2 H1. apply (executemany_rel (fun a b => Inv a -> Inv b)); auto.
    intros i [[n sku] pr] ma mb. apply Inv_product. }
  assert (H3 : Inv m3) by (eapply Inv_order; eassumption).
  revert E4 H3. apply (executemany_rel (fun a b => Inv a -> Inv b)); auto.
  intros i [[[o d] q] pr] ma mb. apply Inv_item.
Qed.

Hypothesis Inv_wipe : forall m, Inv m -> Inv (wiped m).

Lemma handle_main_invariant e r s :
  Inv (main s) -> Inv (main (fst (handle e r s))).
Proof.
  intros H. destruct (r) eqn:Er;
    try (rewrite <- Er; apply request_main_invariant; [congruence|exact H]).
  simpl. unfold seed_demo. rewrite wipe_ok.
  destruct (seed_inserts e (wiped (main s))) as [m1|err] eqn:E; simpl.
  - apply both_passes_main_invariant; simpl.
    eapply seed_inserts_main_invariant; [exact E|]. now apply Inv_wipe.
  - now apply Inv_wipe.
Qed.

Lemma run_main_invariant tr : forall s, Inv (main s) -> Inv (main (run tr s)).
Proof.
  induction tr as [|[e r] tr IH]; simpl; intros s H; [exact H|].
  apply IH. now apply handle_main_invariant.
Qed.
End MainInvariant.

(* ================================================================= *)
(** ** The constraints of the schema hold in every reachable state *)

Lemma largest_nonneg ids : 0 <= largest ids.
Proof. induction ids as [|x ids IH]; simpl; lia. Qed.

Lemma positive_keys_nil {R : Type} (key : R -> Z) : positive_keys key [].
Proof. split; constructor. Qed.

Lemma positive_keys_snoc {R : Type} (key : R -> Z) l x :
  positive_keys key l -> key x = largest (map key l) + 1 ->
  positive_keys key (l ++ [x]).
Proof.
  intros [Ha Hp] Hx. split.
  - apply sorted_snoc; [exact Ha|]. apply Forall_forall. intros y Hy.
    pose proof (largest_ge (map key l) (key y) (in_map _ _ _ Hy)). lia.
  - apply Forall_app. split; [exact Hp|].
    constructor; [|constructor]. pose proof (largest_nonneg (map key l)). lia.
Qed.

Lemma sorted_map {X Y : Type} (rel : Y -> Y -> Prop) (f : X -> Y) l :
  StronglySorted (fun a b => rel (f a) (f b)) l -> StronglySorted rel (map f l).
Proof.
  induction 1 as [|x l Hs IH Hx]; simpl; constructor; auto.
  apply Forall_map. exact Hx.
Qed.

Lemma positive_keys_map {R : Type} (key : R -> Z) (f : R -> R) l :
  (forall x, key (f x) = key x) -> positive_keys key l -> positive_keys key (map f l).
Proof.
  intros Hf [Ha Hp]. split.
  - unfold ascending in *.
    assert (E : map key (map f l) = map key l).
    { rewrite map_map. apply map_ext. exact Hf. }
    clear Hp. induction Ha as [|x l Hs IH Hx]; simpl; constructor.
    + apply IH. simpl in E. now inversion E.
    + apply Forall_map. eapply Forall_impl; [|exact Hx]. simpl.
      intros y Hy. now rewrite !Hf.
  - apply Forall_map. eapply Forall_impl; [|exact Hp]. simpl.
    intros y Hy. now rewrite Hf.
Qed.

Lemma ascending_NoDup {R : Type} (key : R -> Z) l :
  ascending key l -> NoDup (map key l).
Proof.
  induction 1 as [|x l Hs IH Hx]; simpl; constructor; auto.
  intros Hin. apply in_map_iff in Hin. destruct Hin as (y & Hy & Hin).
  rewrite Forall_forall in Hx. specialize (Hx y Hin). lia.
Qed.

Lemma ascending_filter {R : Type} (key : R -> Z) (p : R -> bool) l :
  ascending key l -> ascending key (filter p l).
Proof.
  induction 1 as [|x l Hs IH Hx]; simpl; [constructor|].
  destruct (p x); [|exact IH]. constructor; [exact IH|].
  apply Forall_forall. intros y Hy. apply filter_In in Hy.
  rewrite Forall_forall in Hx. now apply Hx.
Qed.

Ltac conjs := repeat match goal with |- _ /\ _ => split end.

Lemma primary_keys_reachable (tr : list (env * request)) :
  primary_keys (main (run tr initial)).
Proof.
  apply run_main_invariant; unfold primary_keys.
  - intros now name c ph em ad ci st co m m' E (Hs & Hp & Ho & Hi).
    apply insert_suppliers_ok in E. destruct E as (_ & ->). simpl.
    conjs; try assumption; now apply positive_keys_snoc.
  - intros id s (Hs & Hp & Ho & Hi). simpl. conjs; try assumption.
    apply positive_keys_map; [|exact Hs]. intros x. now destruct (_ =? _).
  - intros fault now name sku price m m' E (Hs & Hp & Ho & Hi).
    apply exec_insert_products_ok in E. destruct E as (_ & _ & _ & ->). simpl.
    conjs; try assumption; now apply positive_keys_snoc.
  - intros now sid st notes m id m' E (Hs & Hp & Ho & Hi).
    apply insert_purchase_orders_ok in E. destruct E as (_ & _ & -> & ->). simpl.
    conjs; try assumption; now apply positive_keys_snoc.
  - intros fault now oid desc qty price m m' E (Hs & Hp & Ho & Hi).
    apply exec_insert_purchase_order_items_ok in E.
    destruct E as (_ & _ & _ & _ & _ & ->). simpl.
    conjs; try assumption; now apply positive_keys_snoc.
  - intros l m H. exact H.
  - intros l m H. exact H.
  - intros m _. simpl. repeat split; constructor.
  - simpl. repeat split; constructor.
Qed.


Lemma existsb_In_key {R : Type} (key : R -> Z) k l :
  existsb (fun x => key x =? k) l = true -> exists x, In x l /\ key x = k.
Proof.
  intros H. apply existsb_exists in H. destruct H as (x & Hx & E).
  apply Z.eqb_eq in E. eauto.
Qed.

Lemma foreign_keys_reachable (tr : list (env * request)) :
  foreign_keys (main (run tr initial)).
Proof.
  apply run_main_invariant; unfold foreign_keys.
  - intros now name c ph em ad ci st co m m' E [Ho Hi].
    apply insert_suppliers_ok in E. destruct E as (_ & ->). simpl. split; [|exact Hi].
    intros o Hin. destruct (Ho o Hin) as (s & Hs & Es). exists s.
    split; [apply in_or_app; now left|exact Es].
  - intros id s [Ho Hi]. simpl. split; [|exact Hi].
    intros o Hin. destruct (Ho o Hin) as (x & Hx & Ex).
    eexists. split; [apply in_map; exact Hx|]. now destruct (_ =? _).
  - intros fault now name sku price m m' E H.
    apply exec_insert_products_ok in E. now destruct E as (_ & _ & _ & ->).
  - intros now sid st notes m id m' E [Ho Hi].
    apply insert_purchase_orders_ok in E. destruct E as (Es & _ & -> & ->). simpl.
    split.
    + intros o Hin. apply in_app_or in Hin. destruct Hin as [Hin|[<-|[]]]; auto.
      simpl. apply existsb_In_key in Es. exact Es.
    + intros i Hin. destruct (Hi i Hin) as [(o & Hin' & Eo) Hn]. split; [|exact Hn].
      exists o. split; [apply in_or_app; now left|exact Eo].
  - intros fault now oid desc qty price m m' E [Ho Hi].
    apply exec_insert_purchase_order_items_ok in E.
    destruct E as (_ & Eo & _ & _ & _ & ->). simpl. split; [exact Ho|].
    intros i Hin. apply in_app_or in Hin. destruct Hin as [Hin|[<-|[]]]; auto.
    simpl. split; [|reflexivity]. apply existsb_In_key in Eo. exact Eo.
  - intros l m H. exact H.
  - intros l m H. exact H.
  - intros m _. simpl. split; intros x [].
  - simpl. split; intros x [].
Qed.

(** X1.  Keys.  In every state the application reaches, the rows of
    [suppliers], [products], [purchase_orders] and [purchase_order_items]
    carry positive ids in strictly ascending order, so no id occurs twice (a
    fresh row gets one more than the largest id in its table); every
    purchase order names an existing supplier and every order item an
    existing order; and no order item names a product: the application
    never fills [purchase_order_items.product_id]. *)
Theorem keys_hold (tr : list (env * request)) :
  primary_keys (main (run tr initial)) /\ foreign_keys (main (run tr initial)).
Proof.
  split; [apply primary_keys_reachable|apply foreign_keys_reachable].
Qed.

(** X2.  CHECK constraints.  In every state the application reaches: every
    supplier has [is_active] 0 or 1; every product a price that is not NaN
    and not below zero, and [is_active] 1 (nothing ever deactivates a
    product); every order one of the four statuses; every order item a
    quantity above zero and a price not below zero. *)
Theorem check_constraints_hold (tr : list (env * request)) :
  check_constraints (main (run tr initial)).
Proof.
  apply run_main_invariant; unfold check_constraints.
  - intros now name c ph em ad ci st co m m' E (Hs & Hp & Ho & Hi).
    apply insert_suppliers_ok in E. destruct E as (_ & ->). simpl.
    conjs; try assumption. apply Forall_app. split; [exact Hs|].
    constructor; [now right|constructor].
  - intros id s (Hs & Hp & Ho & Hi). simpl. conjs; try assumption.
    apply Forall_map. eapply Forall_impl; [|exact Hs]. simpl.
    intros x Hx. destruct (_ =? _); [now left|exact Hx].
  - intros fault now name sku price m m' E (Hs & Hp & Ho & Hi).
    apply exec_insert_products_ok in E. destruct E as (_ & Hge & _ & ->). simpl.
    conjs; try assumption. apply Forall_app. split; [exact Hp|].
    constructor; [now split|constructor].
  - intros now sid st notes m id m' E (Hs & Hp & Ho & Hi).
    apply insert_purchase_orders_ok in E. destruct E as (_ & Hst & _ & ->). simpl.
    conjs; try assumption. apply Forall_app. split; [exact Ho|].
    constructor; [exact Hst|constructor].
  - intros fault now oid desc qty price m m' E (Hs & Hp & Ho & Hi).
    apply exec_insert_purchase_order_items_ok in E.
    destruct E as (_ & _ & Hq & Hpr & _ & ->). simpl.
    conjs; try assumption. apply Forall_app. split; [exact Hi|].
    constructor; [now split|constructor].
  - intros l m H. exact H.
  - intros l m H. exact H.
  - intros m _. simpl. repeat split; constructor.
  - simpl. repeat split; constructor.
Qed.

(* ================================================================= *)
(** ** Suppliers *)

Lemma emails_app l l' : emails (l ++ l') = emails l ++ emails l'.
Proof. unfold emails. apply flat_map_app. Qed.

Lemma email_taken em l :
  existsb (fun s => opt_eqb (s_email s) em) l = true <->
  exists e, em = Some e /\ In e (emails l).
Proof.
  rewrite existsb_exists. split.
  - intros (s & Hs & E). destruct (s_email s) as [x|] eqn:Ex, em as [e|];
      simpl in E; try discriminate.
    apply String.eqb_eq in E. subst x. exists e. split; [reflexivity|].
    unfold emails. apply in_flat_map. exists s. split; [exact Hs|].
    rewrite Ex. now left.
  - intros (e & -> & Hin). unfold emails in Hin. apply in_flat_map in Hin.
    destruct Hin as (s & Hs & Hin). exists s. split; [exact Hs|].
    destruct (s_email s) as [x|]; simpl in *; [|contradiction].
    destruct Hin as [->|[]]. apply String.eqb_refl.
Qed.

Lemma emails_deactivate id l :
  emails (map (fun r =>
                 if s_supplier_id r =? id
                 then mkSupplier (s_supplier_id r) (s_name r) (s_contact_name r)
                                 (s_phone r) (s_email r) (s_address r) (s_city r)
                                 (s_state r) (s_country r) 0 (s_created_at r)
                 else r) l) = emails l.
Proof.
  induction l as [|x l IH]; simpl; [reflexivity|].
  rewrite IH. now destruct (s_supplier_id x =? id).
Qed.

(** X3.  Unique emails.  In every state the application reaches, no two
    suppliers have the same email; suppliers without an email are not
    limited. *)
Theorem supplier_emails_unique (tr : list (env * request)) :
  unique_emails (main (run tr initial)).
Proof.
  apply run_main_invariant; unfold unique_emails.
  - intros now name c ph em ad ci st co m m' E H.
    apply insert_suppliers_ok in E. destruct E as (Hn & ->). simpl.
    rewrite emails_app. simpl. destruct em as [e|]; simpl.
    + apply (Permutation_NoDup (Permutation_cons_append (emails (suppliers m)) e)).
      constructor; [|exact H]. intros Hin.
      assert (T : existsb (fun s => opt_eqb (s_email s) (Some e)) (suppliers m) = true)
        by (apply email_taken; eauto).
      congruence.
    + now rewrite app_nil_r.
  - intros id s H. simpl. now rewrite emails_deactivate.
  - intros fault now name sku price m m' E H.
    apply exec_insert_products_ok in E. now destruct E as (_ & _ & _ & ->).
  - intros now sid st notes m id m' E H.
    apply insert_purchase_orders_ok in E. now destruct E as (_ & _ & _ & ->).
  - intros fault now oid desc qty price m m' E H.
    apply exec_insert_purchase_order_items_ok in E.
    now destruct E as (_ & _ & _ & _ & _ & ->).
  - intros l m H. exact H.
  - intros l m H. exact H.
  - intros m _. constructor.
  - constructor.
Qed.



Lemma supplier_deactivate_eq id s :
  supplier_deactivate id s
  = (with_suppliers (map (deactivate_row id) (suppliers (main s))) s, Returned).
Proof. reflexivity. Qed.

Lemma deactivate_row_id id r : s_supplier_id (deactivate_row id r) = s_supplier_id r.
Proof. unfold deactivate_row. now destruct (_ =? _). Qed.






(* ================================================================= *)
(** ** Requests that take the supplier table for a set of ids *)

Lemma replicate_product_with_suppliers f clk l s :
  replicate_product_to_backup f clk (with_suppliers l s)
  = (with_suppliers l (fst (replicate_product_to_backup f clk s)),
     snd (replicate_product_to_backup f clk s)).
Proof.
  open_pass. simpl.
  now destruct (pass pa_audit_id pb_backup_id copy_product f clk _ _ _) as [[k t] o].
Qed.

Lemma replicate_order_item_with_suppliers f clk l s :
  replicate_order_item_to_backup f clk (with_suppliers l s)
  = (with_suppliers l (fst (replicate_order_item_to_backup f clk s)),
     snd (replicate_order_item_to_backup f clk s)).
Proof.
  open_pass. simpl.
  now destruct (pass oia_audit_id oib_backup_id copy_order_item f clk _ _ _)
    as [[k t] o].
Qed.

Lemma exec_insert_products_with_suppliers fault now name sku price l m :
  exec_insert_products fault now name sku price (set_suppliers l m)
  = match exec_insert_products fault now name sku price m with
    | Ok m' => Ok (set_suppliers l m')
    | Err err => Err err
    end.
Proof.
  unfold exec_insert_products, insert_products, trg_products_audit, autoinc_insert.
  simpl. destruct (bind_real price); [|reflexivity].
  destruct (real_ge0 _); [|reflexivity].
  destruct (next_rowid _); simpl; [|reflexivity].
  destruct fault; [reflexivity|].
  now destruct (autoincrement_rowid _ _).
Qed.

Lemma exec_insert_items_with_suppliers fault now oid desc qty price l m :
  exec_insert_purchase_order_items fault now oid desc qty price (set_suppliers l m)
  = match exec_insert_purchase_order_items fault now oid desc qty price m with
    | Ok m' => Ok (set_suppliers l m')
    | Err err => Err err
    end.
Proof.
  unfold exec_insert_purchase_order_items, insert_purchase_order_items,
         trg_order_items_audit, autoinc_insert.
  simpl. destruct (negb _); [reflexivity|].
  destruct (bind_real qty); [|reflexivity].
  destruct (bind_real price); [|reflexivity].
  destruct (_ && _); [|reflexivity].
  destruct (next_rowid _); simpl; [|reflexivity].
  destruct fault; [reflexivity|].
  now destruct (autoincrement_rowid _ _).
Qed.

Lemma existsb_same_ids sid (l l' : list supplier) :
  map s_supplier_id l = map s_supplier_id l' ->
  existsb (fun s => s_supplier_id s =? sid) l
  = existsb (fun s => s_supplier_id s =? sid) l'.
Proof.
  revert l'. induction l as [|x l IH]; intros [|y l'] E; simpl in *;
    try discriminate; [reflexivity|].
  inversion E as [[Ex El]]. now rewrite Ex, (IH l' El).
Qed.

Lemma insert_purchase_orders_with_suppliers now sid st notes l m :
  map s_supplier_id l = map s_supplier_id (suppliers m) ->
  insert_purchase_orders now sid st notes (set_suppliers l m)
  = match insert_purchase_orders now sid st notes m with
    | Ok (id, m') => Ok (id, set_suppliers l m')
    | Err err => Err err
    end.
Proof.
  intros E. unfold insert_purchase_orders. simpl.
  rewrite (existsb_same_ids sid l (suppliers m) E).
  destruct (negb _); [reflexivity|].
  destruct (negb (status_ok st)); [reflexivity|].
  now destruct (next_rowid _).
Qed.

(** X6.  [is_active] is never consulted.  [dashboard], [add_product],
    [add_order] and [add_item] do to a state whose supplier table was
    replaced by one with the same ids exactly what they do to the state
    itself, with the same outcome.  So they commute with
    [supplier_deactivate]: an order is accepted for a deactivated supplier
    as for an active one. *)
Theorem is_active_not_consulted (e : env) (r : request) (s : system) :
  ignores_is_active r = true ->
  (forall l, map s_supplier_id l = map s_supplier_id (suppliers (main s)) ->
             handle e r (with_suppliers l s)
             = (with_suppliers l (fst (handle e r s)), snd (handle e r s))) /\
  (forall id, handle e r (fst (supplier_deactivate id s))
              = (fst (supplier_deactivate id (fst (handle e r s))),
                 snd (handle e r s))).
Proof.
  intros Hr.
  assert (G : forall l, map s_supplier_id l = map s_supplier_id (suppliers (main s)) ->
                        handle e r (with_suppliers l s)
                        = (with_suppliers l (fst (handle e r s)), snd (handle e r s))).
  { intros l El. destruct r; try discriminate; simpl.
    - unfold dashboard. rewrite replicate_product_with_suppliers.
      destruct (replicate_product_to_backup _ _ s) as [s1 [|err|]]; simpl; auto.
      apply replicate_order_item_with_suppliers.
    - unfold add_product. simpl. rewrite exec_insert_products_with_suppliers.
      destruct (exec_insert_products _ _ _ _ _ (main s)) as [m'|err]; [|reflexivity].
      apply (replicate_product_with_suppliers _ _ l (mkSystem m' (backup s))).
    - unfold add_order. simpl.
      rewrite (insert_purchase_orders_with_suppliers _ _ _ _ _ _ El).
      now destruct (insert_purchase_orders _ _ _ _ (main s)) as [[id m']|err].
    - unfold add_item. simpl. rewrite exec_insert_items_with_suppliers.
      destruct (exec_insert_purchase_order_items _ _ _ _ _ _ (main s)) as [m'|err];
        [|reflexivity].
      apply (replicate_order_item_with_suppliers _ _ l (mkSystem m' (backup s))). }
  split; [exact G|]. intros id. rewrite !supplier_deactivate_eq. simpl.
  rewrite G.
  - assert (Es : suppliers (main (fst (handle e r s))) = suppliers (main s)).
    { pose proof (G (suppliers (main s)) eq_refl) as Gs.
      assert (Hs : with_suppliers (suppliers (main s)) s = s)
        by now destruct s as [[] []].
      rewrite Hs in Gs.
      apply (f_equal (fun x => suppliers (main (fst x)))) in Gs. exact Gs. }
    now rewrite Es.
  - rewrite map_map. apply map_ext. intros x. apply deactivate_row_id.
Qed.

Lemma is_active_not_consulted_witness :
  handle (quiet 200) (AddOrder 1 None)
         (with_suppliers (suppliers (main (run bolt_order initial)))
                         (run bolt_order initial))
  = (with_suppliers (suppliers (main (run bolt_order initial)))
                    (fst (handle (quiet 200) (AddOrder 1 None)
                                 (run bolt_order initial))),
     snd (handle (quiet 200) (AddOrder 1 None) (run bolt_order initial))) /\
  snd (handle (quiet 200) (AddOrder 1 None)
              (fst (supplier_deactivate 1 (run bolt_order initial)))) = Returned.
Proof.
  destruct (is_active_not_consulted (quiet 200) (AddOrder 1 None)
              (run bolt_order initial) eq_refl) as [Hl Hd].
  split; [apply Hl; reflexivity|]. now rewrite Hd.
Defined.

(* ================================================================= *)
(** ** Invariants of both stores *)

Section SystemInvariant.
Variable Inv : system -> Prop.
Hypothesis Inv_supplier :
  forall now name c ph em ad ci st co m m' b,
    insert_suppliers now name c ph em ad ci st co m = Ok m' ->
    Inv (mkSystem m b) -> Inv (mkSystem m' b).
Hypothesis Inv_deactivate :
  forall id s, Inv s -> Inv (fst (supplier_deactivate id s)).
Hypothesis Inv_product :
  forall fault now name sku price m m' b,
    exec_insert_products fault now name sku price m = Ok m' ->
    Inv (mkSystem m b) -> Inv (mkSystem m' b).
Hypothesis Inv_order :
  forall now sid st notes m id m' b,
    insert_purchase_orders now sid st notes m = Ok (id, m') ->
    Inv (mkSystem m b) -> Inv (mkSystem m' b).
Hypothesis Inv_item :
  forall fault now oid desc qty price m m' b,
    exec_insert_purchase_order_items fault now oid desc qty price m = Ok m' ->
    Inv (mkSystem m b) -> Inv (mkSystem m' b).
Hypothesis Inv_replicate_product :
  forall f clk s, Inv s -> Inv (fst (replicate_product_to_backup f clk s)).
Hypothesis Inv_replicate_order_item :
  forall f clk s, Inv s -> Inv (fst (replicate_order_item_to_backup f clk s)).
Hypothesis Inv_wipe : forall s, Inv s -> Inv (mkSystem (wiped (main s)) (backup s)).

Lemma both_passes_invariant fp cp fi ci s :
  Inv s ->
  Inv (fst (and_then (replicate_product_to_backup fp cp s)
                     (replicate_order_item_to_backup fi ci))).
Proof.
  intros H. pose proof (Inv_replicate_product fp cp s H) as H1.
  destruct (replicate_product_to_backup fp cp s) as [s1 [|err|]]; simpl in *; auto.
Qed.

Lemma seed_inserts_invariant e m m' b :
  seed_inserts e m = Ok m' -> Inv (mkSystem m b) -> Inv (mkSystem m' b).
Proof.
  apply (seed_inserts_main_invariant (fun m => Inv (mkSystem m b))); eauto.
Qed.

Lemma handle_invariant e r s : Inv s -> Inv (fst (handle e r s)).
Proof.
  intros H. assert (Hs : Inv (mkSystem (main s) (backup s))) by now destruct s.
  destruct r; simpl.
  - now apply both_passes_invariant.
  - unfold add_supplier.
    destruct (insert_suppliers _ _ _ _ _ _ _ _ _ _) as [m'|err] eqn:E; simpl; eauto.
  - now apply Inv_deactivate.
  - unfold add_product.
    destruct (exec_insert_products _ _ _ _ _ _) as [m'|err] eqn:E; simpl; eauto.
  - unfold add_order.
    destruct (insert_purchase_orders _ _ _ _ _) as [[id m']|err] eqn:E; simpl; eauto.
  - unfold add_item.
    destruct (exec_insert_purchase_order_items _ _ _ _ _ _ _) as [m'|err] eqn:E;
      simpl; eauto.
  - unfold seed_demo. rewrite wipe_ok.
    destruct (seed_inserts e (wiped (main s))) as [m1|err] eqn:E; simpl.
    + apply both_passes_invariant. eapply seed_inserts_invariant; [exact E|].
      now apply Inv_wipe.
    + now apply Inv_wipe.
Qed.

Lemma run_invariant tr : forall s, Inv s -> Inv (run tr s).
Proof.
  induction tr as [|[e r] tr IH]; simpl; intros s H; [exact H|].
  apply IH. now apply handle_invariant.
Qed.
End SystemInvariant.

(* ================================================================= *)
(** ** Keys of the audit tables, the ledgers and the backup tables *)

Lemma largest_app l l' : largest (l ++ l') = Z.max (largest l) (largest l').
Proof.
  unfold largest. induction l as [|x l IH]; cbn [fold_right app].
  - pose proof (largest_nonneg l') as H. unfold largest in H. lia.
  - rewrite IH. lia.
Qed.

Lemma autoinc_keys_insert {R : Type} (rowid : R -> Z) (mk : Z -> R) t :
  (forall id, rowid (mk id) = id) ->
  autoinc_keys rowid t ->
  let id := Z.max (seq t) (largest (map rowid (rows t))) + 1 in
  autoinc_keys rowid (mkAutoinc (rows t ++ [mk id]) id).
Proof.
  intros Hmk (Ha & Hb & Hs). cbv zeta. unfold autoinc_keys. cbn [rows seq].
  split; [|split].
  - apply sorted_snoc; [exact Ha|]. apply Forall_forall. intros y Hy.
    rewrite Hmk.
    pose proof (largest_ge (map rowid (rows t)) (rowid y) (in_map _ _ _ Hy)). lia.
  - apply Forall_app. split.
    + eapply Forall_impl; [|exact Hb]. cbv beta. intros y Hy. lia.
    + constructor; [|constructor]. rewrite Hmk. lia.
  - lia.
Qed.

Lemma autoinc_keys_delete_all {R : Type} (rowid : R -> Z) t :
  autoinc_keys rowid t -> autoinc_keys rowid (autoinc_delete_all t).
Proof. intros (_ & _ & Hs). repeat split; try constructor. exact Hs. Qed.

Lemma ledger_of_more_audit {A : Type} (audit_id : A -> Z) audit audit' ledger :
  (forall a, In a audit -> In a audit') ->
  ledger_of audit_id audit ledger -> ledger_of audit_id audit' ledger.
Proof.
  intros Hsub [Hn Hin]. split; [exact Hn|].
  intros id Hid. destruct (Hin id Hid) as (a & Ha & E). eauto.
Qed.

Lemma NoDup_map_filter {X : Type} (f : X -> Z) (p : X -> bool) l :
  NoDup (map f l) -> NoDup (map f (filter p l)).
Proof.
  induction l as [|x l IH]; simpl; intros H; [constructor|].
  inversion H as [|? ? Hn Hd]; subst. destruct (p x); simpl; [|now apply IH].
  constructor; [|now apply IH]. intros Hin. apply Hn.
  apply in_map_iff in Hin. destruct Hin as (y & Ey & Hy).
  apply filter_In in Hy. rewrite <- Ey. apply in_map. tauto.
Qed.

Section PassKeys.
Context {A B : Type}.
Variable audit_id : A -> Z.
Variable backup_id : B -> Z.
Variable copy : A -> timestamp -> Z -> B.
Hypothesis copy_id : forall r now id, backup_id (copy r now id) = id.

Local Abbreviation loop := (replicate_rows audit_id backup_id copy).
Local Abbreviation pending := (select_pending audit_id).
Local Abbreviation run_pass := (pass audit_id backup_id copy).

Lemma select_pending_fresh audit ledger :
  NoDup (map audit_id audit) ->
  NoDup (map audit_id (pending audit ledger)) /\
  forall r, In r (pending audit ledger) -> In r audit /\ ~ In (audit_id r) ledger.
Proof.
  intros H. split; [now apply NoDup_map_filter|].
  intros r Hr. apply filter_In in Hr. destruct Hr as [Hin Hp]. split; [exact Hin|].
  unfold not_backed_up in Hp. apply negb_true_iff in Hp.
  intros Hl. apply existsb_eqb_In in Hl. congruence.
Qed.

(** The ledger a pass leaves: the old one, or the old one and the ids of
    the pending rows. *)
Lemma pass_ledger f clk audit ledger t :
  fst (fst (run_pass f clk audit ledger t)) = ledger \/
  fst (fst (run_pass f clk audit ledger t))
  = ledger ++ map audit_id (pending audit ledger).
Proof.
  unfold pass. destruct (read_fails f); [now left|].
  destruct (loop f clk 0 _ ledger t) as [[l1 t1]|] eqn:E; [|now left].
  apply (replicate_rows_ok audit_id backup_id copy (fun _ => tt) (fun _ => tt)
                           (fun _ _ _ => eq_refl)) in E.
  destruct E as [-> _]. destruct (halt f) as [[|]|]; simpl; auto.
Qed.

Lemma pass_ledger_of f clk audit ledger t :
  NoDup (map audit_id audit) ->
  ledger_of audit_id audit ledger ->
  ledger_of audit_id audit (fst (fst (run_pass f clk audit ledger t))).
Proof.
  intros Hn [Hl Hin]. destruct (pass_ledger f clk audit ledger t) as [->| ->];
    [now split|].
  destruct (select_pending_fresh audit ledger Hn) as [Hp Hf]. split.
  - apply NoDup_app; [exact Hl|exact Hp|].
    intros id H1 H2. apply in_map_iff in H2. destruct H2 as (r & <- & Hr).
    now apply (Hf r Hr).
  - intros id Hid. apply in_app_or in Hid. destruct Hid as [Hid|Hid]; [auto|].
    apply in_map_iff in Hid. destruct Hid as (r & <- & Hr).
    exists r. split; [apply (Hf r Hr)|reflexivity].
Qed.

Lemma insert_backup_keys now r t t' :
  insert_backup backup_id copy now r t = Ok t' ->
  autoinc_keys backup_id t -> autoinc_keys backup_id t'.
Proof.
  unfold insert_backup. intros E H. apply autoinc_insert_ok in E.
  destruct E as [-> _]. apply autoinc_keys_insert; [|exact H].
  intros id. apply copy_id.
Qed.

Lemma replicate_rows_keys f clk rs : forall i ledger t ledger' t',
  loop f clk i rs ledger t = Ok (ledger', t') ->
  autoinc_keys backup_id t -> autoinc_keys backup_id t'.
Proof.
  induction rs as [|r rs IH]; simpl; intros i ledger t ledger' t' H Hk.
  - now inversion H; subst.
  - destruct (backup_write_fails f i); [discriminate|].
    destruct (insert_backup backup_id copy (clk i) r t) as [t1|] eqn:E; simpl in H;
      [|discriminate].
    destruct (ledger_write_fails f i); [discriminate|].
    destruct (insert_backup_id (audit_id r) ledger) as [l1|]; simpl in H;
      [|discriminate].
    eapply IH; [exact H|]. eapply insert_backup_keys; eassumption.
Qed.

Lemma pass_backup_keys f clk audit ledger t :
  autoinc_keys backup_id t ->
  autoinc_keys backup_id (snd (fst (run_pass f clk audit ledger t))).
Proof.
  intros Hk. unfold pass. destruct (read_fails f); [exact Hk|].
  destruct (loop f clk 0 _ ledger t) as [[l1 t1]|] eqn:E; [|exact Hk].
  destruct (halt f) as [[|]|]; simpl; try exact Hk.
  eapply replicate_rows_keys; eassumption.
Qed.

(** A loop without faults over rows with fresh, distinct ids runs to its
    end when the backup table has room for them. *)
Lemma replicate_rows_returns clk rs : forall i ledger t,
  NoDup (map audit_id rs) ->
  (forall r, In r rs -> ~ In (audit_id r) ledger) ->
  room backup_id t (List.length rs) ->
  exists ledger' t', loop no_faults clk i rs ledger t = Ok (ledger', t').
Proof.
  induction rs as [|r rs IH]; intros i ledger t Hn Hf Hr; [simpl; eauto|].
  inversion Hn as [|? ? Hnin Hn']; subst.
  unfold room in Hr. cbn [List.length] in Hr. rewrite Nat2Z.inj_succ in Hr.
  cbn [replicate_rows no_faults backup_write_fails ledger_write_fails].
  unfold insert_backup, autoinc_insert, autoincrement_rowid.
  destruct (_ <? max_rowid) eqn:E; [|apply Z.ltb_ge in E; lia]. cbn [bind].
  unfold insert_backup_id.
  destruct (existsb (Z.eqb (audit_id r)) ledger) eqn:El.
  { apply existsb_eqb_In in El. now destruct (Hf r (or_introl eq_refl)). }
  cbn [bind]. apply IH; [exact Hn'| |].
  - intros x Hx Hin. apply in_app_or in Hin. destruct Hin as [Hin|[Hin|[]]].
    + now apply (Hf x (or_intror Hx)).
    + apply Hnin. rewrite Hin. now apply in_map.
  - unfold room. cbn [rows seq]. rewrite map_app, largest_app. cbn [map].
    rewrite copy_id. pose proof (largest_nonneg (map backup_id (rows t))) as H0.
    unfold largest in *. cbn [fold_right]. lia.
Qed.

Lemma pass_returns clk audit ledger t :
  NoDup (map audit_id audit) ->
  room backup_id t (List.length (pending audit ledger)) ->
  snd (run_pass no_faults clk audit ledger t) = Returned.
Proof.
  intros Hn Hr. destruct (select_pending_fresh audit ledger Hn) as [Hp Hf].
  destruct (replicate_rows_returns clk (pending audit ledger) 0 ledger t Hp
              (fun r Hr => proj2 (Hf r Hr)) Hr) as (l1 & t1 & E).
  unfold pass. simpl. now rewrite E.
Qed.
End PassKeys.

Lemma replicate_product_state f clk s :
  fst (replicate_product_to_backup f clk s)
  = let p := pass pa_audit_id pb_backup_id copy_product f clk
                  (rows (products_audit (main s))) (products_backup_ids (main s))
                  (products_backup (backup s)) in
    mkSystem (set_products_backup_ids (fst (fst p)) (main s))
             (set_products_backup (snd (fst p)) (backup s)).
Proof.
  open_pass.
  now destruct (pass pa_audit_id pb_backup_id copy_product f clk _ _ _) as [[l t] o].
Qed.

Lemma replicate_order_item_state f clk s :
  fst (replicate_order_item_to_backup f clk s)
  = let p := pass oia_audit_id oib_backup_id copy_order_item f clk
                  (rows (order_items_audit (main s)))
                  (order_items_backup_ids (main s))
                  (order_items_backup (backup s)) in
    mkSystem (set_order_items_backup_ids (fst (fst p)) (main s))
             (set_order_items_backup (snd (fst p)) (backup s)).
Proof.
  open_pass.
  now destruct (pass oia_audit_id oib_backup_id copy_order_item f clk _ _ _)
    as [[l t] o].
Qed.

Lemma replication_keys_hold tr : replication_keys (run tr initial).
Proof.
  apply run_invariant; unfold replication_keys, audit_keys, ledgers_of_audit.
  - intros now name c ph em ad ci st co m m' b E H.
    apply insert_suppliers_ok in E. now destruct E as (_ & ->).
  - intros id s H. exact H.
  - intros fault now name sku price m m' b E ((Kp & Ki) & (Lp & Li) & Bp & Bi).
    apply exec_insert_products_ok in E. destruct E as (_ & _ & _ & ->).
    cbn [main backup products_audit order_items_audit products_backup_ids
         order_items_backup_ids set_products_audit set_products].
    conjs; try assumption.
    + apply (autoinc_keys_insert pa_audit_id
               (fun id => mkProductAudit id _ name sku _ now)); auto.
    + eapply ledger_of_more_audit; [|exact Lp]. cbn [rows].
      intros a Ha. apply in_or_app. now left.
  - intros now sid st notes m id m' b E H.
    apply insert_purchase_orders_ok in E. now destruct E as (_ & _ & _ & ->).
  - intros fault now oid desc qty price m m' b E ((Kp & Ki) & (Lp & Li) & Bp & Bi).
    apply exec_insert_purchase_order_items_ok in E.
    destruct E as (_ & _ & _ & _ & _ & ->).
    cbn [main backup products_audit order_items_audit products_backup_ids
         order_items_backup_ids set_order_items_audit set_purchase_order_items].
    conjs; try assumption.
    + apply (autoinc_keys_insert oia_audit_id
               (fun id => mkItemAudit id _ oid None desc _ _ now)); auto.
    + eapply ledger_of_more_audit; [|exact Li]. cbn [rows].
      intros a Ha. apply in_or_app. now left.
  - intros f clk s ((Kp & Ki) & (Lp & Li) & Bp & Bi).
    rewrite replicate_product_state. cbv zeta.
    cbn [main backup products_audit order_items_audit products_backup_ids
         order_items_backup_ids products_backup order_items_backup
         set_products_backup_ids set_products_backup].
    conjs; try assumption.
    + apply pass_ledger_of; [|exact Lp]. apply ascending_NoDup, Kp.
    + apply pass_backup_keys; [apply copy_product_id|exact Bp].
  - intros f clk s ((Kp & Ki) & (Lp & Li) & Bp & Bi).
    rewrite replicate_order_item_state. cbv zeta.
    cbn [main backup products_audit order_items_audit products_backup_ids
         order_items_backup_ids products_backup order_items_backup
         set_order_items_backup_ids set_order_items_backup].
    conjs; try assumption.
    + apply pass_ledger_of; [|exact Li]. apply ascending_NoDup, Ki.
    + apply pass_backup_keys; [apply copy_order_item_id|exact Bi].
  - intros s ((Kp & Ki) & (Lp & Li) & Bp & Bi).
    cbn [main backup products_audit order_items_audit products_backup_ids
         order_items_backup_ids wiped].
    conjs; try assumption; try (now apply autoinc_keys_delete_all);
      (split; [constructor|intros id []]).
  - cbn. conjs; try assumption;
      try (split; [constructor|split; [constructor|reflexivity]]);
      (split; [constructor|intros id []]).
Qed.

(** X7.  Audit ids.  In every state the application reaches, the rows of
    each audit table carry positive ids in strictly ascending order, none
    above the table's AUTOINCREMENT counter.  And an id is never used again:
    a row of an audit table in any later state that has the id of a row of
    an earlier state is that row, also when [seed_demo] emptied the table in
    between. *)
Theorem audit_ids_never_reused (tr1 tr2 : list (env * request)) :
  let s1 := run tr1 initial in
  let s2 := run tr2 s1 in
  audit_keys (main s1) /\
  (forall a a', In a (rows (products_audit (main s1))) ->
                In a' (rows (products_audit (main s2))) ->
                pa_audit_id a' = pa_audit_id a -> a' = a) /\
  (forall a a', In a (rows (order_items_audit (main s1))) ->
                In a' (rows (order_items_audit (main s2))) ->
                oia_audit_id a' = oia_audit_id a -> a' = a).
Proof.
  cbv zeta. destruct (replication_keys_hold tr1) as (K & _). split; [exact K|].
  destruct K as ((Ap & Bp & _) & (Ai & Bi & _)).
  set (s1 := run tr1 initial) in *.
  assert (J : (seq (products_audit (main s1))
               <= seq (products_audit (main (run tr2 s1))) /\
               forall a', In a' (rows (products_audit (main (run tr2 s1)))) ->
                          pa_audit_id a' <= seq (products_audit (main s1)) ->
                          In a' (rows (products_audit (main s1)))) /\
              (seq (order_items_audit (main s1))
               <= seq (order_items_audit (main (run tr2 s1))) /\
               forall a', In a' (rows (order_items_audit (main (run tr2 s1)))) ->
                          oia_audit_id a' <= seq (order_items_audit (main s1)) ->
                          In a' (rows (order_items_audit (main s1))))).
  { apply (run_main_invariant
             (fun m =>
                (seq (products_audit (main s1)) <= seq (products_audit m) /\
                 forall a', In a' (rows (products_audit m)) ->
                            pa_audit_id a' <= seq (products_audit (main s1)) ->
                            In a' (rows (products_audit (main s1)))) /\
                (seq (order_items_audit (main s1)) <= seq (order_items_audit m) /\
                 forall a', In a' (rows (order_items_audit m)) ->
                            oia_audit_id a' <= seq (order_items_audit (main s1)) ->
                            In a' (rows (order_items_audit (main s1)))))).
    - intros now name c ph em ad ci st co m m' E H.
      apply insert_suppliers_ok in E. now destruct E as (_ & ->).
    - intros id s H. exact H.
    - intros fault now name sku price m m' E ((Hs & Hr) & Hi).
      apply exec_insert_products_ok in E. destruct E as (_ & _ & _ & ->).
      cbn [products_audit order_items_audit set_products_audit set_products rows seq].
      split; [split|exact Hi]; [lia|].
      intros a' Hin Hle. apply in_app_or in Hin. destruct Hin as [Hin|[<-|[]]]; auto.
      cbn [pa_audit_id] in Hle. lia.
    - intros now sid st notes m id m' E H.
      apply insert_purchase_orders_ok in E. now destruct E as (_ & _ & _ & ->).
    - intros fault now oid desc qty price m m' E (Hp & (Hs & Hr)).
      apply exec_insert_purchase_order_items_ok in E.
      destruct E as (_ & _ & _ & _ & _ & ->).
      cbn [products_audit order_items_audit set_order_items_audit
           set_purchase_order_items rows seq].
      split; [exact Hp|split]; [lia|].
      intros a' Hin Hle. apply in_app_or in Hin. destruct Hin as [Hin|[<-|[]]]; auto.
      cbn [oia_audit_id] in Hle. lia.
    - intros l m H. exact H.
    - intros l m H. exact H.
    - intros m ((Hs & _) & (Hs' & _)). simpl. repeat split; auto; intros a' [].
    - repeat split; auto; lia. }
  destruct J as ((_ & Jp) & (_ & Ji)). split.
  - intros a a' Ha Ha' E.
    apply (NoDup_map_eq pa_audit_id _ (ascending_NoDup _ _ Ap)); auto.
    apply Jp; [exact Ha'|]. rewrite E.
    rewrite Forall_forall in Bp. apply (Bp a Ha).
  - intros a a' Ha Ha' E.
    apply (NoDup_map_eq oia_audit_id _ (ascending_NoDup _ _ Ai)); auto.
    apply Ji; [exact Ha'|]. rewrite E.
    rewrite Forall_forall in Bi. apply (Bi a Ha).
Qed.

Lemma audit_ids_never_reused_witness :
  mkProductAudit 1 1 "3-Pin Power Cable" (Some "PC-3PIN-IND") (real_of_pos 160) 100
  = mkProductAudit 1 1 "3-Pin Power Cable" (Some "PC-3PIN-IND") (real_of_pos 160) 100 /\
  mkItemAudit 1 1 1 None "Bolt" (real_of_pos 2) (real_of_pos 5) 100
  = mkItemAudit 1 1 1 None "Bolt" (real_of_pos 2) (real_of_pos 5) 100.
Proof.
  split.
  - apply (audit_ids_never_reused [(quiet 100, cable)] [(quiet 200, widget)]).
    + cbn. now left.
    + cbn. now left.
    + reflexivity.
  - apply (audit_ids_never_reused
             (bolt_order ++
              [(quiet 100, AddItem 1 "Bolt" (real_of_pos 2) (real_of_pos 5))])
             [(quiet 200, widget)]).
    + cbn. now left.
    + cbn. now left.
    + reflexivity.
Defined.

(** X8.  Ledger and backup keys.  In every state the application reaches, a
    ledger table holds no [audit_id] twice and every entry is the id of a
    row now in the audit table; and the rows of each backup table carry
    positive [backup_id]s in strictly ascending order, none above the
    table's AUTOINCREMENT counter. *)
Theorem ledger_entries_are_audit_ids (tr : list (env * request)) :
  ledgers_of_audit (main (run tr initial)) /\
  autoinc_keys pb_backup_id (products_backup (backup (run tr initial))) /\
  autoinc_keys oib_backup_id (order_items_backup (backup (run tr initial))).
Proof. now destruct (replication_keys_hold tr) as (_ & L & Bp & Bi). Qed.

(* ================================================================= *)
(** ** Replication on reachable states *)

Lemma replicate_product_done f clk s s' :
  replicate_product_to_backup f clk s = (s', Returned) ->
  s' = fst (replicate_product_to_backup f clk s) /\
  pending_products s' = [] /\
  exists new, rows (products_backup (backup s')) =
              rows (products_backup (backup s)) ++ new /\
              map pb_fields new = map pa_fields (pending_products s).
Proof.
  intros R. split; [now rewrite R|]. open_pass.
  destruct (pass pa_audit_id pb_backup_id copy_product f clk _ _ _)
    as [[l t] o] eqn:P.
  inversion R; subst; clear R. simpl.
  pose proof (pass_returned _ _ _ pa_fields pb_fields copy_product_fields
                            _ _ _ _ _ _ _ P) as (_ & N & D).
  split; [now destruct s as [[] []]|exact N].
Qed.

Lemma replicate_order_item_done f clk s s' :
  replicate_order_item_to_backup f clk s = (s', Returned) ->
  s' = fst (replicate_order_item_to_backup f clk s) /\
  pending_order_items s' = [] /\
  exists new, rows (order_items_backup (backup s')) =
              rows (order_items_backup (backup s)) ++ new /\
              map oib_fields new = map oia_fields (pending_order_items s).
Proof.
  intros R. split; [now rewrite R|]. open_pass.
  destruct (pass oia_audit_id oib_backup_id copy_order_item f clk _ _ _)
    as [[l t] o] eqn:P.
  inversion R; subst; clear R. simpl.
  pose proof (pass_returned _ _ _ oia_fields oib_fields copy_order_item_fields
                            _ _ _ _ _ _ _ P) as (_ & N & D).
  split; [now destruct s as [[] []]|exact N].
Qed.

Lemma replicate_product_returns clk s :
  NoDup (map pa_audit_id (rows (products_audit (main s)))) ->
  room pb_backup_id (products_backup (backup s)) (List.length (pending_products s)) ->
  snd (replicate_product_to_backup no_faults clk s) = Returned.
Proof.
  intros Hn Hr. open_pass.
  pose proof (pass_returns pa_audit_id pb_backup_id copy_product copy_product_id
                           clk _ _ _ Hn Hr) as P.
  now destruct (pass pa_audit_id pb_backup_id copy_product no_faults clk _ _ _)
    as [[l t] o].
Qed.

Lemma replicate_order_item_returns clk s :
  NoDup (map oia_audit_id (rows (order_items_audit (main s)))) ->
  room oib_backup_id (order_items_backup (backup s))
       (List.length (pending_order_items s)) ->
  snd (replicate_order_item_to_backup no_faults clk s) = Returned.
Proof.
  intros Hn Hr. open_pass.
  pose proof (pass_returns oia_audit_id oib_backup_id copy_order_item
                           copy_order_item_id clk _ _ _ Hn Hr) as P.
  now destruct (pass oia_audit_id oib_backup_id copy_order_item no_faults clk _ _ _)
    as [[l t] o].
Qed.

(** X9.  Replication returns.  From every state the application reaches, a
    replication routine that meets no storage failure returns - no
    [IntegrityError] from the ledger's primary key, the pending rows having
    distinct ids that the ledger lacks - provided the backup table has
    rowids left for the pending rows. *)
Theorem replication_returns (tr : list (env * request)) (clk : nat -> timestamp) :
  let s := run tr initial in
  (room pb_backup_id (products_backup (backup s)) (List.length (pending_products s)) ->
   snd (replicate_product_to_backup no_faults clk s) = Returned) /\
  (room oib_backup_id (order_items_backup (backup s))
        (List.length (pending_order_items s)) ->
   snd (replicate_order_item_to_backup no_faults clk s) = Returned).
Proof.
  cbv zeta. destruct (replication_keys_hold tr) as (((Ap & _) & (Ai & _)) & _).
  split; intros Hr.
  - apply replicate_product_returns; [apply ascending_NoDup, Ap|exact Hr].
  - apply replicate_order_item_returns; [apply ascending_NoDup, Ai|exact Hr].
Qed.

Lemma replication_returns_witness :
  snd (replicate_product_to_backup no_faults (fun _ => 200) product_pending)
  = Returned /\
  snd (replicate_order_item_to_backup no_faults (fun _ => 200) item_pending)
  = Returned.
Proof.
  split.
  - apply (replication_returns [(backup_down 100, widget)] (fun _ => 200)).
    unfold room. cbn. unfold max_rowid. lia.
  - apply (replication_returns
             (bolt_order ++
              [(item_backup_down 100,
                AddItem 1 "Bolt" (real_of_pos 2) (real_of_pos 5))])
             (fun _ => 200)).
    unfold room. cbn. unfold max_rowid. lia.
Defined.

(* ================================================================= *)
(** ** Completeness and failure of a pass in the states the application
       reaches *)










(** X10.  [dashboard] brings the backup up to date.  From every state the
    application reaches, a [dashboard] request that meets no storage failure
    and finds rowids left in the backup tables returns, leaves no audit row
    of either kind pending, and changes no business or audit table, so that
    its three counts are those of the state it started from. *)
Theorem dashboard_syncs (tr : list (env * request)) (e : env) :
  let s := run tr initial in
  fault_free e ->
  room pb_backup_id (products_backup (backup s)) (List.length (pending_products s)) ->
  room oib_backup_id (order_items_backup (backup s))
       (List.length (pending_order_items s)) ->
  snd (dashboard e s) = Returned /\
  pending_products (fst (dashboard e s)) = [] /\
  pending_order_items (fst (dashboard e s)) = [] /\
  entities_unchanged (main s) (main (fst (dashboard e s))) /\
  dashboard_counts (main (fst (dashboard e s))) = dashboard_counts (main s).
Proof.
  cbv zeta. intros (_ & Fp & Fi) Rp Ri.
  destruct (replication_keys_hold tr) as (((Ap & _) & (Ai & _)) & _).
  set (s := run tr initial) in *.
  unfold dashboard. rewrite Fp, Fi.
  pose proof (replicate_product_returns (product_clock e) s
                (ascending_NoDup _ _ Ap) Rp) as Op.
  pose proof (replicate_product_effect no_faults (product_clock e) s) as Ep.
  destruct (replicate_product_to_backup no_faults (product_clock e) s)
    as [s1 o1] eqn:P1.
  simpl in Op, Ep. subst o1.
  destruct (replicate_product_done _ _ _ _ P1) as (_ & Np & _).
  destruct Ep as ((Es & Epr & Eo & Ei & Epa & Eia) & El & Eb & _).
  cbn [and_then].
  assert (Pi : pending_order_items s1 = pending_order_items s).
  { unfold pending_order_items. now rewrite Eia, El. }
  pose proof (replicate_order_item_returns (item_clock e) s1) as Oi.
  rewrite Eia, Eb, Pi in Oi. specialize (Oi (ascending_NoDup _ _ Ai) Ri).
  pose proof (replicate_order_item_effect no_faults (item_clock e) s1) as Ee.
  destruct (replicate_order_item_to_backup no_faults (item_clock e) s1)
    as [s2 o2] eqn:P2.
  simpl in Oi, Ee. subst o2.
  destruct (replicate_order_item_done _ _ _ _ P2) as (_ & Ni & _).
  destruct Ee as ((Es' & Epr' & Eo' & Ei' & Epa' & Eia') & El' & _).
  cbn [fst snd]. conjs; try reflexivity; try assumption; try congruence.
  - unfold pending_products in *. now rewrite Epa', El'.
  - unfold entities_unchanged. conjs; congruence.
  - unfold dashboard_counts. now rewrite Es', Epr', Eo', Es, Epr, Eo.
Qed.

Lemma dashboard_syncs_witness :
  snd (dashboard (quiet 200) product_pending) = Returned /\
  pending_products (fst (dashboard (quiet 200) product_pending)) = [].
Proof.
  destruct (dashboard_syncs [(backup_down 100, widget)] (quiet 200)) as (A & B & _).
  - repeat split.
  - unfold room. cbn. unfold max_rowid. lia.
  - unfold room. cbn. unfold max_rowid. lia.
  - now split.
Defined.

Lemma fresh_id_not_ledgered {A : Type} (audit_id : A -> Z) (t : autoinc A) ledger :
  autoinc_keys audit_id t -> ledger_of audit_id (rows t) ledger ->
  existsb (Z.eqb (Z.max (seq t) (largest (map audit_id (rows t))) + 1)) ledger = false.
Proof.
  intros (_ & Hb & _) [_ Hin].
  destruct (existsb _ ledger) eqn:E; [|reflexivity].
  apply existsb_eqb_In in E. destruct (Hin _ E) as (a & Ha & Ea).
  rewrite Forall_forall in Hb. specialize (Hb a Ha). lia.
Qed.

(** X11.  An insert is backed up at once.  From every state the application
    reaches, when [add_product] returns it has appended one product with
    the next id and the values given, the price as the [REAL] column holds
    it ([-0.0] is held as [+0.0]), and the backup store has gained, in this
    order, one row for each audit row that was pending before and one for
    the new product, each with the snapshot fields; nothing is left
    pending.  Likewise [add_item], for quantity and price. *)
Theorem insert_is_backed_up (tr : list (env * request)) (e : env) (s' : system) :
  let s := run tr initial in
  (forall name sku price,
      add_product e name sku price s = (s', Returned) ->
      let p := mkProduct (largest (map p_product_id (products (main s))) + 1)
                         name (Some sku) (store_real price) 1 (date (clock e 0)) in
      products (main s') = products (main s) ++ [p] /\
      pending_products s' = [] /\
      exists new, rows (products_backup (backup s')) =
                  rows (products_backup (backup s)) ++ new /\
                  map pb_fields new =
                  map pa_fields (pending_products s) ++ [product_snapshot p]) /\
  (forall oid desc qty price,
      add_item e oid desc qty price s = (s', Returned) ->
      let i := mkItem (largest (map oi_item_id (purchase_order_items (main s))) + 1)
                      oid None desc (store_real qty) (store_real price) in
      purchase_order_items (main s') = purchase_order_items (main s) ++ [i] /\
      pending_order_items s' = [] /\
      exists new, rows (order_items_backup (backup s')) =
                  rows (order_items_backup (backup s)) ++ new /\
                  map oib_fields new =
                  map oia_fields (pending_order_items s) ++ [item_snapshot i]).
Proof.
  cbv zeta. destruct (replication_keys_hold tr) as ((Kp & Ki) & (Lp & Li) & _).
  set (s := run tr initial) in *. split.
  - intros name sku price. unfold add_product.
    destruct (exec_insert_products _ _ _ _ _ (main s)) as [m'|] eqn:E;
      [|discriminate].
    apply exec_insert_products_ok in E. destruct E as (_ & _ & _ & Em).
    intros R.
    pose proof (replicate_product_effect (product_faults e) (product_clock e)
                                         (mkSystem m' (backup s))) as Eff.
    destruct (replicate_product_done _ _ _ _ R) as (Es & Np & new & Hn & Hf).
    cbv zeta in Eff. rewrite <- Es in Eff. destruct Eff as ((_ & Epr & _) & _).
    cbn [main backup] in Epr, Hn. subst m'.
    cbn [set_products_audit set_products products] in Epr.
    split; [exact Epr|]. split; [exact Np|]. exists new. split; [exact Hn|].
    rewrite Hf. unfold pending_products, select_pending.
    cbn [main products_audit products_backup_ids set_products_audit set_products
         rows].
    rewrite filter_app. cbn [filter]. unfold not_backed_up at 2.
    cbn [pa_audit_id]. rewrite (fresh_id_not_ledgered _ _ _ Kp Lp).
    cbn [negb]. now rewrite map_app.
  - intros oid desc qty price. unfold add_item.
    destruct (exec_insert_purchase_order_items _ _ _ _ _ _ (main s)) as [m'|] eqn:E;
      [|discriminate].
    apply exec_insert_purchase_order_items_ok in E.
    destruct E as (_ & _ & _ & _ & _ & Em).
    intros R.
    pose proof (replicate_order_item_effect (item_faults e) (item_clock e)
                                            (mkSystem m' (backup s))) as Eff.
    destruct (replicate_order_item_done _ _ _ _ R) as (Es & Np & new & Hn & Hf).
    cbv zeta in Eff. rewrite <- Es in Eff.
    destruct Eff as ((_ & _ & _ & Eit & _) & _).
    cbn [main backup] in Eit, Hn. subst m'.
    cbn [set_order_items_audit set_purchase_order_items purchase_order_items] in Eit.
    split; [exact Eit|]. split; [exact Np|]. exists new. split; [exact Hn|].
    rewrite Hf. unfold pending_order_items, select_pending.
    cbn [main order_items_audit order_items_backup_ids set_order_items_audit
         set_purchase_order_items rows].
    rewrite filter_app. cbn [filter]. unfold not_backed_up at 2.
    cbn [oia_audit_id]. rewrite (fresh_id_not_ledgered _ _ _ Ki Li).
    cbn [negb]. now rewrite map_app.
Qed.

Lemma insert_is_backed_up_witness :
  (exists new,
      rows (products_backup (backup (fst (add_product (quiet 200) "Widget" "W-1"
                                                      widget_price
                                                      (run [(quiet 100, cable)]
                                                           initial)))))
      = rows (products_backup (backup (run [(quiet 100, cable)] initial))) ++ new) /\
  (exists new,
      rows (order_items_backup
              (backup (fst (add_item (quiet 200) 1 "Bolt" (real_of_pos 2)
                                     (real_of_pos 5) (run bolt_order initial)))))
      = rows (order_items_backup (backup (run bolt_order initial))) ++ new) /\
  products (main (fst (add_product (quiet 200) "Sample" "S-0" (S754_zero true)
                                   initial)))
  = [mkProduct 1 "Sample" (Some "S-0") (S754_zero false) 1 0].
Proof.
  split; [|split].
  - destruct (insert_is_backed_up [(quiet 100, cable)] (quiet 200)
                (fst (add_product (quiet 200) "Widget" "W-1" widget_price
                                  (run [(quiet 100, cable)] initial))))
      as [Hp _].
    destruct (Hp "Widget" "W-1" widget_price eq_refl) as (_ & _ & new & Hn & _).
    now exists new.
  - destruct (insert_is_backed_up bolt_order (quiet 200)
                (fst (add_item (quiet 200) 1 "Bolt" (real_of_pos 2) (real_of_pos 5)
                               (run bolt_order initial))))
      as [_ Hi].
    destruct (Hi 1 "Bolt" (real_of_pos 2) (real_of_pos 5) eq_refl)
      as (_ & _ & new & Hn & _).
    now exists new.
  - destruct (insert_is_backed_up [] (quiet 200)
                (fst (add_product (quiet 200) "Sample" "S-0" (S754_zero true)
                                  initial)))
      as [Hp _].
    destruct (Hp "Sample" "S-0" (S754_zero true) eq_refl) as (Hn & _).
    exact Hn.
Defined.

(* ================================================================= *)
(** ** What the inserting requests accept *)



(* ================================================================= *)
(** ** Nothing is deleted but by [seed_demo] *)

Lemma grows_snoc {X : Type} (l0 l : list X) x : grows l0 l -> grows l0 (l ++ [x]).
Proof. intros [a ->]. exists (a ++ [x]). now rewrite app_assoc. Qed.

(** X13.  Append-only tables.  Every request other than [seed_demo] leaves
    each row of [products], [purchase_orders], [purchase_order_items] and of
    both audit tables in place and unchanged, adding rows only at the end,
    and removes no supplier. *)
Theorem only_seed_demo_deletes (e : env) (r : request) (s : system) :
  r <> SeedDemo -> nothing_deleted (main s) (main (fst (handle e r s))).
Proof.
  intros NS.
  apply (request_main_invariant (nothing_deleted (main s))); auto;
    unfold nothing_deleted.
  - intros now name c ph em ad ci st co m m' E H.
    apply insert_suppliers_ok in E. destruct E as (_ & ->). simpl.
    conjs; try apply H. rewrite map_app. simpl. now apply grows_snoc, H.
  - intros id s0 H. simpl. conjs; try apply H.
    rewrite map_map.
    rewrite (map_ext (fun x => s_supplier_id (if s_supplier_id x =? id then _ else x))
                     s_supplier_id); [apply H|].
    intros x. now destruct (_ =? _).
  - intros fault now name sku price m m' E H.
    apply exec_insert_products_ok in E. destruct E as (_ & _ & _ & ->). simpl.
    conjs; try apply H; now apply grows_snoc, H.
  - intros now sid st notes m id m' E H.
    apply insert_purchase_orders_ok in E. destruct E as (_ & _ & _ & ->). simpl.
    conjs; try apply H; now apply grows_snoc, H.
  - intros fault now oid desc qty price m m' E H.
    apply exec_insert_purchase_order_items_ok in E.
    destruct E as (_ & _ & _ & _ & _ & ->). simpl.
    conjs; try apply H; now apply grows_snoc, H.
  - conjs; apply grows_refl.
Qed.

Lemma only_seed_demo_deletes_witness :
  nothing_deleted (main product_pending)
                  (main (fst (handle (quiet 200) cable product_pending))).
Proof. apply only_seed_demo_deletes. discriminate. Defined.

(* ================================================================= *)
(** ** The listing pages *)

(** X14.  Newest first.  In every state the application reaches, the
    suppliers page and the products page list their table backwards: the
    row inserted last comes first, and every row of the table is listed
    once, deactivated suppliers among them. *)
Theorem pages_list_newest_first (tr : list (env * request)) :
  let m := main (run tr initial) in
  suppliers_page m = rev (suppliers m) /\ products_page m = rev (products m).
Proof.
  cbv zeta. destruct (primary_keys_reachable tr) as ((Hs & _) & (Hp & _) & _).
  unfold suppliers_page, products_page. split; now apply order_by_desc_rev.
Qed.

Section UniqueKey.
Context {X : Type}.
Variable key : X -> Z.

Lemma filter_absent k l :
  (forall y, In y l -> key y <> k) -> filter (fun y => key y =? k) l = [].
Proof.
  intros H. apply filter_none. intros y Hy. apply Z.eqb_neq. now apply H.
Qed.

Lemma filter_unique x l :
  ascending key l -> In x l -> filter (fun y => key y =? key x) l = [x].
Proof.
  unfold ascending. induction 1 as [|y l Hs IH Hy]; simpl; [contradiction|].
  rewrite Forall_forall in Hy. intros [->|Hin].
  - rewrite Z.eqb_refl. f_equal. apply filter_absent.
    intros z Hz. specialize (Hy z Hz). lia.
  - specialize (Hy x Hin). destruct (key y =? key x) eqn:E.
    + apply Z.eqb_eq in E. lia.
    + now apply IH.
Qed.

Lemma flat_map_absent {T : Type} (g : X -> list T) k l :
  (forall y, In y l -> key y <> k) ->
  flat_map (fun y => if key y =? k then g y else []) l = [].
Proof.
  induction l as [|y l IH]; simpl; intros H; [reflexivity|].
  destruct (key y =? k) eqn:E.
  - apply Z.eqb_eq in E. now destruct (H y (or_introl eq_refl)).
  - apply IH. intros z Hz. apply H. now right.
Qed.

Lemma flat_map_unique {T : Type} (g : X -> list T) x l :
  ascending key l -> In x l ->
  flat_map (fun y => if key y =? key x then g y else []) l = g x.
Proof.
  unfold ascending. induction 1 as [|y l Hs IH Hy]; simpl; [contradiction|].
  rewrite Forall_forall in Hy. intros [->|Hin].
  - rewrite Z.eqb_refl, flat_map_absent; [apply app_nil_r|].
    intros z Hz. specialize (Hy z Hz). lia.
  - specialize (Hy x Hin). destruct (key y =? key x) eqn:E.
    + apply Z.eqb_eq in E. lia.
    + now apply IH.
Qed.
End UniqueKey.

Lemma Forall2_rev_rev {X Y : Type} (P : X -> Y -> Prop) l l' :
  Forall2 P l l' -> Forall2 P (rev l) (rev l').
Proof.
  induction 1 as [|x y l l' H _ IH]; simpl; [constructor|].
  apply Forall2_app; [exact IH|]. now repeat constructor.
Qed.

Lemma Forall2_filter_key {X Y : Type} (P : X -> Y -> Prop)
      (kx : X -> Z) (ky : Y -> Z) k l l' :
  (forall x y, P x y -> kx x = ky y) ->
  Forall2 P l l' ->
  Forall2 P (filter (fun x => kx x =? k) l) (filter (fun y => ky y =? k) l').
Proof.
  intros Hk. induction 1 as [|x y l l' H _ IH]; simpl; [constructor|].
  rewrite (Hk x y H). destruct (ky y =? k); [now constructor|exact IH].
Qed.

Lemma ascending_same_keys {X Y : Type} (kx : X -> Z) (ky : Y -> Z) l l' :
  map kx l = map ky l' -> ascending ky l' -> ascending kx l.
Proof.
  unfold ascending. intros E H. revert l E.
  induction H as [|y l' Hs IH Hy]; intros [|x l] E; simpl in E;
    try discriminate; constructor; inversion E as [[Ex El]].
  - now apply IH.
  - rewrite Forall_forall in *. intros z Hz.
    apply (in_map kx) in Hz. rewrite El in Hz.
    apply in_map_iff in Hz. destruct Hz as (w & Ew & Hw).
    rewrite Ex, <- Ew. now apply Hy.
Qed.

Section OrderPages.
Variable sum_line_totals : list order_item -> option real.
Variable line_total : real -> real -> option real.

Lemma v_order_totals_of m po :
  ascending po_order_id (purchase_orders m) -> In po (purchase_orders m) ->
  filter (fun v => fst v =? po_order_id po) (v_order_totals sum_line_totals m)
  = [(po_order_id po,
      match items_of (po_order_id po) m with
      | [] => None
      | its => sum_line_totals its
      end)].
Proof.
  intros Ha Hin. unfold v_order_totals.
  rewrite filter_map_swap. cbn [fst].
  now rewrite (filter_unique po_order_id po _ Ha Hin).
Qed.

(** The join, order by order: one row each, with the supplier the order
    names. *)
Lemma orders_joined_rows {T : Type} (row : purchase_order -> supplier -> number -> T) m :
  primary_keys m -> foreign_keys m ->
  Forall2 (fun r po =>
             exists s, In s (suppliers m) /\ s_supplier_id s = po_supplier_id po /\
                       r = row po s (order_total_of sum_line_totals m (po_order_id po)))
          (orders_joined sum_line_totals row m) (purchase_orders m).
Proof.
  intros ((Hs & _) & _ & (Ho & _) & _) (Hfk & _). unfold orders_joined.
  assert (G : forall l, (forall po, In po l -> In po (purchase_orders m)) ->
              Forall2 (fun r po =>
                         exists s, In s (suppliers m) /\
                                   s_supplier_id s = po_supplier_id po /\
                                   r = row po s (order_total_of sum_line_totals m
                                                                (po_order_id po)))
                      (flat_map
                         (fun po =>
                            flat_map
                              (fun s =>
                                 if s_supplier_id s =? po_supplier_id po then
                                   match filter (fun v => fst v =? po_order_id po)
                                                (v_order_totals sum_line_totals m) with
                                   | [] => [row po s (ifnull0 None)]
                                   | vs => map (fun v => row po s (ifnull0 (snd v))) vs
                                   end
                                 else [])
                              (suppliers m)) l) l).
  { induction l as [|po l IH]; intros Hl; simpl; [constructor|].
    assert (Hpo : In po (purchase_orders m)) by (apply Hl; now left).
    destruct (Hfk po Hpo) as (s & Hin & Es).
    rewrite <- Es, (flat_map_unique s_supplier_id _ s _ Hs Hin).
    rewrite (v_order_totals_of m po Ho Hpo). cbn [map snd app].
    constructor.
    - exists s. split; [exact Hin|]. split; [exact Es|]. unfold order_total_of.
      now destruct (items_of (po_order_id po) m).
    - apply IH. intros x Hx. apply Hl. now right. }
  apply G. auto.
Qed.

Lemma orders_rows m :
  primary_keys m -> foreign_keys m ->
  Forall2 (order_row_of sum_line_totals m) (orders sum_line_totals m)
          (rev (purchase_orders m)).
Proof.
  intros K F.
  pose proof (orders_joined_rows
                (fun po s total =>
                   mkOrderRow (po_order_id po) (po_order_date po) (po_status po)
                              (s_name s) total) m K F) as J.
  unfold orders.
  set (joined := orders_joined sum_line_totals _ m) in *.
  assert (Hid : map or_order_id joined = map po_order_id (purchase_orders m)).
  { clear -J. induction J as [|r po l l' (s & _ & _ & ->) _ IH]; simpl;
      [reflexivity|]. now rewrite IH. }
  assert (Ha : ascending or_order_id joined).
  { destruct K as (_ & _ & (Ho & _) & _).
    exact (ascending_same_keys or_order_id po_order_id _ _ Hid Ho). }
  rewrite (order_by_desc_rev _ _ Ha). apply Forall2_rev_rev.
  eapply Forall2_impl; [|exact J]. simpl.
  intros r po (s & Hin & Es & ->). unfold order_row_of. simpl.
  conjs; try reflexivity. eauto.
Qed.
End OrderPages.

Lemma Forall2_nil_r {X Y : Type} (P : X -> Y -> Prop) l : Forall2 P l [] -> l = [].
Proof. now inversion 1. Qed.

Lemma Forall2_single_r {X Y : Type} (P : X -> Y -> Prop) l y :
  Forall2 P l [y] -> exists x, l = [x] /\ P x y.
Proof.
  inversion 1 as [|x y' l0 l' Hp Hn]; subst. inversion Hn; subst. eauto.
Qed.

(** X15.  The orders page.  Whatever the floating-point sum of line totals
    is, in every state the application reaches the orders page has exactly
    one row for each purchase order, the order inserted last first, with the
    order's date and status, the name of the supplier the order names, and
    as total the sum over the order's items, or the integer 0 when the
    order has no items. *)
Theorem orders_page (sum_line_totals : list order_item -> option real)
        (tr : list (env * request)) :
  let m := main (run tr initial) in
  Forall2 (order_row_of sum_line_totals m) (orders sum_line_totals m)
          (rev (purchase_orders m)).
Proof.
  apply orders_rows; [apply primary_keys_reachable|apply foreign_keys_reachable].
Qed.

(** X16.  [order_detail].  In every state the application reaches: for an id
    that no purchase order has, the page gets no order and no lines; for the
    id of a purchase order it gets that order with the name of its supplier
    and its total, and one line for each item of the order, in table
    order. *)
Theorem order_detail_lookup (sum_line_totals : list order_item -> option real)
        (line_total : real -> real -> option real)
        (tr : list (env * request)) (oid : Z) :
  let m := main (run tr initial) in
  ((forall po, In po (purchase_orders m) -> po_order_id po <> oid) ->
   order_detail sum_line_totals line_total oid m = (None, [])) /\
  (forall po, In po (purchase_orders m) -> po_order_id po = oid ->
     exists s, In s (suppliers m) /\ s_supplier_id s = po_supplier_id po /\
       order_detail sum_line_totals line_total oid m
       = (Some (po, s_name s, order_total_of sum_line_totals m oid),
          map (fun i => mkItemLine (oi_description i) (oi_quantity i)
                                   (oi_unit_price i)
                                   (line_total (oi_quantity i) (oi_unit_price i)))
              (items_of oid m))).
Proof.
  cbv zeta. set (m := main (run tr initial)).
  pose proof (primary_keys_reachable tr) as K.
  pose proof (foreign_keys_reachable tr) as F. fold m in K, F.
  pose proof (orders_joined_rows sum_line_totals
                (fun po s total => (po, s_name s, total)) m K F) as J.
  pose proof (Forall2_filter_key _ (fun r => po_order_id (fst (fst r))) po_order_id
                oid _ _
                (fun x y (H : exists s, In s (suppliers m) /\
                                        s_supplier_id s = po_supplier_id y /\
                                        x = (y, s_name s,
                                             order_total_of sum_line_totals m
                                                            (po_order_id y))) =>
                   match H with
                   | ex_intro _ s (conj _ (conj _ E)) =>
                       f_equal (fun r => po_order_id (fst (fst r))) E
                   end) J) as JF.
  unfold order_detail. split.
  - intros Hno. rewrite (filter_absent po_order_id oid _ Hno) in JF.
    apply Forall2_nil_r in JF. rewrite JF. cbn [hd_error].
    assert (Ei : items_of oid m = []).
    { unfold items_of. apply filter_none. intros i Hi. apply Z.eqb_neq.
      destruct F as [_ Fi]. destruct (Fi i Hi) as [(o & Ho & Eo) _].
      rewrite <- Eo. now apply Hno. }
    now rewrite Ei.
  - intros po Hpo <-. destruct K as (_ & _ & (Ho & _) & _).
    rewrite (filter_unique po_order_id po _ Ho Hpo) in JF.
    apply Forall2_single_r in JF. destruct JF as (r & Er & s & Hs & Es & ->).
    rewrite Er. exists s. split; [exact Hs|]. split; [exact Es|]. reflexivity.
Qed.

Lemma order_detail_lookup_witness :
  order_detail (fun _ => None) (fun _ _ => None) 7 (main (run bolt_order initial))
  = (None, []) /\
  exists s, fst (order_detail (fun _ => None) (fun _ _ => None) 1
                              (main (run bolt_order initial)))
            = Some (mkOrder 1 1 0 "DRAFT" None, s_name s, NInt 0).
Proof.
  destruct (order_detail_lookup (fun _ => None) (fun _ _ => None) bolt_order 7)
    as [Hno _].
  destruct (order_detail_lookup (fun _ => None) (fun _ _ => None) bolt_order 1)
    as [_ Hyes].
  split.
  - apply Hno. intros po [<-|[]]. discriminate.
  - destruct (Hyes (mkOrder 1 1 0 "DRAFT" None)) as (s & _ & _ & E).
    + cbn. now left.
    + reflexivity.
    + exists s. now rewrite E.
Defined.

(* ================================================================= *)
(** ** [seed_demo] *)

Lemma exec_insert_products_accepts now name sku price k ss ps os its pa c oia lp li :
  real_ge0 price = true ->
  largest (map p_product_id ps) = k -> k < max_rowid ->
  largest (map pa_audit_id pa) <= c -> c < max_rowid ->
  exec_insert_products false now name sku price
                       (mkMain ss ps os its (mkAutoinc pa c) oia lp li)
  = Ok (mkMain ss
               (ps ++ [mkProduct (k + 1) name sku (store_real price) 1 (date now)])
               os its
               (mkAutoinc (pa ++ [mkProductAudit (c + 1) (k + 1) name sku
                                                 (store_real price) now])
                          (c + 1))
               oia lp li).
Proof.
  intros Hge <- Hp Hl Hs.
  unfold exec_insert_products, insert_products, next_rowid.
  assert (B : bind_real price = Some price) by (now destruct price).
  rewrite B. cbv zeta. rewrite real_ge0_store, Hge. apply Z.ltb_lt in Hp. cbn [products]. rewrite Hp. cbn [bind fst snd].
  unfold trg_products_audit, autoinc_insert, autoincrement_rowid.
  cbn [products_audit set_products rows seq].
  rewrite (Z.max_l _ _ Hl). apply Z.ltb_lt in Hs. rewrite Hs. reflexivity.
Qed.

Lemma insert_purchase_orders_accepts now sid st notes k ss ps os its pa oia lp li :
  existsb (fun s => s_supplier_id s =? sid) ss = true ->
  status_ok st = true ->
  largest (map po_order_id os) = k -> k < max_rowid ->
  insert_purchase_orders now sid st notes (mkMain ss ps os its pa oia lp li)
  = Ok (k + 1,
        mkMain ss ps (os ++ [mkOrder (k + 1) sid (date now) st notes]) its pa oia
               lp li).
Proof.
  intros Hs Hst <- Hk. unfold insert_purchase_orders, next_rowid.
  cbn [suppliers purchase_orders]. rewrite Hs, Hst. apply Z.ltb_lt in Hk. now rewrite Hk.
Qed.

Lemma exec_insert_purchase_order_items_accepts now oid desc qty price k ss ps os its
      pa oia c lp li :
  existsb (fun o => po_order_id o =? oid) os = true ->
  real_gt0 qty = true -> real_ge0 price = true ->
  largest (map oi_item_id its) = k -> k < max_rowid ->
  largest (map oia_audit_id oia) <= c -> c < max_rowid ->
  exec_insert_purchase_order_items false now oid desc qty price
                       (mkMain ss ps os its pa (mkAutoinc oia c) lp li)
  = Ok (mkMain ss ps os
               (its ++ [mkItem (k + 1) oid None desc (store_real qty)
                               (store_real price)])
               pa
               (mkAutoinc (oia ++ [mkItemAudit (c + 1) (k + 1) oid None desc
                                               (store_real qty) (store_real price)
                                               now])
                          (c + 1))
               lp li).
Proof.
  intros Ho Hq Hge <- Hp Hl Hs.
  unfold exec_insert_purchase_order_items, insert_purchase_order_items, next_rowid.
  cbn [purchase_orders purchase_order_items]. rewrite Ho. cbn [negb].
  assert (B : bind_real price = Some price) by (now destruct price).
  assert (B' : bind_real qty = Some qty) by (now destruct qty).
  rewrite B, B'. cbv zeta. rewrite real_gt0_store, real_ge0_store, Hq, Hge.
  apply Z.ltb_lt in Hp. rewrite Hp.
  cbn [bind fst snd andb].
  unfold trg_order_items_audit, autoinc_insert, autoincrement_rowid.
  cbn [order_items_audit set_purchase_order_items rows seq].
  rewrite (Z.max_l _ _ Hl). apply Z.ltb_lt in Hs. rewrite Hs. reflexivity.
Qed.

Ltac seed_product :=
  erewrite exec_insert_products_accepts;
  [cbn [bind app]
  |reflexivity
  |vm_compute; reflexivity
  |reflexivity
  |unfold largest; cbn [map fold_right pa_audit_id]; lia
  |lia].

Ltac seed_item :=
  erewrite exec_insert_purchase_order_items_accepts;
  [cbn [bind app]
  |reflexivity
  |reflexivity
  |reflexivity
  |vm_compute; reflexivity
  |reflexivity
  |unfold largest; cbn [map fold_right oia_audit_id]; lia
  |lia].

Lemma seed_inserts_ok e cp ci :
  (forall i, audit_fails e i = false) ->
  0 <= cp -> cp + 5 <= max_rowid -> 0 <= ci -> ci + 3 <= max_rowid ->
  seed_inserts e (mkMain [] [] [] [] (mkAutoinc [] cp) (mkAutoinc [] ci) [] [])
  = Ok (seeded e cp ci).
Proof.
  intros Hf Hp Hp' Hi Hi'. unfold seed_inserts.
  match goal with
  | |- context [executemany ?f 0%nat suppliers_demo ?m] =>
      assert (E1 : executemany f 0%nat suppliers_demo m
                   = Ok (mkMain (suppliers (seeded e cp ci)) [] [] []
                                (mkAutoinc [] cp) (mkAutoinc [] ci) [] []))
        by reflexivity
  end.
  rewrite E1. clear E1. cbn [bind]. unfold products_demo. cbn [executemany].
  rewrite !Hf. do 5 seed_product.
  erewrite insert_purchase_orders_accepts;
    [cbn [bind app fst snd]|reflexivity|reflexivity|reflexivity|reflexivity].
  unfold order_items_demo. cbn [executemany]. rewrite !Hf. do 3 seed_item.
  unfold seeded, enumerate, products_demo, order_items_demo.
  cbn [map combine List.seq List.length suppliers].
  repeat (f_equal; try reflexivity; try lia).
Qed.

Lemma replicate_product_ledger f clk s s' :
  replicate_product_to_backup f clk s = (s', Returned) ->
  products_backup_ids (main s')
  = products_backup_ids (main s) ++ map pa_audit_id (pending_products s).
Proof.
  intros R. open_pass.
  destruct (pass pa_audit_id pb_backup_id copy_product f clk _ _ _)
    as [[l t] o] eqn:P.
  inversion R; subst; clear R. simpl.
  now pose proof (pass_returned _ _ _ pa_fields pb_fields copy_product_fields
                                _ _ _ _ _ _ _ P) as (L & _).
Qed.

Lemma replicate_order_item_ledger f clk s s' :
  replicate_order_item_to_backup f clk s = (s', Returned) ->
  order_items_backup_ids (main s')
  = order_items_backup_ids (main s) ++ map oia_audit_id (pending_order_items s).
Proof.
  intros R. open_pass.
  destruct (pass oia_audit_id oib_backup_id copy_order_item f clk _ _ _)
    as [[l t] o] eqn:P.
  inversion R; subst; clear R. simpl.
  now pose proof (pass_returned _ _ _ oia_fields oib_fields copy_order_item_fields
                                _ _ _ _ _ _ _ P) as (L & _).
Qed.

(** X17.  [seed_demo].  From every state the application reaches, a
    [seed_demo] request that meets no storage failure and finds five audit
    ids, three item audit ids and as many backup rowids left returns.  The
    business tables then hold the demo data alone, with ids counted from 1
    again: three suppliers, five products, one order placed with supplier 1
    and its three items.  The audit tables hold one row for each product and
    item, numbered on from the counters the emptied tables kept; the ledgers
    hold exactly those audit ids; and the backup tables keep every row they
    had and gain one row for each demo product and item. *)
Theorem seed_demo_result (tr : list (env * request)) (e : env) :
  let s := run tr initial in
  let cp := seq (products_audit (main s)) in
  let ci := seq (order_items_audit (main s)) in
  let s' := fst (seed_demo e s) in
  fault_free e ->
  cp + 5 <= max_rowid -> ci + 3 <= max_rowid ->
  room pb_backup_id (products_backup (backup s)) 5 ->
  room oib_backup_id (order_items_backup (backup s)) 3 ->
  snd (seed_demo e s) = Returned /\
  map s_supplier_id (suppliers (main s')) = [1; 2; 3] /\
  map s_name (suppliers (main s'))
  = ["Alpha Tech Suppliers"; "Southern Electronics"; "Kerala Industrial Co."] /\
  map product_snapshot (products (main s')) = demo_product_fields /\
  map (fun o => (po_order_id o, po_supplier_id o, po_status o))
      (purchase_orders (main s')) = [(1, 1, "PLACED")] /\
  map item_snapshot (purchase_order_items (main s')) = demo_item_fields /\
  (map pa_audit_id (rows (products_audit (main s'))) = next_ids cp 5 /\
   map pa_fields (rows (products_audit (main s'))) = demo_product_fields) /\
  (map oia_audit_id (rows (order_items_audit (main s'))) = next_ids ci 3 /\
   map oia_fields (rows (order_items_audit (main s'))) = demo_item_fields) /\
  products_backup_ids (main s') = next_ids cp 5 /\
  order_items_backup_ids (main s') = next_ids ci 3 /\
  (exists new, rows (products_backup (backup s'))
               = rows (products_backup (backup s)) ++ new /\
               map pb_fields new = demo_product_fields) /\
  (exists new, rows (order_items_backup (backup s'))
               = rows (order_items_backup (backup s)) ++ new /\
               map oib_fields new = demo_item_fields).
Proof.
  cbv zeta. intros (Fa & Fp & Fi) Hcp Hci Rp Ri.
  destruct (replication_keys_hold tr) as (((_ & _ & Cp) & (_ & _ & Ci)) & _).
  set (s := run tr initial) in *.
  set (cp := seq (products_audit (main s))) in *.
  set (ci := seq (order_items_audit (main s))) in *.
  unfold seed_demo. rewrite wipe_ok. unfold wiped, autoinc_delete_all. fold cp ci.
  rewrite (seed_inserts_ok e cp ci Fa Cp Hcp Ci Hci), Fp, Fi.
  remember (mkSystem (seeded e cp ci) (backup s)) as s0 eqn:E0.
  assert (M0 : main s0 = seeded e cp ci) by now subst s0.
  assert (B0 : backup s0 = backup s) by now subst s0.
  assert (Pp : pending_products s0 = rows (products_audit (seeded e cp ci)))
    by now subst s0.
  assert (Pi : pending_order_items s0 = rows (order_items_audit (seeded e cp ci)))
    by now subst s0.
  clear E0.
  assert (Ap : map pa_audit_id (rows (products_audit (seeded e cp ci)))
               = next_ids cp 5) by reflexivity.
  assert (Ai : map oia_audit_id (rows (order_items_audit (seeded e cp ci)))
               = next_ids ci 3) by reflexivity.
  assert (Np : NoDup (next_ids cp 5)).
  { unfold next_ids. cbn [map List.seq].
    repeat (constructor; [cbn [In]; lia|]). constructor. }
  assert (Ni : NoDup (next_ids ci 3)).
  { unfold next_ids. cbn [map List.seq].
    repeat (constructor; [cbn [In]; lia|]). constructor. }
  pose proof (replicate_product_returns (product_clock e) s0) as Op.
  rewrite M0, B0, Pp, Ap in Op. specialize (Op Np Rp).
  pose proof (replicate_product_effect no_faults (product_clock e) s0) as Ep.
  destruct (replicate_product_to_backup no_faults (product_clock e) s0)
    as [s1 o1] eqn:P1.
  cbv zeta in Ep. cbn [fst snd] in Op, Ep. subst o1. cbn [and_then].
  destruct (replicate_product_done _ _ _ _ P1) as (_ & _ & newp & Hnp & Hfp).
  pose proof (replicate_product_ledger _ _ _ _ P1) as Lp.
  destruct Ep as ((Es & Epr & Eo & Eit & Epa & Eia) & El & Eb & _).
  assert (Pi1 : pending_order_items s1 = pending_order_items s0)
    by (unfold pending_order_items; now rewrite Eia, El).
  pose proof (replicate_order_item_returns (item_clock e) s1) as Oi.
  rewrite Eia, Eb, Pi1, M0, B0, Pi, Ai in Oi. specialize (Oi Ni Ri).
  pose proof (replicate_order_item_effect no_faults (item_clock e) s1) as Ee.
  destruct (replicate_order_item_to_backup no_faults (item_clock e) s1)
    as [s2 o2] eqn:P2.
  cbv zeta in Ee. cbn [fst snd] in Oi, Ee. subst o2.
  destruct (replicate_order_item_done _ _ _ _ P2) as (_ & _ & newi & Hni & Hfi).
  pose proof (replicate_order_item_ledger _ _ _ _ P2) as Li.
  destruct Ee as ((Es' & Epr' & Eo' & Eit' & Epa' & Eia') & El' & Eb' & _).
  cbn [fst snd].
  rewrite Es', Epr', Eo', Eit', Epa', Eia', El', Eb', Li, Lp, Pi1, Pp, Pi, Ap, Ai.
  rewrite Es, Epr, Eo, Eit, Epa, Eia, El, M0.
  rewrite Pi1, Pi in Hfi. rewrite Pp in Hfp.
  conjs; try reflexivity.
  - exists newp. rewrite <- B0. split; [exact Hnp|exact Hfp].
  - exists newi. rewrite <- B0, <- Eb. split; [exact Hni|exact Hfi].
Qed.

Lemma seed_demo_result_witness :
  snd (seed_demo (quiet 100) initial) = Returned /\
  products_backup_ids (main (fst (seed_demo (quiet 100) initial))) = [1; 2; 3; 4; 5].
Proof.
  destruct (seed_demo_result [] (quiet 100)) as (A & _ & _ & _ & _ & _ & _ & _ & B & _).
  - repeat split.
  - unfold max_rowid. cbn. lia.
  - unfold max_rowid. cbn. lia.
  - unfold room. cbn. unfold max_rowid. lia.
  - unfold room. cbn. unfold max_rowid. lia.
  - split; [exact A|exact B].
Defined.

(* ================================================================= *)
(** ** [add_order] *)






